(** * libhttp/ssl.c: TLS support of the shellinabox HTTP server

    A shallow embedding of the functions of [libhttp/ssl.c] and the
    properties of its hostname-selection callback, its PEM decoder, its
    session promotion and teardown, the loading of the OpenSSL library and
    the installation of a certificate from a file or a file descriptor.

    Bytes and [char]s are integers ([Z]); a C string is the list of its
    bytes, read up to the first NUL.  Pointers are integers, [0] is NULL. *)

From Stdlib Require Import ZArith Lia Bool String Ascii.
From stdpp Require Import base numbers list gmap.

Local Open Scope Z_scope.

(** ** C strings *)

(** The bytes of a literal. *)
Definition str (s : string) : list Z :=
  map (fun a => Z.of_N (N_of_ascii a)) (list_ascii_of_string s).

(** [s[i]]; past the stored bytes sits the terminating NUL. *)
Definition char_at (s : list Z) (i : nat) : Z := nth i s 0.

(** The string that starts at [s]: the bytes before the first NUL. *)
Fixpoint c_str (s : list Z) : list Z :=
  match s with
  | [] => []
  | c :: r => if c =? 0 then [] else c :: c_str r
  end.

Definition strlen (s : list Z) : nat := length (c_str s).

(** [malloc(n)]: a block of [n] bytes whose contents are whatever the
    allocator left there, [junk]. *)
Definition malloc (n : nat) (junk : nat -> Z) : list Z := map junk (seq 0 n).

(** Modelled from the spec: [stringPrintf] (logging.c, not part of this
    file) formats like [sprintf] and appends to the string already in the
    buffer it is given (NULL: a new, empty one).  Every format of ssl.c has
    one [%s] slot. *)
Fixpoint format_s (fmt arg : list Z) : list Z :=
  match fmt with
  | [] => []
  | c :: r =>
      match r with
      | c' :: r' =>
          if (c =? 37) && (c' =? 115) then arg ++ r' else c :: format_s r arg
      | [] => [c]
      end
  end.

Definition stringPrintf (buf : option (list Z)) (fmt arg : list Z) : list Z :=
  match buf with
  | None => format_s (c_str fmt) (c_str arg)
  | Some b => c_str b ++ format_s (c_str fmt) (c_str arg)
  end.

(** ** Outcomes of a call *)

Inductive outcome (A : Type) : Type :=
| Done (a : A)      (* the function returns *)
| Aborted           (* check(), fatal() or a signal: the process is ended *)
| Undefined.        (* NULL or dangling pointer dereferenced *)
Arguments Done {A} a.
Arguments Aborted {A}.
Arguments Undefined {A}.

(** ** The hostname-selection callback *)

Module SNI.

Record SSLSupport := mkSSLSupport {
  enabled               : bool;
  sslContext            : Z;
  sniCertificatePattern : option (list Z);
  generateMissing       : bool;
  sniContexts           : gmap (list Z) Z
}.

(** Modelled from the spec: the trie of trie.c (not part of this file), a
    map from the key string to the stored pointer; a lookup without a
    [diff] argument is an exact match and yields NULL for an absent key. *)
Definition getFromTrie (t : gmap (list Z) Z) (key : list Z) : Z :=
  default 0 (t !! c_str key).

Definition addToTrie (t : gmap (list Z) Z) (key : list Z) (value : Z)
  : gmap (list Z) Z :=
  <[c_str key := value]> t.

Definition initSSL (supported : bool) : SSLSupport :=
  {| enabled := supported; sslContext := 0; sniCertificatePattern := None;
     generateMissing := false; sniContexts := ∅ |}.

(** The test of lines 312-314: the byte is dropped.  A byte above 127 is
    dropped whether [char] is signed ([ch < '0']) or not ([ch > 'z']). *)
Definition sni_discard (ch : Z) : bool :=
  negb (ch =? 0) && negb (ch =? 46) && negb (ch =? 45) &&
  ((ch <? 48) || ((57 <? ch) && (ch <? 65)) ||
   ((90 <? ch) && (ch <? 97)) || (122 <? ch)).

(** [block[i] = ch]: a write outside the block is undefined ([None]). *)
Definition poke (block : list Z) (i : nat) (ch : Z) : option (list Z) :=
  if (i <? length block)%nat then Some (<[i := ch]> block) else None.

(** The loop of lines 308-322.  One index [i] both reads [name] and, after
    its increment, writes [serverName].  [None]: the loop writes outside
    the block, or takes more than [fuel] turns. *)
Fixpoint sni_loop (fuel : nat) (name : list Z) (i : nat) (serverName : list Z)
  : option (list Z) :=
  match fuel with
  | O => None
  | S fuel' =>
      let ch := char_at name i in
      if (65 <=? ch) && (ch <=? 90) then
        let ch := Z.lor ch 32 in
        match poke serverName (S i) ch with
        | None => None
        | Some serverName =>
            if ch =? 0 then Some serverName
            else sni_loop fuel' name (S i) serverName
        end
      else if sni_discard ch then
        sni_loop fuel' name (S i) serverName
      else
        match poke serverName (S i) ch with
        | None => None
        | Some serverName =>
            if ch =? 0 then Some serverName
            else sni_loop fuel' name (S i) serverName
        end
  end.

(** Lines 305-322: the buffer [serverName] after the loop, when [malloc]
    has not failed. *)
Definition sni_serverName (name : list Z) (junk : nat -> Z) : option (list Z) :=
  let serverName := malloc (strlen name + 2) junk in
  match poke serverName O 45 with
  | None => None
  | Some serverName => sni_loop (S (strlen name)) name 0 serverName
  end.

(** What the callback sees: the error queue, the name the client sent
    (NULL when [None]), the contents of the block [malloc] hands out, the
    pointer [SSL_CTX_new] returns, and whether the three calls that load
    and check the certificate file all succeed, before and after a
    certificate has been generated; whether [malloc] gives a block at all
    (line 306), whether [SSL_set_SSL_CTX] gives a context (line 361), and
    whether it leaves an error in the queue. *)
Record Env := mkEnv {
  err_pending : bool;
  servername  : option (list Z);
  junk        : nat -> Z;
  fresh_ctx   : Z;
  load_first  : bool;
  load_retry  : bool;
  block_ok    : bool;
  switch_ok   : bool;
  switch_err  : bool
}.

Inductive event :=
| EvTrieGet (key : list Z)
| EvCtxNew (c : Z)
| EvPrintf (fmt arg : list Z)
| EvLoad (c : Z) (path : list Z)
| EvGenerate (path cn : list Z)
| EvWarn (path cn : list Z)
| EvCtxFree (c : Z)
| EvTrieAdd (key : list Z) (c : Z)
| EvSetCtx (c : Z).

Definition with_sniContexts (ssl : SSLSupport) (t : gmap (list Z) Z)
  : SSLSupport :=
  {| enabled := enabled ssl; sslContext := sslContext ssl;
     sniCertificatePattern := sniCertificatePattern ssl;
     generateMissing := generateMissing ssl;
     sniContexts := t |}.

(** The certificate of the host cannot be loaded: the first attempt
    fails, and no certificate is generated or the second attempt fails
    too. *)
Definition load_failed (ssl : SSLSupport) (e : Env) : bool :=
  negb (load_first e) && (negb (generateMissing ssl) || negb (load_retry e)).

(** Lines 330-358, the cache miss. *)
Definition sni_miss (ssl : SSLSupport) (e : Env) (serverName : list Z)
  : outcome (SSLSupport * Z * list event) :=
  let context := fresh_ctx e in
  if context =? 0 then Aborted else
  match sniCertificatePattern ssl with
  | None => Aborted
  | Some pattern =>
      let certificate := stringPrintf None pattern serverName in
      let tr := [EvCtxNew context; EvPrintf pattern (c_str serverName);
                 EvLoad context certificate] in
      let '(context, tr) :=
        if negb (load_first e) then
          if generateMissing ssl then
            let tr := tr ++ [EvGenerate certificate (c_str (drop 1 serverName));
                             EvLoad context certificate] in
            if negb (load_retry e) then
              (sslContext ssl,
               tr ++ [EvWarn certificate (c_str (drop 1 serverName));
                      EvCtxFree context])
            else (context, tr)
          else
            (sslContext ssl,
             tr ++ [EvWarn certificate (c_str (drop 1 serverName));
                    EvCtxFree context])
        else (context, tr) in
      let t := addToTrie (sniContexts ssl) (drop 1 serverName) context in
      Done (with_sniContexts ssl t, context,
            tr ++ [EvTrieAdd (c_str (drop 1 serverName)) context])
  end.

(** [sslSNICallback], lines 294-365.  [bound] is the context the session
    [sslHndl] is bound to; the result is the support object, the context
    the session is bound to afterwards, and what was done.  The error
    queue, [queue], is empty after the check of line 295 and after line
    355; from there to the check of line 363 the one call of OpenSSL is
    [SSL_set_SSL_CTX]. *)
Definition sslSNICallback (ssl : SSLSupport) (bound : Z) (e : Env)
  : outcome (SSLSupport * Z * list event) :=
  if err_pending e then Aborted else
  match servername e with
  | None => Done (ssl, bound, [])
  | Some name =>
      if char_at name 0 =? 0 then Done (ssl, bound, []) else
      if negb (block_ok e) then Aborted else
      match sni_serverName name (junk e) with
      | None => Undefined
      | Some serverName =>
          if char_at serverName 0 =? 0 then Done (ssl, bound, []) else
          let key := drop 1 serverName in
          let context := getFromTrie (sniContexts ssl) key in
          let r :=
            if context =? 0 then
              match sni_miss ssl e serverName with
              | Done (ssl', context, tr) =>
                  Done (ssl', context, EvTrieGet (c_str key) :: tr)
              | Aborted => Aborted
              | Undefined => Undefined
              end
            else Done (ssl, context, [EvTrieGet (c_str key)]) in
          match r with
          | Done (ssl', context, tr) =>
              let queue := false in
              if context =? sslContext ssl' then
                if queue then Aborted else Done (ssl', bound, tr)
              else if negb (switch_ok e) then Aborted
              else
                let queue := switch_err e in
                if queue then Aborted
                else Done (ssl', context, tr ++ [EvSetCtx context])
          | Aborted => Aborted
          | Undefined => Undefined
          end
      end
  end.

(** The strings the callback works with. *)
Definition sni_key (name : list Z) (junk : nat -> Z) : option (list Z) :=
  match sni_serverName name junk with
  | Some serverName => Some (c_str (drop 1 serverName))
  | None => None
  end.

Definition sni_template_arg (name : list Z) (junk : nat -> Z) : option (list Z) :=
  match sni_serverName name junk with
  | Some serverName => Some (c_str serverName)
  | None => None
  end.

(** A sequence of callbacks on one support object, each on a session bound
    to some context. *)
Fixpoint sni_run (ssl : SSLSupport) (calls : list (Z * Env))
  : outcome SSLSupport :=
  match calls with
  | [] => Done ssl
  | (bound, e) :: rest =>
      match sslSNICallback ssl bound e with
      | Done (ssl', _, _) => sni_run ssl' rest
      | Aborted => Aborted
      | Undefined => Undefined
      end
  end.

(** [sslDestroyCachedContext], lines 117-128, with OpenSSL present: the
    calls of [SSL_CTX_free] it makes. *)
Definition sslDestroyCachedContext (ssl : SSLSupport) (context : Z) : list Z :=
  if negb (context =? sslContext ssl) then [context] else [].

(** Modelled from the spec: [destroyTrie] of trie.c (not part of this
    file) runs the destructor the trie was initialised with on every
    stored value. *)
Definition destroyTrie (destructor : Z -> list Z) (t : gmap (list Z) Z)
  : list Z :=
  flat_map (fun kv => destructor (snd kv)) (map_to_list t).

(** [destroySSL], lines 145-158: the contexts handed to [SSL_CTX_free], in
    order.  [dbg] and [err] are as for [dcheck(!ERR_peek_error())]. *)
Definition destroySSL (dbg err : bool) (ssl : option SSLSupport)
  : outcome (list Z) :=
  match ssl with
  | None => Done []
  | Some ssl =>
      let freed := destroyTrie (sslDestroyCachedContext ssl) (sniContexts ssl) in
      if negb (sslContext ssl =? 0) then
        if err && dbg then Aborted
        else Done (freed ++ [sslContext ssl])
      else Done freed
  end.

(** What the loop leaves in [serverName] after the leading dash: a kept
    byte lower-cased, and for a dropped byte the byte the block held. *)
Fixpoint sni_image (j : nat) (s : list Z) (junk : nat -> Z) : list Z :=
  match s with
  | [] => []
  | ch :: r =>
      (if (65 <=? ch) && (ch <=? 90) then Z.lor ch 32
       else if sni_discard ch then junk j else ch) :: sni_image (S j) r junk
  end.

(** The normalisation as the specification words it: letters lower-cased,
    every byte outside [a-z0-9.-] discarded. *)
Definition spec_lower (ch : Z) : Z :=
  if (65 <=? ch) && (ch <=? 90) then ch + 32 else ch.

Definition spec_allowed (ch : Z) : bool :=
  ((97 <=? ch) && (ch <=? 122)) || ((48 <=? ch) && (ch <=? 57)) ||
  (ch =? 46) || (ch =? 45).

Definition spec_normalize (name : list Z) : list Z :=
  filter (fun ch => spec_allowed ch = true) (map spec_lower name).

(** The support object once [sslSetCertificate] has registered the
    callback: there is a default context, and no NULL is stored in the
    cache (the callback stores none). *)
Definition configured (ssl : SSLSupport) : Prop :=
  sslContext ssl <> 0 /\
  forall k c, sniContexts ssl !! k = Some c -> c <> 0.

Definition example_ssl : SSLSupport :=
  {| enabled := true; sslContext := 1;
     sniCertificatePattern := Some (str "/etc/certificate%s.pem");
     generateMissing := false; sniContexts := ∅ |}.

Definition example_env (name : string) (c : Z) (ok : bool) : Env :=
  {| err_pending := false; servername := Some (str name);
     junk := fun _ => 0; fresh_ctx := c; load_first := ok;
     load_retry := false; block_ok := true; switch_ok := true;
     switch_err := false |}.

(** The same handshake with another name sent by the client. *)
Definition with_servername (e : Env) (name : list Z) : Env :=
  {| err_pending := err_pending e; servername := Some name;
     junk := junk e; fresh_ctx := fresh_ctx e;
     load_first := load_first e; load_retry := load_retry e;
     block_ok := block_ok e; switch_ok := switch_ok e;
     switch_err := switch_err e |}.

(** No context other than the default one is cached under two keys. *)
Definition owned_once (ssl : SSLSupport) : Prop :=
  forall k1 k2 c,
    sniContexts ssl !! k1 = Some c -> sniContexts ssl !! k2 = Some c ->
    c <> sslContext ssl -> k1 = k2.

End SNI.

(** ** The PEM decoder *)

Module PEM.

(** [strstr]: the offset of the first occurrence of [needle]. *)
Fixpoint is_prefix (p s : list Z) : bool :=
  match p, s with
  | [], _ => true
  | a :: p', b :: s' => (a =? b) && is_prefix p' s'
  | _ :: _, [] => false
  end.

Fixpoint strstr (hay needle : list Z) : option nat :=
  match hay with
  | [] => if is_prefix needle [] then Some O else None
  | _ :: r =>
      if is_prefix needle hay then Some O
      else match strstr r needle with Some n => Some (S n) | None => None end
  end.

(** What [sslPEMtoASN1] does. [Absent] and [Malformed] both return NULL
    and leave [*size] at -1.  [Malformed] has allocated [ret] and, at
    [err:] (lines 511-513), freed it as it was: [freed] is the bytes the
    loop had written to the block, which [free] does not clear. *)
Inductive result :=
| Absent
| Malformed (freed : list Z)
| Decoded (ret : list Z)
| CheckFailed.

Definition ret_of (r : result) : option (list Z) :=
  match r with Decoded ret => Some ret | _ => None end.

Definition size_of (r : result) : Z :=
  match r with Decoded ret => Z.of_nat (length ret) | _ => -1 end.

(** The branches of lines 491-514 on one byte ([unsigned char]). *)
Inductive b64class := Sextet (v : Z) | Pad | Skip | Bad.

Definition classify (ch : Z) : b64class :=
  if (65 <=? ch) && (ch <=? 90) then Sextet ((ch - 65) mod 256)
  else if (97 <=? ch) && (ch <=? 122) then Sextet ((ch - (97 - 26)) mod 256)
  else if (48 <=? ch) && (ch <=? 57) then Sextet ((ch + (52 - 48)) mod 256)
  else if ch =? 43 then Sextet ((ch + (62 - 43)) mod 256)
  else if ch =? 47 then Sextet ((ch + (63 - 47)) mod 256)
  else if ch =? 61 then Pad
  else if ch <=? 32 then Skip
  else Bad.

(** Lines 502-506: after a [=], up to [end]. *)
Definition pad_tail (s : list Z) : bool :=
  forallb (fun ch => negb (negb (ch =? 61) && (32 <? ch))) s.

(** The loop of lines 489-523 over the bytes from [ptr] to [end]; [bits]
    is an [unsigned] of 32 bits, [out] the bytes written so far. *)
Fixpoint decode (s : list Z) (bits count : Z) (out : list Z) : result :=
  match s with
  | [] => Decoded out
  | ch :: s' =>
      match classify ch with
      | Sextet ch =>
          if negb (ch <=? 63) || negb (0 <=? count) || negb (count <=? 6)
          then CheckFailed
          else
            let bits := Z.lor (Z.shiftl bits 6 mod 2 ^ 32) ch in
            let count := count + 6 in
            if 8 <=? count then
              let count := count - 8 in
              decode s' bits count (out ++ [Z.land (Z.shiftr bits count) 255])
            else decode s' bits count out
      | Pad => if pad_tail s' then Decoded out else Malformed out
      | Skip => decode s' bits count out
      | Bad => Malformed out
      end
  end.

Definition begin_marker (record : list Z) : list Z :=
  stringPrintf None (str "-----BEGIN %s-----") record.

Definition end_marker (record : list Z) : list Z :=
  stringPrintf (Some (<[O := 0]> (begin_marker record)))
               (str "-----END %s-----") record.

(** [sslPEMtoASN1], lines 463-527. *)
Definition sslPEMtoASN1 (pem record : list Z) : result :=
  let marker := begin_marker record in
  match strstr (c_str pem) marker with
  | None => Absent
  | Some off =>
      let ptr := drop (off + length marker)%nat (c_str pem) in
      let marker := end_marker record in
      match strstr ptr marker with
      | None => Absent
      | Some e =>
          let body := take e ptr in
          let maxSize := (Z.of_nat (length body) * 6 + 7) / 8 in
          match decode body 0 0 [] with
          | Decoded out =>
              if Z.of_nat (length out) <=? maxSize then Decoded out
              else CheckFailed
          | r => r
          end
      end
  end.

(** Standard base64 (RFC 4648), the encoding the decoder is the inverse
    of; ssl.c has no encoder. *)
Definition b64_char (v : Z) : Z :=
  if v <? 26 then 65 + v
  else if v <? 52 then 97 + (v - 26)
  else if v <? 62 then 48 + (v - 52)
  else if v =? 62 then 43 else 47.

Fixpoint base64_encode (l : list Z) : list Z :=
  match l with
  | [] => []
  | a :: l1 =>
      match l1 with
      | [] => [b64_char (a / 4); b64_char (a mod 4 * 16); 61; 61]
      | b :: l2 =>
          match l2 with
          | [] => [b64_char (a / 4); b64_char (a mod 4 * 16 + b / 16);
                   b64_char (b mod 16 * 4); 61]
          | c :: l3 =>
              b64_char (a / 4) :: b64_char (a mod 4 * 16 + b / 16) ::
              b64_char (b mod 16 * 4 + c / 64) :: b64_char (c mod 64) ::
              base64_encode l3
          end
      end
  end.

(** White space as the decoder sees it, and a text with it removed. *)
Definition is_space (ch : Z) : bool := ch <=? 32.

(** White space as the specification words it: the space and the
    characters from the tab to the carriage return ([isspace] of C). *)
Definition spec_whitespace (ch : Z) : bool :=
  (ch =? 32) || ((9 <=? ch) && (ch <=? 13)).

Definition strip_space (s : list Z) : list Z :=
  filter (fun ch => is_space ch = false) s.

(** An armored block: the markers of [record] around [body]. *)
Definition armor (record body : list Z) : list Z :=
  begin_marker record ++ body ++ end_marker record.

Definition is_byte (b : Z) : Prop := 0 <= b < 256.

(** The base64 alphabet. *)
Definition is_b64 (ch : Z) : bool :=
  ((65 <=? ch) && (ch <=? 90)) || ((97 <=? ch) && (ch <=? 122)) ||
  ((48 <=? ch) && (ch <=? 57)) || (ch =? 43) || (ch =? 47).

(** The values [count] takes. *)
Definition count_ok (count : Z) : Prop :=
  count = 0 \/ count = 2 \/ count = 4 \/ count = 6.

(** The text from [ptr] to [end] has a byte that ends the decoding with
    an error: outside the alphabet, not white space and not [=]; or after
    a [=], neither [=] nor white space. *)
Definition spoiled (s : list Z) : Prop :=
  (exists b, In b s /\ 32 < b /\ b <> 61 /\ is_b64 b = false) \/
  (exists pre post b, s = pre ++ 61 :: post /\ In b post /\ b <> 61 /\ 32 < b).

(** [needle] occurs in [hay]. *)
Definition occurs (needle hay : list Z) : Prop :=
  exists pre post, hay = pre ++ needle ++ post.

End PEM.

(** ** Sessions: promotion and release *)

Module Session.

(** The OpenSSL objects ssl.c looks into: a BIO with its chain links and
    reference count, and an SSL connection with its two endpoints. *)
Inductive bio_method :=
| BIO_s_socket (fd : Z)
| BIO_f_buffer (data : list Z).

Record BIO := mkBIO {
  method     : bio_method;
  next_bio   : Z;
  prev_bio   : Z;
  references : Z
}.

Record SSL := mkSSL {
  ctx          : Z;
  mode         : Z;
  rbio         : Z;
  wbio         : Z;
  accept_state : bool
}.

(** The process: the live objects by address, the OpenSSL error queue
    (is it non-empty), the SIGPIPE mask, and a log of the addresses
    allocated and freed. *)
Record World := mkWorld {
  bios            : gmap Z BIO;
  ssls            : gmap Z SSL;
  err_queue       : bool;
  sigpipe_blocked : bool;
  sigpipe_pending : bool;
  allocs          : list Z;
  frees           : list Z
}.

(** What a call cannot decide: whether debug logging is on (a failed
    [dcheck] is fatal only then); whether the allocations inside
    [SSL_new], [BIO_new_socket], [BIO_new] and [BIO_set_buffer_read_data]
    succeed; which of the pending signals [sigwait] takes; and whether
    SIGPIPE has its default action, which ends the process when the
    signal is delivered. *)
Record Env := mkEnv {
  debug          : bool;
  ssl_new_ok     : bool;
  bio_socket_ok  : bool;
  bio_buffer_ok  : bool;
  buffer_ok      : bool;
  sigwait_signal : Z;
  sigpipe_fatal  : bool
}.

Definition M (A : Type) : Type := World -> outcome A * World.

Definition ret {A} (a : A) : M A := fun w => (Done a, w).

Definition bind {A B} (m : M A) (k : A -> M B) : M B :=
  fun w =>
    match m w with
    | (Done a, w') => k a w'
    | (Aborted, w') => (Aborted, w')
    | (Undefined, w') => (Undefined, w')
    end.

Notation "'let!' x ':=' m 'in' k" := (bind m (fun x => k))
  (at level 10, x name, m at level 100, k at level 200).
Notation "'do!' m 'in' k" := (bind m (fun _ => k))
  (at level 10, m at level 100, k at level 200).

Definition abort {A} : M A := fun w => (Aborted, w).
Definition undefined {A} : M A := fun w => (Undefined, w).

(** Modelled from the spec: [check], [dcheck] and [fatal] of logging.h
    (not part of this file).  A failed [check] is [fatal], which ends the
    process; a failed [dcheck] is fatal when debug logging is on and an
    error message otherwise. *)
Definition check (b : bool) : M unit := if b then ret tt else abort.
Definition dcheck (e : Env) (b : bool) : M unit :=
  if b then ret tt else if debug e then abort else ret tt.
Definition fatal {A} : M A := abort.

Definition update_bios (f : gmap Z BIO -> gmap Z BIO) (w : World) : World :=
  {| bios := f (bios w); ssls := ssls w; err_queue := err_queue w;
     sigpipe_blocked := sigpipe_blocked w;
     sigpipe_pending := sigpipe_pending w;
     allocs := allocs w; frees := frees w |}.

Definition update_ssls (f : gmap Z SSL -> gmap Z SSL) (w : World) : World :=
  {| bios := bios w; ssls := f (ssls w); err_queue := err_queue w;
     sigpipe_blocked := sigpipe_blocked w;
     sigpipe_pending := sigpipe_pending w;
     allocs := allocs w; frees := frees w |}.

Definition set_err (b : bool) (w : World) : World :=
  {| bios := bios w; ssls := ssls w; err_queue := b;
     sigpipe_blocked := sigpipe_blocked w;
     sigpipe_pending := sigpipe_pending w;
     allocs := allocs w; frees := frees w |}.

Definition set_sigpipe (blocked pending : bool) (w : World) : World :=
  {| bios := bios w; ssls := ssls w; err_queue := err_queue w;
     sigpipe_blocked := blocked; sigpipe_pending := pending;
     allocs := allocs w; frees := frees w |}.

Definition log_alloc (a : Z) (w : World) : World :=
  {| bios := bios w; ssls := ssls w; err_queue := err_queue w;
     sigpipe_blocked := sigpipe_blocked w;
     sigpipe_pending := sigpipe_pending w;
     allocs := allocs w ++ [a]; frees := frees w |}.

Definition log_free (a : Z) (w : World) : World :=
  {| bios := bios w; ssls := ssls w; err_queue := err_queue w;
     sigpipe_blocked := sigpipe_blocked w;
     sigpipe_pending := sigpipe_pending w;
     allocs := allocs w; frees := frees w ++ [a] |}.

(** An address no live object has, and not NULL. *)
Definition new_addr (w : World) : Z :=
  fresh ({[0]} ∪ dom (bios w) ∪ dom (ssls w) : gset Z).

(** [b->field]: a pointer that is NULL or not live has no fields. *)
Definition bio_at (b : Z) : M BIO :=
  fun w => match bios w !! b with
           | Some x => (Done x, w)
           | None => (Undefined, w)
           end.

Definition ssl_at (s : Z) : M SSL :=
  fun w => match ssls w !! s with
           | Some x => (Done x, w)
           | None => (Undefined, w)
           end.

Definition store_bio (b : Z) (x : BIO) : M unit :=
  fun w => (Done tt, update_bios (insert b x) w).

Definition store_ssl (s : Z) (x : SSL) : M unit :=
  fun w => (Done tt, update_ssls (insert s x) w).

(** *** The functions of OpenSSL that ssl.c calls (after bio_lib.c and
    ssl_lib.c of OpenSSL 1.0) *)

Definition ERR_peek_error : M bool := fun w => (Done (err_queue w), w).
Definition ERR_clear_error : M unit := fun w => (Done tt, set_err false w).

Definition SSL_new (e : Env) (c : Z) : M Z :=
  fun w =>
    if (c =? 0) || negb (ssl_new_ok e) then (Done 0, set_err true w)
    else
      let a := new_addr w in
      (Done a,
       log_alloc a
         (update_ssls (insert a {| ctx := c; mode := 0; rbio := 0; wbio := 0;
                                   accept_state := false |}) w)).

Definition SSL_MODE_ENABLE_PARTIAL_WRITE : Z := 1.

Definition SSL_set_mode (s : Z) (m : Z) : M unit :=
  let! x := ssl_at s in
  store_ssl s {| ctx := ctx x; mode := Z.lor (mode x) m; rbio := rbio x;
                 wbio := wbio x; accept_state := accept_state x |}.

(** [BIO_new]: NULL, with an error in the queue, when the object cannot
    be allocated. *)
Definition BIO_new_with (ok : bool) (m : bio_method) : M Z :=
  fun w =>
    if negb ok then (Done 0, set_err true w)
    else
      let a := new_addr w in
      (Done a,
       log_alloc a
         (update_bios (insert a {| method := m; next_bio := 0; prev_bio := 0;
                                   references := 1 |}) w)).

Definition BIO_new_socket (e : Env) (fd : Z) (close_flag : Z) : M Z :=
  BIO_new_with (bio_socket_ok e) (BIO_s_socket fd).

Definition BIO_new_buffer (e : Env) : M Z :=
  BIO_new_with (bio_buffer_ok e) (BIO_f_buffer []).

(** The last BIO of the chain that starts at [b]. *)
Fixpoint chain_end (fuel : nat) (b : Z) : M Z :=
  match fuel with
  | O => undefined
  | S fuel' =>
      let! x := bio_at b in
      if next_bio x =? 0 then ret b else chain_end fuel' (next_bio x)
  end.

Definition BIO_push (b bio : Z) : M Z :=
  if b =? 0 then ret bio else
  let! n := (fun w => (Done (S (size (bios w))), w)) in
  let! lb := chain_end n b in
  let! x := bio_at lb in
  do! store_bio lb {| method := method x; next_bio := bio;
                      prev_bio := prev_bio x; references := references x |} in
  do! (if bio =? 0 then ret tt else
       let! y := bio_at bio in
       store_bio bio {| method := method y; next_bio := next_bio y;
                        prev_bio := lb; references := references y |}) in
  ret b.

Definition BIO_pop (b : Z) : M Z :=
  if b =? 0 then ret 0 else
  let! x := bio_at b in
  do! (if prev_bio x =? 0 then ret tt else
       let! p := bio_at (prev_bio x) in
       store_bio (prev_bio x)
         {| method := method p; next_bio := next_bio x;
            prev_bio := prev_bio p; references := references p |}) in
  do! (if next_bio x =? 0 then ret tt else
       let! n := bio_at (next_bio x) in
       store_bio (next_bio x)
         {| method := method n; next_bio := next_bio n;
            prev_bio := prev_bio x; references := references n |}) in
  let! x' := bio_at b in
  do! store_bio b {| method := method x'; next_bio := 0; prev_bio := 0;
                     references := references x' |} in
  ret (next_bio x).

(** [BIO_set_buffer_read_data] is [BIO_ctrl], which returns 0 for a NULL
    BIO. *)
Definition BIO_set_buffer_read_data (e : Env) (b : Z) (buf : list Z) (len : Z)
  : M bool :=
  if b =? 0 then ret false else
  let! x := bio_at b in
  if buffer_ok e then
    do! store_bio b {| method := BIO_f_buffer (take (Z.to_nat len) buf);
                       next_bio := next_bio x; prev_bio := prev_bio x;
                       references := references x |} in
    ret true
  else (fun w => (Done false, set_err true w)).

Definition SSL_set_bio (s r w : Z) : M unit :=
  let! x := ssl_at s in
  store_ssl s {| ctx := ctx x; mode := mode x; rbio := r; wbio := w;
                 accept_state := accept_state x |}.

Definition SSL_set_accept_state (s : Z) : M unit :=
  let! x := ssl_at s in
  store_ssl s {| ctx := ctx x; mode := mode x; rbio := rbio x;
                 wbio := wbio x; accept_state := true |}.

Definition SSL_get_rbio (s : Z) : M Z := let! x := ssl_at s in ret (rbio x).
Definition SSL_get_wbio (s : Z) : M Z := let! x := ssl_at s in ret (wbio x).

(** [BIO_free]: drop one reference, release the object with the last. *)
Definition BIO_free (b : Z) : M unit :=
  if b =? 0 then ret tt else
  let! x := bio_at b in
  if 0 <? references x - 1 then
    store_bio b {| method := method x; next_bio := next_bio x;
                   prev_bio := prev_bio x; references := references x - 1 |}
  else fun w => (Done tt, log_free b (update_bios (delete b) w)).

Fixpoint BIO_free_chain (fuel : nat) (b : Z) : M unit :=
  match fuel with
  | O => undefined
  | S fuel' =>
      if b =? 0 then ret tt else
      let! x := bio_at b in
      do! BIO_free b in
      if 1 <? references x then ret tt
      else BIO_free_chain fuel' (next_bio x)
  end.

Definition BIO_free_all (b : Z) : M unit :=
  let! n := (fun w => (Done (S (size (bios w))), w)) in
  BIO_free_chain n b.

Definition SSL_free (s : Z) : M unit :=
  if s =? 0 then ret tt else
  let! x := ssl_at s in
  do! (if rbio x =? 0 then ret tt else BIO_free_all (rbio x)) in
  do! (if negb (wbio x =? 0) && negb (wbio x =? rbio x)
       then BIO_free_all (wbio x) else ret tt) in
  fun w => (Done tt, log_free s (update_ssls (delete s) w)).

(** *** ssl.c *)

(** [sslBlockSigPipe] and [sslUnblockSigPipe], lines 585-605; the calls
    that change and read the signal mask succeed.  With SIGPIPE among the
    pending signals, [sigwait] is called on the whole pending set and
    takes one signal of it, [sigwait_signal e], which need not be
    SIGPIPE.  A SIGPIPE that is still pending when the mask is lifted is
    delivered there: with its default action the process ends, otherwise
    the signal is gone. *)
Definition SIGPIPE : Z := 13.

Definition sslBlockSigPipe (e : Env) : M unit :=
  do! (fun w => (Done tt, set_sigpipe true (sigpipe_pending w) w)) in
  dcheck e true.

Definition sslUnblockSigPipe (e : Env) : M Z :=
  do! check true in
  let! signum :=
    (fun w => if sigpipe_pending w
              then (Done (sigwait_signal e),
                    if sigwait_signal e =? SIGPIPE
                    then set_sigpipe (sigpipe_blocked w) false w
                    else w)
              else (Done 0, w)) in
  do! (fun w => if sigpipe_pending w && sigpipe_fatal e
                then (Aborted, set_sigpipe false false w)
                else (Done tt, set_sigpipe false false w)) in
  do! check true in
  ret signum.

(** [sslPromoteToSSL], lines 607-638, with OpenSSL present.  [sslContext]
    is [ssl->sslContext], [sslHndl] the value of [*sslHndl] on entry; the
    result is the return code and the value of [*sslHndl] on return. *)
Definition sslPromoteToSSL (e : Env) (sslContext : Z) (sslHndl : Z) (fd : Z)
  (buf : list Z) (len : Z) : M (Z * Z) :=
  do! sslBlockSigPipe e in
  let rc := 0 in
  do! check (sslHndl =? 0) in
  let! err := ERR_peek_error in
  do! dcheck e (negb err) in
  let! sslHndl := SSL_new e sslContext in
  do! dcheck e (negb (sslHndl =? 0)) in
  let! rc :=
    (if sslHndl =? 0 then
       do! ERR_clear_error in
       ret (-1)
     else
       do! SSL_set_mode sslHndl SSL_MODE_ENABLE_PARTIAL_WRITE in
       let! writeBIO := BIO_new_socket e fd 0 in
       let readBIO := writeBIO in
       let! readBIO :=
         (if 0 <? len then
            let! readBIO := BIO_new_buffer e in
            let! _ := BIO_push readBIO writeBIO in
            let! ok := BIO_set_buffer_read_data e readBIO buf len in
            do! check ok in
            ret readBIO
          else ret readBIO) in
       do! SSL_set_bio sslHndl readBIO writeBIO in
       do! SSL_set_accept_state sslHndl in
       let! err := ERR_peek_error in
       do! dcheck e (negb err) in
       ret rc) in
  let! _ := sslUnblockSigPipe e in
  ret (rc, sslHndl).

(** Lines 655-662, the first shape: the read BIO sits on the write BIO. *)
Definition unstack_read_on_write (readBIO writeBIO : Z) : M unit :=
  let! popped := BIO_pop readBIO in
  do! check (popped =? writeBIO) in
  let! r := bio_at readBIO in
  do! check (references r =? 1) in
  let! w := bio_at writeBIO in
  do! check (references w =? 1) in
  do! check (next_bio r =? 0) in
  do! check (prev_bio w =? 0) in
  ret tt.

(** Lines 673-682, the second shape: both sit on the socket BIO. *)
Definition unstack_shared_socket (readBIO writeBIO : Z) : M unit :=
  let! sockBIO := BIO_pop readBIO in
  do! check (negb (sockBIO =? 0)) in
  let! popped := BIO_pop writeBIO in
  do! check (sockBIO =? popped) in
  let! r := bio_at readBIO in
  do! check (references r =? 1) in
  let! w := bio_at writeBIO in
  do! check (references w =? 1) in
  let! s := bio_at sockBIO in
  do! check (references s =? 1) in
  do! check (next_bio r =? 0) in
  do! check (next_bio w =? 0) in
  do! check (prev_bio s =? 0) in
  BIO_free_all sockBIO.

(** [sslFreeHndl], lines 640-695, with OpenSSL present.  [sslHndl] is the
    value of [*sslHndl] on entry, the result its value on return. *)
Definition sslFreeHndl (e : Env) (sslHndl : Z) : M Z :=
  do! (if negb (sslHndl =? 0) then
         do! ERR_clear_error in
         let! writeBIO := SSL_get_wbio sslHndl in
         do! check (negb (writeBIO =? 0)) in
         let! readBIO := SSL_get_rbio sslHndl in
         do! check (negb (readBIO =? 0)) in
         do! (if negb (writeBIO =? readBIO) then
                let! r := bio_at readBIO in
                if next_bio r =? writeBIO then
                  unstack_read_on_write readBIO writeBIO
                else
                  let! w := bio_at writeBIO in
                  if next_bio r =? next_bio w then
                    let! n := bio_at (next_bio w) in
                    if prev_bio n =? writeBIO then
                      unstack_shared_socket readBIO writeBIO
                    else fatal
                  else fatal
              else ret tt) in
         do! SSL_free sslHndl in
         let! err := ERR_peek_error in
         dcheck e (negb err)
       else ret tt) in
  ret 0.

(** The two shapes of the chain that [sslFreeHndl] repairs. *)
Definition pattern_A (w : World) (readBIO writeBIO : Z) : Prop :=
  exists r, bios w !! readBIO = Some r /\ next_bio r = writeBIO.

Definition pattern_B (w : World) (readBIO writeBIO : Z) : Prop :=
  exists r x n,
    bios w !! readBIO = Some r /\ bios w !! writeBIO = Some x /\
    next_bio r = next_bio x /\
    bios w !! next_bio x = Some n /\ prev_bio n = writeBIO.

Definition empty_world : World :=
  {| bios := ∅; ssls := ∅; err_queue := false; sigpipe_blocked := false;
     sigpipe_pending := false; allocs := []; frees := [] |}.

(** A session whose two endpoints are different BIOs, neither with a
    next link. *)
Definition unlinked_world : World :=
  {| bios := {[ 20 := {| method := BIO_f_buffer []; next_bio := 0;
                         prev_bio := 0; references := 1 |};
                30 := {| method := BIO_s_socket 9; next_bio := 0;
                         prev_bio := 0; references := 1 |} ]};
     ssls := {[ 10 := {| ctx := 1; mode := 1; rbio := 20; wbio := 30;
                         accept_state := true |} ]};
     err_queue := false; sigpipe_blocked := false; sigpipe_pending := false;
     allocs := [10; 30; 20]; frees := [] |}.

(** A session whose read endpoint sits on a third BIO that the write
    endpoint is not linked to. *)
Definition stray_world : World :=
  {| bios := {[ 20 := {| method := BIO_f_buffer []; next_bio := 40;
                         prev_bio := 0; references := 1 |};
                30 := {| method := BIO_s_socket 9; next_bio := 0;
                         prev_bio := 0; references := 1 |};
                40 := {| method := BIO_s_socket 9; next_bio := 0;
                         prev_bio := 20; references := 1 |} ]};
     ssls := {[ 10 := {| ctx := 1; mode := 1; rbio := 20; wbio := 30;
                         accept_state := true |} ]};
     err_queue := true; sigpipe_blocked := false; sigpipe_pending := false;
     allocs := [10; 30; 20; 40]; frees := [] |}.

Definition plain_env : Env :=
  {| debug := false; ssl_new_ok := true; bio_socket_ok := true;
     bio_buffer_ok := true; buffer_ok := true;
     sigwait_signal := SIGPIPE; sigpipe_fatal := true |}.

(** The same, but [BIO_new_socket] cannot allocate its BIO. *)
Definition no_socket_env : Env :=
  {| debug := false; ssl_new_ok := true; bio_socket_ok := false;
     bio_buffer_ok := true; buffer_ok := true;
     sigwait_signal := SIGPIPE; sigpipe_fatal := true |}.

(** A session as a promotion without buffered bytes leaves it. *)
Definition promoted_world : World :=
  {| bios := {[ 2 := {| method := BIO_s_socket 9; next_bio := 0;
                        prev_bio := 0; references := 1 |} ]};
     ssls := {[ 1 := {| ctx := 5; mode := 1; rbio := 2; wbio := 2;
                        accept_state := true |} ]};
     err_queue := false; sigpipe_blocked := false; sigpipe_pending := false;
     allocs := [1; 2]; frees := [] |}.

End Session.

(** ** Loading the OpenSSL library *)

Module Loader.

(** The table of [loadSSL], lines 190-230, in its order, with the TLS
    extensions compiled in.  Two names stand in it twice. *)
Definition symbols : list (list Z) :=
  map str
    [ "BIO_ctrl"; "BIO_f_buffer"; "BIO_free_all"; "BIO_new";
      "BIO_new_socket"; "BIO_pop"; "BIO_push"; "ERR_clear_error";
      "ERR_clear_error"; "ERR_peek_error"; "ERR_peek_error";
      "SSL_CTX_callback_ctrl"; "SSL_CTX_check_private_key"; "SSL_CTX_ctrl";
      "SSL_CTX_free"; "SSL_CTX_new"; "SSL_CTX_use_PrivateKey_file";
      "SSL_CTX_use_PrivateKey_ASN1"; "SSL_CTX_use_certificate_file";
      "SSL_CTX_use_certificate_ASN1"; "SSL_ctrl"; "SSL_free";
      "SSL_get_error"; "SSL_get_ex_data"; "SSL_get_rbio";
      "SSL_get_servername"; "SSL_get_wbio"; "SSL_library_init"; "SSL_new";
      "SSL_read"; "SSL_set_SSL_CTX"; "SSL_set_accept_state"; "SSL_set_bio";
      "SSL_set_ex_data"; "SSL_shutdown"; "SSL_write";
      "SSLv23_server_method" ]%string.

(** The dynamic linker as the [i]-th turn of the loop of [loadSSL] finds
    it: what [dlsym] gives among the objects already loaded, the handle
    of [libssl.so] when it is already loaded and when it is loaded now
    (NULL: it cannot be), and what [dlsym] gives in the object of a
    handle. *)
Record Linker := mkLinker {
  dlsym_default : nat -> list Z -> Z;
  dlopen_noload : nat -> Z;
  dlopen_load   : nat -> Z;
  dlsym         : nat -> Z -> list Z -> Z
}.

(** [loadSymbol], lines 166-179. *)
Definition loadSymbol (ld : Linker) (i : nat) (fn : list Z) : Z :=
  let rc := dlsym_default ld i fn in
  if rc =? 0 then
    let dl := dlopen_noload ld i in
    let dl := if dl =? 0 then dlopen_load ld i else dl in
    if negb (dl =? 0) then dlsym ld i dl fn else rc
  else rc.

(** The function pointers of lines 80-114 by name, the run-once flag of
    [serverSupportsSSL], and the number of calls of [SSL_library_init]. *)
Record Lib := mkLib {
  vars        : list Z -> Z;
  initialized : bool;
  inits       : nat
}.

Definition var (st : Lib) (fn : list Z) : Z := vars st fn.

(** [*var = p] for the pointer named [fn]. *)
Definition assign (v : list Z -> Z) (fn : list Z) (p : Z) : list Z -> Z :=
  fun g => if bool_decide (g = fn) then p else v g.

(** The outer loop of lines 232-241, from turn [i] on: the pointers, and
    whether every symbol was found. *)
Fixpoint load_symbols (ld : Linker) (i : nat) (todo : list (list Z))
         (v : list Z -> Z) : (list Z -> Z) * bool :=
  match todo with
  | [] => (v, true)
  | fn :: rest =>
      let p := loadSymbol ld i fn in
      let v := assign v fn p in
      if p =? 0 then (v, false) else load_symbols ld (S i) rest v
  end.

(** The inner loop of lines 236-238. *)
Definition clear_symbols (v : list Z -> Z) : list Z -> Z :=
  foldl (fun v fn => assign v fn 0) v symbols.

(** [loadSSL], lines 181-245.  [err] is what [ERR_peek_error] gives after
    [SSL_library_init], [dbg] whether debug logging is on. *)
Definition loadSSL (ld : Linker) (err dbg : bool) (st : Lib) : outcome Lib :=
  if negb (var st (str "SSL_library_init") =? 0) then Aborted else
  match load_symbols ld 0 symbols (vars st) with
  | (v, false) =>
      Done {| vars := clear_symbols v; initialized := initialized st;
              inits := inits st |}
  | (v, true) =>
      if err && dbg then Aborted
      else Done {| vars := v; initialized := initialized st;
                   inits := S (inits st) |}
  end.

(** [serverSupportsSSL], lines 248-271: [pthread_once] and the flag
    [initialized] both run [loadSSL] on the first call only. *)
Definition serverSupportsSSL (ld : Linker) (err dbg : bool) (st : Lib)
  : outcome (bool * Lib) :=
  if initialized st then
    Done (negb (var st (str "SSL_library_init") =? 0), st)
  else
    match loadSSL ld err dbg
            {| vars := vars st; initialized := true; inits := inits st |} with
    | Done st' => Done (negb (var st' (str "SSL_library_init") =? 0), st')
    | Aborted => Aborted
    | Undefined => Undefined
    end.

(** The process before the first call. *)
Definition unloaded : Lib :=
  {| vars := fun _ => 0; initialized := false; inits := O |}.

(** A linker that finds every symbol among the loaded objects, and one
    that finds none and cannot load the library. *)
Definition linked : Linker :=
  {| dlsym_default := fun _ _ => 4096; dlopen_noload := fun _ => 0;
     dlopen_load := fun _ => 0; dlsym := fun _ _ _ => 0 |}.

Definition unlinked : Linker :=
  {| dlsym_default := fun _ _ => 0; dlopen_noload := fun _ => 0;
     dlopen_load := fun _ => 0; dlsym := fun _ _ _ => 0 |}.

(** A library that lacks the symbols from the thirtieth turn on. *)
Definition half_linked : Linker :=
  {| dlsym_default := fun _ _ => 0; dlopen_noload := fun _ => 0;
     dlopen_load := fun _ => 8192;
     dlsym := fun i _ _ => if (i <? 30)%nat then 4096 else 0 |}.

End Loader.

(** ** Installing a certificate *)

Module Certificate.

Import SNI.

(** [strchr] for a byte other than NUL: the offset of its first
    occurrence in the string. *)
Fixpoint strchr (s : list Z) (c : Z) : option nat :=
  match s with
  | [] => None
  | x :: r =>
      if x =? c then Some O
      else if x =? 0 then None
      else match strchr r c with Some n => Some (S n) | None => None end
  end.

(** [memmove(buf + dst, buf + src, n)]. *)
Definition memmove (buf : list Z) (dst src n : nat) : list Z :=
  take dst buf ++ take n (drop src buf) ++ drop (dst + n) buf.

(** Lines 373-380 of [sslSetCertificate]: the name of the default
    certificate, and whether the file name is a pattern. *)
Definition default_certificate (filename : list Z)
  : outcome (list Z * bool) :=
  let defaultCertificate := c_str filename ++ [0] in
  match strchr defaultCertificate 37 with
  | None => Done (c_str defaultCertificate, false)
  | Some ptr =>
      if bool_decide (is_Some (strchr (drop (S ptr) defaultCertificate) 37))
      then Aborted
      else if negb (char_at defaultCertificate (S ptr) =? 115) then Aborted
      else
        Done (c_str (memmove defaultCertificate ptr (ptr + 2)
                       (strlen (drop ptr defaultCertificate) - 1)),
              true)
  end.

(** What [gethostbyname_r] gives: an error, success without an entry
    ([he] is NULL), or an entry with its [h_name]. *)
Inductive lookup :=
| LookupFailed
| LookupNull
| LookupEntry (h_name : list Z).

(** What [sslSetCertificate] cannot decide: whether OpenSSL is there, the
    pointer [SSL_CTX_new] returns, whether the three calls that load and
    check the certificate file all succeed at the first and at the second
    attempt made, the host name ([None]: [gethostname] fails) and its
    lookup, whether the callback and its argument can be registered, and
    the error queue and debug logging at the [dcheck]. *)
Record SetupEnv := mkSetupEnv {
  supports    : bool;
  new_ctx     : Z;
  load_ok     : nat -> bool;
  host        : option (list Z);
  canonical   : lookup;
  callback_ok : bool;
  pending_err : bool;
  verbose     : bool
}.

(** [sslSetCertificate], lines 368-427, with the TLS extensions compiled
    in: the support object, whether the callback was registered, and what
    was done.  Generating a certificate shows in the second attempt to
    load it. *)
Definition sslSetCertificate (e : SetupEnv) (ssl : SSLSupport)
           (filename : list Z) (autoGenerateMissing : Z)
  : outcome (SSLSupport * bool * list event) :=
  if negb (supports e) then Aborted else
  match default_certificate filename with
  | Done (defaultCertificate, is_pattern) =>
      let context := new_ctx e in
      if context =? 0 then Aborted else
      let first := [EvCtxNew context; EvLoad context defaultCertificate] in
      let loaded : outcome (list event) :=
        if negb (autoGenerateMissing =? 0) then
          if load_ok e 0 then Done first
          else
            match host e with
            | None => Aborted
            | Some hostname =>
                match
                  match canonical e with
                  | LookupFailed => Some (c_str hostname)
                  | LookupNull => None
                  | LookupEntry h_name => Some (c_str h_name)
                  end
                with
                | None => Undefined
                | Some cn =>
                    if load_ok e 1 then
                      Done (first ++ [EvGenerate defaultCertificate cn;
                                      EvLoad context defaultCertificate])
                    else Aborted
                end
            end
        else if load_ok e 0 then Done first else Aborted in
      match loaded with
      | Done tr =>
          if is_pattern && negb (callback_ok e) then Aborted
          else if pending_err e && verbose e then Aborted
          else
            Done ({| enabled := enabled ssl; sslContext := context;
                     sniCertificatePattern :=
                       if is_pattern then Some (c_str filename)
                       else sniCertificatePattern ssl;
                     generateMissing := negb (autoGenerateMissing =? 0);
                     sniContexts := sniContexts ssl |},
                  is_pattern, tr)
      | Aborted => Aborted
      | Undefined => Undefined
      end
  | Aborted => Aborted
  | Undefined => Undefined
  end.

(** OpenSSL is there, every call succeeds. *)
Definition example_setup : SetupEnv :=
  {| supports := true; new_ctx := 1; load_ok := fun _ => true;
     host := Some (str "localhost"); canonical := LookupFailed;
     callback_ok := true; pending_err := false; verbose := false |}.

(** *** Reading the certificate from a file descriptor *)

Definition inc : Z := 16384.

(** [size_t] has 64 bits. *)
Definition size_modulus : Z := 2 ^ 64.

(** A file descriptor: the bytes not yet read, the most bytes the [k]-th
    [read] delivers (a regular file delivers all that is asked for), and
    whether the [k]-th [read] fails. *)
Record Fd := mkFd {
  pending : list Z;
  burst   : nat -> Z;
  fails   : nat -> bool
}.

(** [read(fd, buf + len, readLen)]: the return value, the bytes stored,
    and the descriptor afterwards. *)
Definition read (fd : Fd) (k : nat) (readLen : Z) : Z * list Z * Fd :=
  if fails fd k then (-1, [], fd)
  else
    let d := take (Z.to_nat (Z.min readLen (burst fd k))) (pending fd) in
    (Z.of_nat (length d), d,
     {| pending := drop (length d) (pending fd); burst := burst fd;
        fails := fails fd |}).

(** Bytes [d] written at [buf + off]. *)
Definition store (buf : list Z) (off : nat) (d : list Z) : list Z :=
  take off buf ++ d ++ drop (off + length d) buf.

(** The loop of lines 436-457, at its [k]-th turn.  [garbage k] is what
    the block of the [k]-th [malloc] holds, [freed] the blocks handed to
    [free], as they are then.  [None]: more than [fuel] turns. *)
Fixpoint read_loop (fuel : nat) (fd : Fd) (garbage : nat -> nat -> Z)
         (k : nat) (buf : list Z) (bufSize len : Z)
         (freed : list (list Z))
  : option (outcome (list Z * list (list Z))) :=
  match fuel with
  | O => None
  | S fuel' =>
      if negb (len <? (bufSize - 1) mod size_modulus) then Some Aborted else
      let readLen := (bufSize - len - 1) mod size_modulus in
      let '(bytesRead, d, fd) := read fd k readLen in
      let buf := store buf (Z.to_nat len) d in
      let len := if 0 <? bytesRead then (len + bytesRead) mod size_modulus
                 else len in
      if negb (bytesRead mod size_modulus =? readLen) then
        if negb (len <? bufSize) then Some Aborted
        else Some (Done (<[Z.to_nat len := 0]> buf, freed))
      else
        let newSize := (bufSize + inc) mod size_modulus in
        let newBuf := malloc (Z.to_nat newSize) (garbage (S k)) in
        if negb (len <=? newSize) then Some Undefined else
        let newBuf := store newBuf O (take (Z.to_nat len) buf) in
        let buf := store buf O (repeat 0 (Z.to_nat bufSize)) in
        read_loop fuel' fd garbage (S k) newBuf newSize len (freed ++ [buf])
  end.

(** [sslSecureReadASCIIFileToMem], lines 430-461: the block returned and
    the blocks freed on the way. *)
Definition sslSecureReadASCIIFileToMem (fuel : nat) (fd : Fd)
           (garbage : nat -> nat -> Z)
  : option (outcome (list Z * list (list Z))) :=
  read_loop fuel fd garbage O (malloc (Z.to_nat inc) (garbage O)) inc 0 [].

Inductive key_type := EVP_PKEY_RSA | EVP_PKEY_DSA | EVP_PKEY_EC.

(** What [sslSetCertificateFd] cannot decide: as for [sslSetCertificate],
    and whether [close] succeeds and OpenSSL takes the certificate and a
    key of each type (given the block, NULL when [None], and its size). *)
Record FdEnv := mkFdEnv {
  fd_supports     : bool;
  fd_new_ctx      : Z;
  close_ok        : bool;
  use_certificate : Z -> option (list Z) -> bool;
  use_PrivateKey  : key_type -> option (list Z) -> Z -> bool;
  key_matches     : bool;
  fd_pending_err  : bool;
  fd_verbose      : bool
}.

(** [memset(p, 0, size)] is defined when [p] is a block of at least
    [size] bytes.  The size of a block that is NULL is -1. *)
Definition memset_defined (block : option (list Z)) (size : Z) : bool :=
  match block with
  | None => false
  | Some b => (0 <=? size) && (size <=? Z.of_nat (length b))
  end.

(** Lines 563-574: a key is cleared and freed when its size is positive. *)
Definition wipe_key_defined (r : PEM.result) : bool :=
  if 0 <? PEM.size_of r then memset_defined (PEM.ret_of r) (PEM.size_of r)
  else true.

(** The rest of [sslSetCertificateFd], lines 536-575, once the file is
    in [data]: the support object it leaves. *)
Definition install_certificate (e : FdEnv) (ssl : SSLSupport)
           (data : list Z) : outcome SSLSupport :=
  if negb (close_ok e) then Aborted else
  let dataSize := Z.of_nat (strlen data) in
  let cert := PEM.sslPEMtoASN1 data (str "CERTIFICATE") in
  let rsa := PEM.sslPEMtoASN1 data (str "RSA PRIVATE KEY") in
  let dsa := PEM.sslPEMtoASN1 data (str "DSA PRIVATE KEY") in
  let ec := PEM.sslPEMtoASN1 data (str "EC PRIVATE KEY") in
  match cert, rsa, dsa, ec with
  | PEM.CheckFailed, _, _, _ | _, PEM.CheckFailed, _, _
  | _, _, PEM.CheckFailed, _ | _, _, _, PEM.CheckFailed => Aborted
  | _, _, _, _ =>
      let certSize := PEM.size_of cert in
      let rsaSize := PEM.size_of rsa in
      let dsaSize := PEM.size_of dsa in
      let ecSize := PEM.size_of ec in
      if (certSize =? 0)
         || negb ((0 <? rsaSize) || (0 <? dsaSize) || (0 <? ecSize))
         || negb (use_certificate e certSize (PEM.ret_of cert))
         || ((0 <? rsaSize)
             && negb (use_PrivateKey e EVP_PKEY_RSA (PEM.ret_of rsa) rsaSize))
         || ((0 <? dsaSize)
             && negb (use_PrivateKey e EVP_PKEY_DSA (PEM.ret_of dsa) dsaSize))
         || ((0 <? ecSize)
             && negb (use_PrivateKey e EVP_PKEY_EC (PEM.ret_of ec) ecSize))
         || negb (key_matches e)
      then Aborted
      else if fd_pending_err e && fd_verbose e then Aborted
      else if memset_defined (Some data) dataSize
              && memset_defined (PEM.ret_of cert) certSize
              && wipe_key_defined rsa && wipe_key_defined dsa && wipe_key_defined ec
      then Done {| enabled := enabled ssl; sslContext := fd_new_ctx e;
                   sniCertificatePattern := sniCertificatePattern ssl;
                   generateMissing := false;
                   sniContexts := sniContexts ssl |}
      else Undefined
  end.

(** [sslSetCertificateFd], lines 530-577: the support object it leaves. *)
Definition sslSetCertificateFd (e : FdEnv) (ssl : SSLSupport) (fdnum : Z)
           (fuel : nat) (fd : Fd) (garbage : nat -> nat -> Z)
  : option (outcome SSLSupport) :=
  if negb (fd_supports e) then Some Aborted else
  if negb (0 <=? fdnum) then Some Aborted else
  if fd_new_ctx e =? 0 then Some Aborted else
  match sslSecureReadASCIIFileToMem fuel fd garbage with
  | None => None
  | Some (Done (data, _)) =>
      match install_certificate e ssl data with
      | Done ssl' => Some (Done ssl')
      | Aborted => Some Aborted
      | Undefined => Some Undefined
      end
  | Some Aborted => Some Aborted
  | Some Undefined => Some Undefined
  end.

(** A byte no call has written: one of those a block held when [malloc]
    handed it out. *)
Definition unwritten (garbage : nat -> nat -> Z) (c : Z) : Prop :=
  exists k j, c = garbage k j.

(** OpenSSL is there and takes what it is given. *)
Definition example_fd_env : FdEnv :=
  {| fd_supports := true; fd_new_ctx := 1; close_ok := true;
     use_certificate := fun _ _ => true;
     use_PrivateKey := fun _ _ _ => true; key_matches := true;
     fd_pending_err := false; fd_verbose := false |}.

(** A file with a certificate and a key. *)
Definition example_pem : list Z :=
  PEM.armor (str "CERTIFICATE") (str "TQ==") ++ [10]
  ++ PEM.armor (str "EC PRIVATE KEY") (str "AAH+/w==") ++ [10].

(** A regular file with the given content. *)
Definition regular_file (content : list Z) : Fd :=
  {| pending := content; burst := fun _ => size_modulus;
     fails := fun _ => false |}.

End Certificate.

(** * Properties *)

(** ** C strings *)

Section CStrings.

Lemma c_str_nonzero (s : list Z) : Forall (fun c => c <> 0) (c_str s).
Proof.
  induction s as [|c r IH]; simpl; [constructor|].
  destruct (Z.eqb_spec c 0); [constructor|].
  constructor; assumption.
Qed.

Lemma c_str_fixed (s : list Z) : Forall (fun c => c <> 0) s -> c_str s = s.
Proof.
  induction 1 as [|c r Hc _ IH]; simpl; [reflexivity|].
  destruct (Z.eqb_spec c 0); [contradiction|]. now rewrite IH.
Qed.

Lemma c_str_idem (s : list Z) : c_str (c_str s) = c_str s.
Proof. apply c_str_fixed, c_str_nonzero. Qed.

Lemma c_str_app (a b : list Z) :
  Forall (fun c => c <> 0) a -> c_str (a ++ b) = a ++ c_str b.
Proof.
  induction 1 as [|c r Hc _ IH]; simpl; [reflexivity|].
  destruct (Z.eqb_spec c 0); [contradiction|]. now rewrite IH.
Qed.

Lemma c_str_app_nul (a b : list Z) :
  Forall (fun c => c <> 0) a -> c_str (a ++ 0 :: b) = a.
Proof.
  intros H. rewrite c_str_app by assumption. simpl. apply app_nil_r.
Qed.

Lemma char_at_mid (name pre post : list Z) (ch : Z) :
  c_str name = pre ++ ch :: post ->
  char_at name (length pre) = ch /\ ch <> 0.
Proof.
  revert name. induction pre as [|p pre IH]; intros name H.
  - destruct name as [|c r]; simpl in H; [discriminate|].
    destruct (Z.eqb_spec c 0); [discriminate|].
    injection H as -> _. split; [reflexivity | assumption].
  - destruct name as [|c r]; simpl in H; [discriminate|].
    destruct (Z.eqb_spec c 0); [discriminate|].
    injection H as -> H. apply (IH r H).
Qed.

Lemma char_at_end (name : list Z) :
  char_at name (length (c_str name)) = 0.
Proof.
  induction name as [|c r IH]; simpl; [reflexivity|].
  destruct (Z.eqb_spec c 0) as [->|]; [reflexivity|]. exact IH.
Qed.

End CStrings.

(** ** The hostname loop *)

Section Hostname.

Lemma lor_32_nonzero (ch : Z) : 65 <= ch <= 90 -> Z.lor ch 32 <> 0.
Proof.
  intros H E. apply Z.lor_eq_0_iff in E. lia.
Qed.

(** The loop from index [length pre] on, with the block split at the next
    byte to write. *)
Lemma sni_loop_spec (name : list Z) (junk : nat -> Z) :
  forall (post pre done_ : list Z) (fuel : nat),
    c_str name = pre ++ post ->
    length done_ = S (length pre) ->
    (length post < fuel)%nat ->
    SNI.sni_loop fuel name (length pre)
      (done_ ++ junk (S (length pre))
             :: map junk (seq (S (S (length pre))) (length post)))
    = Some (done_ ++ SNI.sni_image (S (length pre)) post junk ++ [0]).
Proof.
  assert (Hins : forall (d t : list Z) (n : nat) (x y : Z),
             length d = n ->
             SNI.poke (d ++ y :: t) n x = Some (d ++ x :: t)).
  { intros d t n x y <-. unfold SNI.poke.
    replace (length d <? length (d ++ y :: t))%nat with true
      by (rewrite length_app; cbn [length]; symmetry; apply Nat.ltb_lt; lia).
    rewrite insert_app_r_alt by lia. now rewrite Nat.sub_diag. }
  induction post as [|ch post IH]; intros pre done_ fuel Hn Hd Hf.
  - destruct fuel as [|fuel]; [simpl in Hf; lia|].
    rewrite app_nil_r in Hn. cbn [SNI.sni_loop].
    rewrite <- Hn, char_at_end. rewrite Hn. simpl.
    now rewrite (Hins _ _ _ _ _ Hd).
  - destruct fuel as [|fuel]; [simpl in Hf; lia|].
    destruct (char_at_mid _ _ _ _ Hn) as [Hch Hnz].
    assert (Hn' : c_str name = (pre ++ [ch]) ++ post)
      by now rewrite <- app_assoc.
    assert (Hl : length (pre ++ [ch]) = S (length pre))
      by (rewrite length_app; simpl; lia).
    assert (Hf' : (length post < fuel)%nat) by (simpl in Hf; lia).
    assert (Hstep : forall x,
      SNI.sni_loop fuel name (S (length pre))
        ((done_ ++ [x]) ++ junk (S (S (length pre)))
                 :: map junk (seq (S (S (S (length pre)))) (length post)))
      = Some ((done_ ++ [x]) ++ SNI.sni_image (S (S (length pre))) post junk
                ++ [0])).
    { intros x. specialize (IH (pre ++ [ch]) (done_ ++ [x]) fuel Hn').
      rewrite Hl in IH. apply IH; [rewrite length_app; simpl; lia | exact Hf']. }
    cbn [SNI.sni_loop]. rewrite Hch.
    cbn [length seq map SNI.sni_image].
    destruct ((65 <=? ch) && (ch <=? 90)) eqn:Hup.
    + assert (Z.lor ch 32 <> 0) by (apply lor_32_nonzero; lia).
      destruct (Z.eqb_spec (Z.lor ch 32) 0); [contradiction|].
      rewrite (Hins _ _ _ _ _ Hd).
      specialize (Hstep (Z.lor ch 32)).
      rewrite <- !app_assoc in Hstep. exact Hstep.
    + destruct (SNI.sni_discard ch) eqn:Hdis.
      * specialize (Hstep (junk (S (length pre)))).
        rewrite <- !app_assoc in Hstep. exact Hstep.
      * destruct (Z.eqb_spec ch 0); [contradiction|].
        rewrite (Hins _ _ _ _ _ Hd).
        specialize (Hstep ch).
        rewrite <- !app_assoc in Hstep. exact Hstep.
Qed.

(** The loop ends, and this is the block it leaves. *)
Lemma sni_serverName_spec (name : list Z) (junk : nat -> Z) :
  SNI.sni_serverName name junk
  = Some (45 :: SNI.sni_image 1 (c_str name) junk ++ [0]).
Proof.
  unfold SNI.sni_serverName, malloc, strlen.
  replace (length (c_str name) + 2)%nat with (S (S (length (c_str name))))
    by lia.
  cbn [seq map]. unfold SNI.poke at 1. cbn [length Nat.ltb Nat.leb].
  cbn [insert list_insert].
  apply (sni_loop_spec name junk (c_str name) [] [45]); simpl; auto.
Qed.

Lemma sni_key_spec (name : list Z) (junk : nat -> Z) :
  SNI.sni_key name junk
  = Some (c_str (SNI.sni_image 1 (c_str name) junk ++ [0])).
Proof. unfold SNI.sni_key. now rewrite sni_serverName_spec. Qed.

Lemma sni_template_arg_spec (name : list Z) (junk : nat -> Z) :
  SNI.sni_template_arg name junk
  = Some (45 :: c_str (SNI.sni_image 1 (c_str name) junk ++ [0])).
Proof. unfold SNI.sni_template_arg. now rewrite sni_serverName_spec. Qed.

(** The test [!*serverName] of line 323 reads the dash. *)
Lemma sni_serverName_head (name : list Z) (junk : nat -> Z) (sn : list Z) :
  SNI.sni_serverName name junk = Some sn -> char_at sn 0 = 45.
Proof. rewrite sni_serverName_spec. now intros [= <-]. Qed.

End Hostname.

(** ** The callback *)

Section Callback.

Import SNI.

(** The miss, when [SSL_CTX_new] and the pattern are there. *)
Lemma sni_miss_spec (ssl : SSLSupport) (e : Env) (raw pattern : list Z) :
  fresh_ctx e <> 0 ->
  sniCertificatePattern ssl = Some pattern ->
  let key := c_str raw in
  let c := if load_failed ssl e then sslContext ssl else fresh_ctx e in
  exists tr',
    sni_miss ssl e (45 :: raw)
    = Done (with_sniContexts ssl (<[key := c]> (sniContexts ssl)), c,
            EvCtxNew (fresh_ctx e) :: EvPrintf pattern (45 :: key) ::
            EvLoad (fresh_ctx e) (format_s (c_str pattern) (45 :: key)) ::
            tr') /\
    (load_failed ssl e = true -> In (EvCtxFree (fresh_ctx e)) tr') /\
    (load_failed ssl e = false -> ~ In (EvCtxFree (fresh_ctx e)) tr') /\
    In (EvTrieAdd key c) tr'.
Proof.
  intros Hc Hp key c. unfold sni_miss, load_failed in *.
  destruct (Z.eqb_spec (fresh_ctx e) 0); [contradiction|].
  rewrite Hp. unfold stringPrintf, addToTrie.
  cbn [c_str drop]. change (45 =? 0) with false. cbv iota.
  rewrite drop_0. fold key. subst c.
  destruct (load_first e), (generateMissing ssl), (load_retry e);
    cbn [negb andb orb app]; eexists; (split; [reflexivity|]);
    (split; [intros Hl; try discriminate Hl; simpl; tauto|]);
    (split; [intros Hl Hin; try discriminate Hl; simpl in Hin;
             intuition discriminate
            | simpl; tauto]).
Qed.

(** Every way the callback returns. *)
Lemma sslSNICallback_done (ssl ssl' : SSLSupport) (bound bound' : Z)
      (e : Env) (tr : list event) :
  sslSNICallback ssl bound e = Done (ssl', bound', tr) ->
  (ssl' = ssl /\ bound' = bound /\ tr = [] /\
   (servername e = None \/
    exists name, servername e = Some name /\ char_at name 0 = 0))
  \/
  exists name key,
    servername e = Some name /\ char_at name 0 <> 0 /\
    sni_key name (junk e) = Some key /\
    ((exists c,
        sniContexts ssl !! key = Some c /\ c <> 0 /\ ssl' = ssl /\
        bound' = (if c =? sslContext ssl then bound else c) /\
        tr = EvTrieGet key ::
             (if c =? sslContext ssl then [] else [EvSetCtx c]))
     \/
     (getFromTrie (sniContexts ssl) key = 0 /\ fresh_ctx e <> 0 /\
      exists pattern c tr',
        sniCertificatePattern ssl = Some pattern /\
        c = (if load_failed ssl e then sslContext ssl else fresh_ctx e) /\
        ssl' = with_sniContexts ssl (<[key := c]> (sniContexts ssl)) /\
        bound' = (if c =? sslContext ssl then bound else c) /\
        tr = EvTrieGet key :: EvCtxNew (fresh_ctx e) ::
             EvPrintf pattern (45 :: key) ::
             EvLoad (fresh_ctx e) (format_s (c_str pattern) (45 :: key)) ::
             tr' /\
        (load_failed ssl e = true -> In (EvCtxFree (fresh_ctx e)) tr') /\
        (load_failed ssl e = false -> ~ In (EvCtxFree (fresh_ctx e)) tr') /\
        In (EvTrieAdd key c) tr')).
Proof.
  unfold sslSNICallback.
  destruct (err_pending e); [discriminate|].
  destruct (servername e) as [name|]; [|intros [= <- <- <-]; left; auto].
  destruct (Z.eqb_spec (char_at name 0) 0) as [Hz|Hnz].
  { intros [= <- <- <-]. left. repeat split; eauto. }
  destruct (block_ok e); [|discriminate]. cbn [negb].
  rewrite sni_serverName_spec. cbn [char_at nth drop].
  change (45 =? 0) with false. cbv iota zeta. rewrite drop_0.
  set (raw := sni_image 1 (c_str name) (junk e) ++ [0]).
  set (key := c_str raw).
  assert (Hget : forall t, getFromTrie t raw = default 0 (t !! key))
    by reflexivity.
  assert (Hget' : forall t, getFromTrie t key = default 0 (t !! key))
    by (intros t; unfold getFromTrie, key; now rewrite c_str_idem).
  rewrite !Hget.
  intros H. right. exists name, key.
  split; [reflexivity|]. split; [assumption|].
  split; [apply sni_key_spec|]. rewrite Hget'.
  assert (Hmiss : default 0 (sniContexts ssl !! key) = 0 ->
    match sni_miss ssl e (45 :: raw) with
    | Done (ssl'0, context, tr0) =>
        if context =? sslContext ssl'0 then Done (ssl'0, bound, EvTrieGet key :: tr0)
        else if negb (switch_ok e) then Aborted
        else if switch_err e then Aborted
        else Done (ssl'0, context, (EvTrieGet key :: tr0) ++ [EvSetCtx context])
    | Aborted => Aborted
    | Undefined => Undefined
    end = Done (ssl', bound', tr) ->
    fresh_ctx e <> 0 /\
    exists pattern c tr',
      sniCertificatePattern ssl = Some pattern /\
      c = (if load_failed ssl e then sslContext ssl else fresh_ctx e) /\
      ssl' = with_sniContexts ssl (<[key := c]> (sniContexts ssl)) /\
      bound' = (if c =? sslContext ssl then bound else c) /\
      tr = EvTrieGet key :: EvCtxNew (fresh_ctx e) ::
           EvPrintf pattern (45 :: key) ::
           EvLoad (fresh_ctx e) (format_s (c_str pattern) (45 :: key)) ::
           tr' /\
      (load_failed ssl e = true -> In (EvCtxFree (fresh_ctx e)) tr') /\
      (load_failed ssl e = false -> ~ In (EvCtxFree (fresh_ctx e)) tr') /\
      In (EvTrieAdd key c) tr').
  { intros _ Hm.
    destruct (Z.eq_dec (fresh_ctx e) 0) as [Hf|Hf].
    { unfold sni_miss in Hm. rewrite Hf in Hm. discriminate. }
    split; [assumption|].
    destruct (sniCertificatePattern ssl) as [pattern|] eqn:Hp.
    2:{ unfold sni_miss in Hm. rewrite Hp in Hm.
        destruct (fresh_ctx e =? 0); discriminate. }
    destruct (sni_miss_spec ssl e raw pattern Hf Hp)
      as (tr' & Heq & Hfree & Hkeep & Hadd).
    fold key in Heq, Hadd. rewrite Heq in Hm.
    cbn [with_sniContexts sslContext] in Hm.
    exists pattern, (if load_failed ssl e then sslContext ssl else fresh_ctx e).
    destruct (_ =? sslContext ssl) eqn:Hd in Hm;
      [|destruct (switch_ok e); cbn [negb] in Hm; [|discriminate];
        destruct (switch_err e); [discriminate|]];
      injection Hm as <- <- <-.
    - exists tr'. rewrite Hd. repeat split; auto.
    - exists (tr' ++ [EvSetCtx
                (if load_failed ssl e then sslContext ssl else fresh_ctx e)]).
      rewrite Hd. repeat split; auto.
      + intros Hl. apply in_or_app. left. auto.
      + intros Hl Hin. apply in_app_or in Hin. destruct Hin as [Hin|Hin].
        * exact (Hkeep Hl Hin).
        * simpl in Hin. intuition discriminate.
      + apply in_or_app. left. assumption. }
  destruct (sniContexts ssl !! key) as [c|] eqn:Hlook;
    unfold default in *; cbn [from_option id] in *.
  - destruct (Z.eqb_spec c 0) as [->|Hc].
    + right. split; [reflexivity|].
      destruct (sni_miss ssl e (45 :: raw)) as [[[s1 c1] t1]| |];
        apply Hmiss; auto.
    + left. exists c. split; [reflexivity|]. split; [assumption|].
      destruct (c =? sslContext ssl);
        [|destruct (switch_ok e); cbn [negb] in H; [|discriminate];
          destruct (switch_err e); [discriminate|]];
        injection H as <- <- <-; auto.
  - right. split; [reflexivity|].
    change (0 =? 0) with true in H. cbv iota in H.
    destruct (sni_miss ssl e (45 :: raw)) as [[[s1 c1] t1]| |];
      apply Hmiss; auto.
Qed.

(** A cached name: the callback allocates and stores nothing. *)
Lemma sslSNICallback_hit (ssl : SSLSupport) (bound : Z) (e : Env)
      (name key : list Z) (c : Z) :
  err_pending e = false ->
  servername e = Some name -> char_at name 0 <> 0 ->
  block_ok e = true ->
  sni_key name (junk e) = Some key ->
  sniContexts ssl !! key = Some c -> c <> 0 ->
  (c <> sslContext ssl -> switch_ok e = true /\ switch_err e = false) ->
  sslSNICallback ssl bound e
  = Done (ssl, (if c =? sslContext ssl then bound else c),
          EvTrieGet key :: (if c =? sslContext ssl then [] else [EvSetCtx c])).
Proof.
  intros He Hs Hn Hb Hk Hl Hc Hsw. unfold sslSNICallback. rewrite He, Hs, Hb.
  destruct (Z.eqb_spec (char_at name 0) 0); [contradiction|]. cbn [negb].
  rewrite sni_key_spec in Hk. injection Hk as Hk.
  rewrite sni_serverName_spec. cbn [char_at nth drop].
  change (45 =? 0) with false. cbv iota zeta. rewrite drop_0.
  unfold getFromTrie. rewrite Hk, Hl. unfold default. cbn [from_option id].
  destruct (Z.eqb_spec c 0); [contradiction|].
  destruct (Z.eqb_spec c (sslContext ssl)) as [|Hne]; [reflexivity|].
  destruct (Hsw Hne) as [-> ->]. reflexivity.
Qed.

Lemma getFromTrie_key (t : gmap (list Z) Z) (name : list Z)
      (junk : nat -> Z) (key : list Z) :
  sni_key name junk = Some key ->
  getFromTrie t key = default 0 (t !! key).
Proof.
  rewrite sni_key_spec. intros [= <-]. unfold getFromTrie.
  now rewrite c_str_idem.
Qed.

(** The callback keeps the default context and every cache entry. *)
Lemma sslSNICallback_keeps (ssl ssl' : SSLSupport) (bound bound' : Z)
      (e : Env) (tr : list event) :
  configured ssl ->
  sslSNICallback ssl bound e = Done (ssl', bound', tr) ->
  configured ssl' /\ sslContext ssl' = sslContext ssl /\
  forall k v, sniContexts ssl !! k = Some v -> sniContexts ssl' !! k = Some v.
Proof.
  intros [Hd Hv] H. apply sslSNICallback_done in H.
  destruct H as [(-> & _) | (name & key & Hs & Hn & Hk & [Hhit | Hmiss])].
  - repeat split; auto.
  - destruct Hhit as (c & _ & _ & -> & _). repeat split; auto.
  - destruct Hmiss as (Hg & Hf & pattern & c & tr' & _ & Hc & -> & _).
    rewrite (getFromTrie_key _ _ _ _ Hk) in Hg.
    assert (Hnone : sniContexts ssl !! key = None).
    { destruct (sniContexts ssl !! key) as [v|] eqn:Hl; [|reflexivity].
      exfalso. apply (Hv key v Hl). exact Hg. }
    assert (Hcz : c <> 0) by (rewrite Hc; destruct (load_failed ssl e); auto).
    cbn [with_sniContexts sslContext sniContexts]. unfold configured.
    cbn [sslContext sniContexts]. repeat split; auto.
    + intros k v. cbn [with_sniContexts sniContexts].
      rewrite lookup_insert. case_decide.
      * intros [= <-]. assumption.
      * apply Hv.
    + intros k v Hl. rewrite lookup_insert_ne; [assumption|].
      intros <-. congruence.
Qed.

Lemma sni_run_keeps (calls : list (Z * Env)) :
  forall ssl ssl', configured ssl -> sni_run ssl calls = Done ssl' ->
  configured ssl' /\ sslContext ssl' = sslContext ssl /\
  forall k v, sniContexts ssl !! k = Some v -> sniContexts ssl' !! k = Some v.
Proof.
  induction calls as [|[bound e] rest IH]; intros ssl ssl' Hc H; simpl in H.
  - injection H as <-. auto.
  - destruct (sslSNICallback ssl bound e) as [[[s1 b1] t1]| |] eqn:Hcb;
      try discriminate.
    destruct (sslSNICallback_keeps _ _ _ _ _ _ Hc Hcb) as (Hc1 & Hd1 & Hm1).
    destruct (IH _ _ Hc1 H) as (Hc2 & Hd2 & Hm2).
    split; [assumption|]. split; [congruence|]. auto.
Qed.

Lemma lor_32_upper (ch : Z) : 65 <= ch <= 90 -> Z.lor ch 32 = ch + 32.
Proof.
  intros H.
  assert (Hall : forallb
            (fun k => Z.lor (65 + Z.of_nat k) 32 =? 65 + Z.of_nat k + 32)
            (seq 0 26) = true) by reflexivity.
  rewrite forallb_forall in Hall.
  specialize (Hall (Z.to_nat (ch - 65))).
  rewrite Z2Nat.id in Hall by lia.
  replace (65 + (ch - 65)) with ch in Hall by lia.
  apply Z.eqb_eq, Hall, in_seq. lia.
Qed.

(** On a name of letters, digits, dots and dashes the loop leaves the
    name lower-cased, which is also what the specification's
    normalisation gives. *)
Lemma sni_image_clean (junk : nat -> Z) (name : list Z) :
  Forall (fun ch => spec_allowed (spec_lower ch) = true) name ->
  forall j, sni_image j name junk = spec_normalize name /\
            Forall (fun c => c <> 0) name /\
            Forall (fun c => c <> 0) (spec_normalize name).
Proof.
  unfold spec_normalize.
  induction 1 as [|ch r Hch _ IH]; intros j; [repeat split; constructor|].
  destruct (IH (S j)) as (IH1 & IH2 & IH3).
  cbn [sni_image map]. rewrite filter_cons. rewrite Hch. 
  destruct (decide (true = true)) as [_|]; [|congruence].
  rewrite IH1.
  assert (Hnz : ch <> 0 /\ spec_lower ch <> 0 /\
          (if (65 <=? ch) && (ch <=? 90) then Z.lor ch 32
           else if sni_discard ch then junk j else ch) = spec_lower ch).
  { unfold spec_lower, spec_allowed, sni_discard in *.
    destruct ((65 <=? ch) && (ch <=? 90)) eqn:Hup.
    - rewrite lor_32_upper by lia. lia.
    - destruct (Z.eqb_spec ch 0) as [->|]; [discriminate|].
      split; [assumption|]. split; [assumption|].
      cbn [negb andb].
      destruct (ch =? 46) eqn:E1; [reflexivity|].
      destruct (ch =? 45) eqn:E2; [reflexivity|].
      cbn [negb andb].
      replace ((ch <? 48) || (57 <? ch) && (ch <? 65) ||
               (90 <? ch) && (ch <? 97) || (122 <? ch)) with false by lia.
      reflexivity. }
  destruct Hnz as (H1 & H2 & H3). rewrite H3.
  repeat split; auto.
Qed.

Lemma destroyTrie_spares_default (ssl : SSLSupport) (t : gmap (list Z) Z) :
  ~ In (sslContext ssl) (destroyTrie (sslDestroyCachedContext ssl) t).
Proof.
  unfold destroyTrie. rewrite in_flat_map. intros ([k v] & _ & Hin).
  unfold sslDestroyCachedContext in Hin. cbn [snd] in Hin.
  destruct (Z.eqb_spec v (sslContext ssl)); simpl in Hin; intuition.
Qed.

(** C1, as it is stated, fails: on a miss for the name [a] the cache key
    is [a] and the string put into the path template is [-a]. *)
Lemma sni_template_arg_is_not_key :
  ~ (forall ssl bound e name key ssl' bound' tr fmt arg,
        servername e = Some name -> char_at name 0 <> 0 ->
        sni_key name (junk e) = Some key ->
        getFromTrie (sniContexts ssl) key = 0 ->
        sslSNICallback ssl bound e = Done (ssl', bound', tr) ->
        In (EvPrintf fmt arg) tr -> arg = key).
Proof.
  intros H.
  enough (Hx : str "-a" = str "a") by discriminate Hx.
  eapply (H example_ssl 1 (example_env "a" 7 true) (str "a")).
  - reflexivity.
  - discriminate.
  - reflexivity.
  - reflexivity.
  - reflexivity.
  - right. right. left. reflexivity.
Qed.

(** C1, amended: on every cache miss driven by a server name, the cache
    key is the string at [serverName + 1] and the string substituted into
    the certificate path template is that key with a dash before it; the
    certificate is loaded from the path so formatted and the context is
    stored under the key.  For a name of letters, digits, dots and dashes
    the key is the name lower-cased. *)
Theorem sni_miss_key_and_template_arg
        (ssl ssl' : SSLSupport) (bound bound' : Z) (e : Env)
        (name key : list Z) (tr : list event) :
  servername e = Some name -> char_at name 0 <> 0 ->
  sni_key name (junk e) = Some key ->
  getFromTrie (sniContexts ssl) key = 0 ->
  sslSNICallback ssl bound e = Done (ssl', bound', tr) ->
  sni_template_arg name (junk e) = Some (45 :: key) /\
  (exists pattern c tr',
     sniCertificatePattern ssl = Some pattern /\
     tr = EvTrieGet key :: EvCtxNew (fresh_ctx e) ::
          EvPrintf pattern (45 :: key) ::
          EvLoad (fresh_ctx e) (format_s (c_str pattern) (45 :: key)) ::
          tr' /\
     In (EvTrieAdd key c) tr' /\
     sniContexts ssl' = <[key := c]> (sniContexts ssl)) /\
  (Forall (fun ch => spec_allowed (spec_lower ch) = true) name ->
   key = spec_normalize name).
Proof.
  intros Hs Hn Hk Hg H.
  pose proof Hk as Hk'. rewrite sni_key_spec in Hk'. injection Hk' as Hk'.
  split; [rewrite sni_template_arg_spec; now rewrite Hk'|].
  split.
  - apply sslSNICallback_done in H.
    destruct H as [(_ & _ & _ & [Hnone | (n' & Hs' & Hz)])
                  | (n' & key' & Hs' & _ & Hk2 & [Hhit | Hmiss])].
    + congruence.
    + congruence.
    + exfalso. destruct Hhit as (c & Hl & Hc & _).
      assert (n' = name) by congruence. subst n'.
      assert (key' = key) by congruence. subst key'.
      rewrite (getFromTrie_key _ _ _ _ Hk), Hl in Hg. exact (Hc Hg).
    + assert (n' = name) by congruence. subst n'.
      assert (key' = key) by congruence. subst key'.
      destruct Hmiss as (_ & _ & pattern & c & tr' & Hp & _ & -> & _ & ->
                         & _ & _ & Hadd).
      exists pattern, c, tr'. auto.
  - intros Hclean.
    destruct (sni_image_clean (junk e) name Hclean 1%nat) as (Himg & Hz & Hz').
    rewrite <- Hk', (c_str_fixed name Hz), Himg.
    now apply c_str_app_nul.
Qed.

Lemma sni_miss_key_and_template_arg_witness :
  sni_template_arg (str "Foo.COM") (fun _ => 0) = Some (str "-foo.com") /\
  str "foo.com" = spec_normalize (str "Foo.COM").
Proof.
  destruct (sni_miss_key_and_template_arg
              example_ssl
              (with_sniContexts example_ssl {[ str "foo.com" := 7 ]})
              1 7 (example_env "Foo.COM" 7 true)
              (str "Foo.COM") (str "foo.com")
              [EvTrieGet (str "foo.com"); EvCtxNew 7;
               EvPrintf (str "/etc/certificate%s.pem") (str "-foo.com");
               EvLoad 7 (str "/etc/certificate-foo.com.pem");
               EvTrieAdd (str "foo.com") 7; EvSetCtx 7])
    as (H1 & _ & H3).
  - reflexivity.
  - discriminate.
  - reflexivity.
  - reflexivity.
  - vm_compute. reflexivity.
  - split; [exact H1|]. apply H3. vm_compute.
    repeat constructor.
Defined.

(** C2 fails on the code.  An SNI name with an empty normalisation should
    leave the session alone, without lookup or allocation.  The name [_] has an
    empty normalisation, and when the block [malloc] returns holds zeros
    the key the code computes is empty as well; the callback still looks
    the key up, allocates a context, loads a certificate for it, stores it
    under the empty key and binds the session to it.  (When the block
    holds other bytes, the dropped byte's place in the key holds one of
    them: the key of [a_b] is then [aXb], not [ab].) *)
Lemma sni_empty_name_is_resolved :
  spec_normalize (str "_") = [] /\
  sni_key (str "_") (fun _ => 0) = Some [] /\
  spec_normalize (str "a_b") = str "ab" /\
  sni_key (str "a_b") (fun _ => 88) = Some (str "aXb") /\
  sslSNICallback example_ssl 1 (example_env "_" 7 true)
  = Done (with_sniContexts example_ssl {[ [] := 7 ]}, 7,
          [EvTrieGet []; EvCtxNew 7;
           EvPrintf (str "/etc/certificate%s.pem") (str "-");
           EvLoad 7 (str "/etc/certificate-.pem");
           EvTrieAdd [] 7; EvSetCtx 7]).
Proof. repeat split; vm_compute; reflexivity. Qed.

(** C3: when the certificate of a host cannot be loaded, the context just
    allocated is freed and the default context itself is stored under the
    host's key, the session staying on the default context; the cache's
    destructor frees a context exactly when it is not the default one, so
    [destroySSL] frees the default context once, whatever the cache
    holds. *)
Theorem sni_fallback_entry_not_owned
        (ssl ssl' : SSLSupport) (bound bound' : Z) (e : Env)
        (name key : list Z) (tr : list event) :
  servername e = Some name -> char_at name 0 <> 0 ->
  sni_key name (junk e) = Some key ->
  getFromTrie (sniContexts ssl) key = 0 ->
  load_failed ssl e = true ->
  sslSNICallback ssl bound e = Done (ssl', bound', tr) ->
  In (EvCtxNew (fresh_ctx e)) tr /\ In (EvCtxFree (fresh_ctx e)) tr /\
  In (EvTrieAdd key (sslContext ssl)) tr /\
  sniContexts ssl' = <[key := sslContext ssl]> (sniContexts ssl) /\
  sslContext ssl' = sslContext ssl /\ bound' = bound /\
  (forall s c, In c (sslDestroyCachedContext s c) <-> c <> sslContext s) /\
  (forall s c x, In x (sslDestroyCachedContext s c) -> x = c) /\
  (forall dbg err freed,
     sslContext ssl' <> 0 ->
     destroySSL dbg err (Some ssl') = Done freed ->
     count_occ Z.eq_dec freed (sslContext ssl') = 1%nat).
Proof.
  intros Hs Hn Hk Hg Hfail H.
  assert (Hdestr : forall s c,
             In c (sslDestroyCachedContext s c) <-> c <> sslContext s).
  { intros s c. unfold sslDestroyCachedContext.
    destruct (Z.eqb_spec c (sslContext s)); simpl; intuition. }
  assert (Hdestr' : forall s c x, In x (sslDestroyCachedContext s c) -> x = c).
  { intros s c x. unfold sslDestroyCachedContext.
    destruct (negb _); simpl; intuition. }
  assert (Honce : forall s dbg err freed,
             sslContext s <> 0 ->
             destroySSL dbg err (Some s) = Done freed ->
             count_occ Z.eq_dec freed (sslContext s) = 1%nat).
  { intros s dbg err freed Hd. unfold destroySSL.
    destruct (Z.eqb_spec (sslContext s) 0); [contradiction|]. cbn [negb].
    destruct (err && dbg); [discriminate|]. intros [= <-].
    rewrite count_occ_app.
    rewrite (proj1 (count_occ_not_In Z.eq_dec _ _)
               (destroyTrie_spares_default s (sniContexts s))).
    simpl. destruct (Z.eq_dec _ _); [reflexivity | contradiction]. }
  apply sslSNICallback_done in H.
  destruct H as [(_ & _ & _ & [Hnone | (n' & Hs' & Hz)])
                | (n' & key' & Hs' & _ & Hk2 & [Hhit | Hmiss])].
  - congruence.
  - congruence.
  - exfalso. destruct Hhit as (c & Hl & Hc & _).
    assert (n' = name) by congruence. subst n'.
    assert (key' = key) by congruence. subst key'.
    rewrite (getFromTrie_key _ _ _ _ Hk), Hl in Hg. exact (Hc Hg).
  - assert (n' = name) by congruence. subst n'.
    assert (key' = key) by congruence. subst key'.
    destruct Hmiss as (_ & _ & pattern & c & tr' & Hp & Hc & -> & -> & ->
                       & Hfree & _ & Hadd).
    rewrite Hfail in Hc. subst c. rewrite Z.eqb_refl.
    cbn [with_sniContexts sslContext sniContexts].
    repeat split; auto.
    + simpl. auto.
    + simpl. auto 6.
    + simpl. auto 6.
    + apply (Hdestr s c).
    + apply (Hdestr s c).
    + intros dbg err freed Hd Hdes.
      apply (Honce (with_sniContexts ssl _) dbg err freed Hd Hdes).
Qed.

Lemma sni_fallback_entry_not_owned_witness :
  In (EvCtxFree 7)
     [EvTrieGet (str "h"); EvCtxNew 7;
      EvPrintf (str "/etc/certificate%s.pem") (str "-h");
      EvLoad 7 (str "/etc/certificate-h.pem");
      EvWarn (str "/etc/certificate-h.pem") (str "h"); EvCtxFree 7;
      EvTrieAdd (str "h") 1] /\
  count_occ Z.eq_dec [1] 1 = 1%nat.
Proof.
  destruct (sni_fallback_entry_not_owned
              example_ssl
              (with_sniContexts example_ssl {[ str "h" := 1 ]})
              1 1 (example_env "h" 7 false) (str "h") (str "h")
              [EvTrieGet (str "h"); EvCtxNew 7;
               EvPrintf (str "/etc/certificate%s.pem") (str "-h");
               EvLoad 7 (str "/etc/certificate-h.pem");
               EvWarn (str "/etc/certificate-h.pem") (str "h"); EvCtxFree 7;
               EvTrieAdd (str "h") 1])
    as (_ & H2 & _ & _ & _ & _ & _ & _ & H9).
  - reflexivity.
  - discriminate.
  - reflexivity.
  - reflexivity.
  - reflexivity.
  - vm_compute. reflexivity.
  - split; [exact H2|].
    apply (H9 false false [1]); [discriminate | vm_compute; reflexivity].
Defined.

(** C7, as it is stated, fails.  On a support object with the default
    context 1 and an empty cache, a first callback for the host [h] cannot
    load a certificate and caches the default context under [h]; a second
    callback, for the host [g], loads the context 8, caches it and binds
    its session to it.  When that session, bound to the cached context 8,
    then asks for [h], every check of the callback passes and the session
    is left on 8, not on the context cached under [h]. *)
Lemma sni_default_entry_does_not_rebind :
  ~ (forall ssl bound e name key ssl1 b1 tr1,
        configured ssl ->
        servername e = Some name -> char_at name 0 <> 0 ->
        sni_key name (junk e) = Some key ->
        sslSNICallback ssl bound e = Done (ssl1, b1, tr1) ->
        exists c,
          sniContexts ssl1 !! key = Some c /\
          forall calls ssl2,
            sni_run ssl1 calls = Done ssl2 ->
            forall bound' e' name',
              (bound' = sslContext ssl2 \/
               exists k, sniContexts ssl2 !! k = Some bound') ->
              err_pending e' = false ->
              servername e' = Some name' -> char_at name' 0 <> 0 ->
              block_ok e' = true ->
              switch_ok e' = true -> switch_err e' = false ->
              sni_key name' (junk e') = Some key ->
              exists tr2,
                sslSNICallback ssl2 bound' e' = Done (ssl2, c, tr2)).
Proof.
  intros H.
  assert (Hconf : configured example_ssl).
  { split; [discriminate|]. intros k c. cbn. rewrite lookup_empty.
    discriminate. }
  destruct (H example_ssl 1 (example_env "h" 7 false) (str "h") (str "h")
              (with_sniContexts example_ssl {[ str "h" := 1 ]}) 1
              [EvTrieGet (str "h"); EvCtxNew 7;
               EvPrintf (str "/etc/certificate%s.pem") (str "-h");
               EvLoad 7 (str "/etc/certificate-h.pem");
               EvWarn (str "/etc/certificate-h.pem") (str "h"); EvCtxFree 7;
               EvTrieAdd (str "h") 1]
              Hconf eq_refl) as (c & Hl & Hlater).
  - discriminate.
  - reflexivity.
  - vm_compute. reflexivity.
  - cbn [with_sniContexts sniContexts] in Hl.
    rewrite lookup_singleton_eq in Hl. injection Hl as <-.
    pose (r := sni_run (with_sniContexts example_ssl {[ str "h" := 1 ]})
                       [(1, example_env "g" 8 true)]).
    assert (Hr : sni_run (with_sniContexts example_ssl {[ str "h" := 1 ]})
                         [(1, example_env "g" 8 true)] = r) by reflexivity.
    vm_compute in r.
    destruct (Hlater _ _ Hr 8 (example_env "h" 9 false) (str "h"))
      as (tr2 & Hcall).
    + right. exists (str "g"). vm_compute. reflexivity.
    + reflexivity.
    + reflexivity.
    + discriminate.
    + reflexivity.
    + reflexivity.
    + reflexivity.
    + vm_compute. reflexivity.
    + vm_compute in Hcall. discriminate Hcall.
Qed.

(** C7, amended: on a support object with a default context, a callback
    for a server name leaves a context under the name's key (the one just
    loaded, or the default context after a failed load); whatever
    callbacks follow, no cache entry is removed or changed, and every
    later callback for a name with the same key whose checks pass (no
    error pending, the name copy allocated, and, when the cached context
    is not the default one, [SSL_set_SSL_CTX] succeeding without an
    error) finds that same context, allocates and stores nothing, and
    binds its session to it, except that with the default context cached
    the session is left on the context it has, which is the default one
    for a session that has not been switched before. *)
Theorem sni_cached_context_is_stable
        (ssl ssl1 : SSLSupport) (bound b1 : Z) (e : Env)
        (name key : list Z) (tr1 : list event) :
  configured ssl ->
  servername e = Some name -> char_at name 0 <> 0 ->
  sni_key name (junk e) = Some key ->
  sslSNICallback ssl bound e = Done (ssl1, b1, tr1) ->
  exists c,
    c <> 0 /\ sniContexts ssl1 !! key = Some c /\
    b1 = (if c =? sslContext ssl then bound else c) /\
    forall calls ssl2,
      sni_run ssl1 calls = Done ssl2 ->
      sslContext ssl2 = sslContext ssl /\
      (forall k v, sniContexts ssl1 !! k = Some v ->
                   sniContexts ssl2 !! k = Some v) /\
      forall bound' e' name',
        err_pending e' = false ->
        servername e' = Some name' -> char_at name' 0 <> 0 ->
        block_ok e' = true ->
        (c <> sslContext ssl2 ->
         switch_ok e' = true /\ switch_err e' = false) ->
        sni_key name' (junk e') = Some key ->
        exists tr2,
          sslSNICallback ssl2 bound' e'
          = Done (ssl2, (if c =? sslContext ssl2 then bound' else c), tr2) /\
          (bound' = sslContext ssl2 ->
           (if c =? sslContext ssl2 then bound' else c) = c) /\
          In (EvTrieGet key) tr2 /\
          (forall x, ~ In (EvCtxNew x) tr2) /\
          (forall k x, ~ In (EvTrieAdd k x) tr2).
Proof.
  intros Hconf Hs Hn Hk H.
  destruct (sslSNICallback_keeps _ _ _ _ _ _ Hconf H) as (Hconf1 & Hd1 & Hm1).
  assert (Hc : exists c, c <> 0 /\ sniContexts ssl1 !! key = Some c /\
                         b1 = (if c =? sslContext ssl then bound else c)).
  { apply sslSNICallback_done in H.
    destruct H as [(_ & _ & _ & [Hnone | (n' & Hs' & Hz)])
                  | (n' & key' & Hs' & _ & Hk2 & [Hhit | Hmiss])].
    - congruence.
    - congruence.
    - assert (n' = name) by congruence. subst n'.
      assert (key' = key) by congruence. subst key'.
      destruct Hhit as (c & Hl & Hc & -> & -> & _).
      exists c. repeat split; auto.
    - assert (n' = name) by congruence. subst n'.
      assert (key' = key) by congruence. subst key'.
      destruct Hmiss as (_ & Hf & pattern & c & tr' & _ & Hc & -> & -> & _).
      exists c. cbn [with_sniContexts sniContexts].
      rewrite lookup_insert_eq. repeat split; auto.
      rewrite Hc. destruct (load_failed ssl e); [apply Hconf | exact Hf]. }
  destruct Hc as (c & Hcz & Hl & Hb). exists c.
  split; [assumption|]. split; [assumption|]. split; [assumption|].
  intros calls ssl2 Hrun.
  destruct (sni_run_keeps calls _ _ Hconf1 Hrun) as (Hconf2 & Hd2 & Hm2).
  split; [congruence|]. split; [assumption|].
  intros bound' e' name' He' Hs' Hn' Hb' Hsw' Hk'.
  rewrite (sslSNICallback_hit ssl2 bound' e' name' key c He' Hs' Hn' Hb' Hk'
             (Hm2 _ _ Hl) Hcz Hsw').
  eexists. split; [reflexivity|].
  destruct (Z.eqb_spec c (sslContext ssl2)).
  - repeat split; try congruence; simpl; intuition discriminate.
  - repeat split; try congruence; simpl; intuition discriminate.
Qed.

Lemma sni_cached_context_is_stable_witness :
  exists tr2,
    sslSNICallback (with_sniContexts example_ssl {[ str "h" := 7 ]}) 1
                   (example_env "H" 9 false)
    = Done (with_sniContexts example_ssl {[ str "h" := 7 ]}, 7, tr2).
Proof.
  assert (Hconf : configured example_ssl).
  { split; [discriminate|]. intros k c. cbn. rewrite lookup_empty.
    discriminate. }
  destruct (sni_cached_context_is_stable
              example_ssl
              (with_sniContexts example_ssl {[ str "h" := 7 ]})
              1 7 (example_env "h" 7 true) (str "h") (str "h")
              [EvTrieGet (str "h"); EvCtxNew 7;
               EvPrintf (str "/etc/certificate%s.pem") (str "-h");
               EvLoad 7 (str "/etc/certificate-h.pem");
               EvTrieAdd (str "h") 7; EvSetCtx 7]
              Hconf eq_refl)
    as (c & _ & Hl & _ & Hlater).
  - discriminate.
  - reflexivity.
  - vm_compute. reflexivity.
  - assert (c = 7) as ->.
    { cbn [with_sniContexts sniContexts] in Hl.
      rewrite lookup_singleton_eq in Hl. congruence. }
    destruct (Hlater [] _ eq_refl) as (_ & _ & Hcall).
    destruct (Hcall 1 (example_env "H" 9 false) (str "H") eq_refl eq_refl)
      as (tr2 & Heq & _).
    + discriminate.
    + reflexivity.
    + intros _. split; reflexivity.
    + reflexivity.
    + exists tr2. exact Heq.
Defined.

Lemma sni_image_length (junk : nat -> Z) (s : list Z) :
  forall j, length (sni_image j s junk) = length s.
Proof.
  induction s as [|ch r IH]; intros j; cbn [sni_image length];
    [reflexivity | now rewrite IH].
Qed.

Lemma c_str_Forall (P : Z -> Prop) (l : list Z) :
  Forall (fun c => c <> 0 -> P c) l -> Forall P (c_str l).
Proof.
  induction 1 as [|c r Hc _ IH]; cbn [c_str]; [constructor|].
  destruct (Z.eqb_spec c 0); [constructor|].
  constructor; auto.
Qed.

Lemma c_str_length (l : list Z) : (length (c_str l) <= length l)%nat.
Proof.
  induction l as [|c r IH]; cbn [c_str length]; [lia|].
  destruct (c =? 0); cbn [length]; lia.
Qed.

(** X1: the copy loop ends and every write of it falls inside the block
    of [strlen(name) + 2] bytes (a write outside the block would leave no
    result): the block starts with the dash and its last byte is the NUL
    the loop wrote.  The callback has no undefined outcome. *)
Theorem sni_copy_stays_in_block
        (ssl : SSLSupport) (bound : Z) (e : Env) (name : list Z)
        (garbage : nat -> Z) :
  (exists serverName,
     sni_serverName name garbage = Some serverName /\
     length serverName = (strlen name + 2)%nat /\
     char_at serverName 0 = 45 /\
     char_at serverName (strlen name + 1) = 0) /\
  sslSNICallback ssl bound e <> Undefined.
Proof.
  split.
  - eexists. split; [apply sni_serverName_spec|].
    unfold strlen, char_at. cbn [length nth].
    rewrite length_app, sni_image_length. cbn [length].
    split; [lia|]. split; [reflexivity|].
    replace (length (c_str name) + 1)%nat with (S (length (c_str name)))
      by lia.
    cbn [nth]. rewrite app_nth2 by (rewrite sni_image_length; lia).
    rewrite sni_image_length, Nat.sub_diag. reflexivity.
  - unfold sslSNICallback. destruct (err_pending e); [discriminate|].
    destruct (servername e) as [n|]; [|discriminate].
    destruct (char_at n 0 =? 0); [discriminate|].
    destruct (block_ok e); [|discriminate]. cbn [negb].
    rewrite sni_serverName_spec. cbn [char_at nth].
    change (45 =? 0) with false. cbv iota zeta.
    destruct (getFromTrie _ _ =? 0).
    + unfold sni_miss. destruct (fresh_ctx e =? 0); [discriminate|].
      destruct (sniCertificatePattern ssl); [|discriminate].
      destruct (negb (load_first e)), (generateMissing ssl),
        (negb (load_retry e)); cbv beta iota zeta;
        repeat match goal with |- context [if ?c then _ else _] =>
          destruct c end; discriminate.
    + repeat match goal with |- context [if ?c then _ else _] =>
        destruct c end; discriminate.
Qed.

(** X2: every byte of the cache key that comes from the name the client
    sent is a lower-case letter, a digit, a dot or a dash; any other byte
    of the key is one the block held before, and the key is no longer
    than the name. *)
Theorem sni_key_sanitised (name key : list Z) (garbage : nat -> Z) :
  sni_key name garbage = Some key ->
  Forall (fun c => spec_allowed c = true \/ exists j, c = garbage j) key /\
  (length key <= strlen name)%nat.
Proof.
  rewrite sni_key_spec. intros [= <-]. split.
  - apply c_str_Forall. apply Forall_app. split; [|repeat constructor; lia].
    pose proof (c_str_nonzero name) as Hnz.
    generalize 1%nat. induction Hnz as [|ch r Hch _ IH]; intros j;
      cbn [sni_image]; constructor; [|apply IH].
    intros _. destruct ((65 <=? ch) && (ch <=? 90)) eqn:Hup.
    + left. rewrite lor_32_upper by lia. unfold spec_allowed. lia.
    + destruct (sni_discard ch) eqn:Hd; [right; eauto|].
      left. unfold sni_discard, spec_allowed in *. lia.
  - unfold strlen.
    pose proof (c_str_length (sni_image 1 (c_str name) garbage ++ [0])) as H.
    rewrite length_app, sni_image_length in H. cbn [length] in H.
    assert (Hne : c_str (sni_image 1 (c_str name) garbage ++ [0])
                  <> sni_image 1 (c_str name) garbage ++ [0]).
    { intros Heq. pose proof (c_str_nonzero
                                (sni_image 1 (c_str name) garbage ++ [0])) as Hz.
      rewrite Heq in Hz. apply Forall_app in Hz as [_ Hz].
      inversion Hz as [|? ? H0 _]. now apply H0. }
    destruct (decide (length (c_str (sni_image 1 (c_str name) garbage ++ [0]))
                      = S (length (c_str name)))) as [Hl|Hl]; [|lia].
    exfalso. apply Hne. clear Hne.
    set (l := sni_image 1 (c_str name) garbage ++ [0]) in *.
    assert (Hlen : length (c_str l) = length l)
      by (unfold l at 2; rewrite length_app, sni_image_length;
          cbn [length]; lia).
    clear -Hlen. induction l as [|c r IH]; [reflexivity|].
    cbn [c_str length] in *. destruct (c =? 0).
    + discriminate.
    + cbn [length] in Hlen. f_equal. apply IH. lia.
Qed.

Lemma sni_key_sanitised_witness :
  Forall (fun c => spec_allowed c = true \/
                   exists j, c = (fun _ : nat => 88) j)
         (str "aXb") /\
  (length (str "aXb") <= strlen (str "a'b"))%nat.
Proof.
  apply (sni_key_sanitised (str "a'b") (str "aXb") (fun _ : nat => 88)).
  reflexivity.
Defined.

Lemma spec_lower_zero (ch : Z) : (spec_lower ch =? 0) = (ch =? 0).
Proof. unfold spec_lower. destruct ((65 <=? ch) && (ch <=? 90)) eqn:H; lia. Qed.

Lemma c_str_lower (s : list Z) :
  c_str (map spec_lower s) = map spec_lower (c_str s).
Proof.
  induction s as [|ch r IH]; [reflexivity|]. cbn [map c_str].
  rewrite spec_lower_zero. destruct (ch =? 0); [reflexivity|].
  cbn [map]. now rewrite IH.
Qed.

Lemma sni_image_lower (garbage : nat -> Z) (s : list Z) :
  forall j, sni_image j (map spec_lower s) garbage = sni_image j s garbage.
Proof.
  induction s as [|ch r IH]; intros j; [reflexivity|].
  cbn [map sni_image]. rewrite IH. f_equal.
  unfold spec_lower. destruct ((65 <=? ch) && (ch <=? 90)) eqn:Hup.
  - replace ((65 <=? ch + 32) && (ch + 32 <=? 90)) with false by lia.
    rewrite lor_32_upper by lia.
    unfold sni_discard.
    replace ((ch + 32 <? 48) || (57 <? ch + 32) && (ch + 32 <? 65) ||
             (90 <? ch + 32) && (ch + 32 <? 97) || (122 <? ch + 32))
      with false by lia.
    now rewrite !andb_false_r.
  - now rewrite ?Hup.
Qed.

(** X3: the callback does not tell upper-case letters in the name from
    lower-case ones: with the letters of the name lower-cased it does the
    same, to the same cache entry. *)
Theorem sni_lookup_ignores_case
        (ssl : SSLSupport) (bound : Z) (e : Env) (name : list Z) :
  sslSNICallback ssl bound (with_servername e (map spec_lower name))
  = sslSNICallback ssl bound (with_servername e name).
Proof.
  unfold sslSNICallback, with_servername.
  cbn [err_pending servername junk fresh_ctx].
  destruct (err_pending e); [reflexivity|].
  assert (Hhead : (char_at (map spec_lower name) 0 =? 0)
                  = (char_at name 0 =? 0)).
  { destruct name as [|ch r]; [reflexivity|]. cbn [map char_at nth].
    apply spec_lower_zero. }
  rewrite Hhead. destruct (char_at name 0 =? 0); [reflexivity|].
  rewrite !sni_serverName_spec, c_str_lower, sni_image_lower.
  reflexivity.
Qed.

(** When the callback aborts. *)
Lemma sslSNICallback_aborted (ssl : SSLSupport) (bound : Z) (e : Env) :
  sslSNICallback ssl bound e = Aborted <->
  err_pending e = true \/
  exists name key,
    servername e = Some name /\ char_at name 0 <> 0 /\
    sni_key name (junk e) = Some key /\
    (block_ok e = false \/
     (getFromTrie (sniContexts ssl) key = 0 /\
      (fresh_ctx e = 0 \/ sniCertificatePattern ssl = None)) \/
     ((if getFromTrie (sniContexts ssl) key =? 0
       then if load_failed ssl e then sslContext ssl else fresh_ctx e
       else getFromTrie (sniContexts ssl) key) <> sslContext ssl /\
      (switch_ok e = false \/ switch_err e = true))).
Proof.
  unfold sslSNICallback.
  destruct (err_pending e); [split; auto|].
  destruct (servername e) as [name|].
  2:{ split; [discriminate|].
      intros [|(n & k & Hn & _)]; discriminate. }
  destruct (Z.eqb_spec (char_at name 0) 0) as [Hz|Hnz].
  { split; [discriminate|].
    intros [|(n & k & [= <-] & Hn & _)]; [discriminate | contradiction]. }
  set (raw := sni_image 1 (c_str name) (junk e) ++ [0]).
  assert (Hk : sni_key name (junk e) = Some (c_str raw))
    by apply sni_key_spec.
  destruct (block_ok e) eqn:Hb; cbn [negb].
  2:{ split; [intros _|reflexivity]. right. exists name, (c_str raw).
      repeat (split; [assumption || reflexivity|]). now left. }
  rewrite sni_serverName_spec. cbn [char_at nth drop].
  change (45 =? 0) with false. cbv iota zeta. rewrite drop_0. fold raw.
  assert (Hget : getFromTrie (sniContexts ssl) raw
                 = getFromTrie (sniContexts ssl) (c_str raw))
    by (unfold getFromTrie; now rewrite c_str_idem).
  rewrite Hget.
  set (g := getFromTrie (sniContexts ssl) (c_str raw)).
  assert (Hrhs : forall P : Prop,
    (P <->
     (g = 0 /\ (fresh_ctx e = 0 \/ sniCertificatePattern ssl = None)) \/
     ((if g =? 0
       then if load_failed ssl e then sslContext ssl else fresh_ctx e
       else g) <> sslContext ssl /\
      (switch_ok e = false \/ switch_err e = true))) ->
    (P <->
     false = true \/
     exists name0 key,
       Some name = Some name0 /\ char_at name0 0 <> 0 /\
       sni_key name0 (junk e) = Some key /\
       (true = false \/
        (getFromTrie (sniContexts ssl) key = 0 /\
         (fresh_ctx e = 0 \/ sniCertificatePattern ssl = None)) \/
        ((if getFromTrie (sniContexts ssl) key =? 0
          then if load_failed ssl e then sslContext ssl else fresh_ctx e
          else getFromTrie (sniContexts ssl) key) <> sslContext ssl /\
         (switch_ok e = false \/ switch_err e = true))))).
  { intros P HP. rewrite HP. split.
    - intros H. right. exists name, (c_str raw).
      split; [reflexivity|]. split; [assumption|]. split; [assumption|].
      right. exact H.
    - intros [|(n & k & [= <-] & _ & Hk' & [Hb'|H])];
        [discriminate | discriminate |].
      rewrite Hk in Hk'. injection Hk' as <-. exact H. }
  apply Hrhs. clear Hrhs.
  destruct (Z.eqb_spec g 0) as [Hg|Hg].
  - destruct (Z.eqb_spec (fresh_ctx e) 0) as [Hf|Hf].
    { unfold sni_miss. rewrite (proj2 (Z.eqb_eq _ _) Hf).
      split; [intros _; left; auto | reflexivity]. }
    destruct (sniCertificatePattern ssl) as [pattern|] eqn:Hp.
    2:{ unfold sni_miss. rewrite Hp.
        destruct (fresh_ctx e =? 0);
          (split; [intros _; left; auto | reflexivity]). }
    destruct (sni_miss_spec ssl e raw pattern Hf Hp) as (tr' & -> & _).
    cbn [with_sniContexts sslContext].
    destruct (Z.eqb_spec (if load_failed ssl e then sslContext ssl
                          else fresh_ctx e) (sslContext ssl)) as [Hc|Hc].
    + split; [discriminate|].
      intros [(_ & [?|?]) | (Hne & _)];
        [contradiction | discriminate | contradiction].
    + destruct (switch_ok e), (switch_err e); cbn [negb];
        (split;
         [first [discriminate | intros _; right; split; auto]
         |first [reflexivity
                | intros [(_ & [?|?]) | (_ & [?|?])];
                  first [contradiction | discriminate]]]).
  - destruct (Z.eqb_spec g (sslContext ssl)) as [Hc|Hc].
    + split; [discriminate|].
      intros [(? & _) | (Hne & _)]; contradiction.
    + destruct (switch_ok e), (switch_err e); cbn [negb];
        (split;
         [first [discriminate | intros _; right; split; auto]
         |first [reflexivity
                | intros [(? & _) | (_ & [?|?])];
                  first [contradiction | discriminate]]]).
Qed.

(** X4: the callback aborts in these cases only: an error is pending when
    it is entered; or the name is not empty and the block for its copy
    cannot be allocated; or the name is not cached and there is no
    context to load its certificate into ([SSL_CTX_new] fails) or no
    pattern to name the file; or the context found or loaded for the name
    is not the default one and [SSL_set_SSL_CTX] fails or leaves an error
    in the queue. *)
Theorem sni_abort_iff (ssl : SSLSupport) (bound : Z) (e : Env) :
  sslSNICallback ssl bound e = Aborted <->
  err_pending e = true \/
  exists name key,
    servername e = Some name /\ char_at name 0 <> 0 /\
    sni_key name (junk e) = Some key /\
    (block_ok e = false \/
     (getFromTrie (sniContexts ssl) key = 0 /\
      (fresh_ctx e = 0 \/ sniCertificatePattern ssl = None)) \/
     ((if getFromTrie (sniContexts ssl) key =? 0
       then if load_failed ssl e then sslContext ssl else fresh_ctx e
       else getFromTrie (sniContexts ssl) key) <> sslContext ssl /\
      (switch_ok e = false \/ switch_err e = true))).
Proof. apply sslSNICallback_aborted. Qed.

(** X5: a certificate is generated only on a miss, only when the support
    object asks for it and only after the first attempt to load the file
    has failed; it is generated for the cache key, in the file the
    pattern gives for the dash and the key, and what is cached for the key
    afterwards is the new context when the second attempt succeeds and
    the default context when it does not. *)
Theorem sni_generate_on_miss
        (ssl ssl' : SSLSupport) (bound bound' : Z) (e : Env)
        (tr : list event) (path cn : list Z) :
  sslSNICallback ssl bound e = Done (ssl', bound', tr) ->
  In (EvGenerate path cn) tr ->
  generateMissing ssl = true /\ load_first e = false /\
  exists name pattern,
    servername e = Some name /\ sni_key name (junk e) = Some cn /\
    getFromTrie (sniContexts ssl) cn = 0 /\
    sniCertificatePattern ssl = Some pattern /\
    path = format_s (c_str pattern) (45 :: cn) /\
    sniContexts ssl' !! cn
    = Some (if load_retry e then fresh_ctx e else sslContext ssl).
Proof.
  unfold sslSNICallback.
  destruct (err_pending e); [discriminate|].
  destruct (servername e) as [name|];
    [|intros [= _ _ <-] Hin; destruct Hin].
  destruct (char_at name 0 =? 0); [intros [= _ _ <-] Hin; destruct Hin|].
  destruct (block_ok e); [|discriminate]. cbn [negb].
  rewrite sni_serverName_spec. cbn [char_at nth drop].
  change (45 =? 0) with false. cbv iota zeta. rewrite drop_0.
  set (raw := sni_image 1 (c_str name) (junk e) ++ [0]).
  assert (Hk : sni_key name (junk e) = Some (c_str raw))
    by apply sni_key_spec.
  assert (Hget : getFromTrie (sniContexts ssl) raw
                 = getFromTrie (sniContexts ssl) (c_str raw))
    by (unfold getFromTrie; now rewrite c_str_idem).
  rewrite Hget.
  destruct (Z.eqb_spec (getFromTrie (sniContexts ssl) (c_str raw)) 0)
    as [Hg|Hg].
  2:{ destruct (_ =? sslContext ssl);
        [|destruct (switch_ok e); cbn [negb]; [|discriminate];
          destruct (switch_err e); [discriminate|]];
        intros [= _ _ <-] Hin; simpl in Hin; intuition discriminate. }
  unfold sni_miss. destruct (fresh_ctx e =? 0); [discriminate|].
  destruct (sniCertificatePattern ssl) as [pattern|] eqn:Hp; [|discriminate].
  unfold stringPrintf, addToTrie. cbn [c_str drop].
  change (45 =? 0) with false. cbv iota. rewrite drop_0.
  destruct (load_first e), (generateMissing ssl), (load_retry e);
    cbn [negb]; cbv beta iota zeta;
    (match goal with |- context [if ?c then _ else _] =>
       destruct c;
       [|destruct (switch_ok e); cbn [negb]; [|discriminate];
         destruct (switch_err e); [discriminate|]]
     end);
    intros [= <- _ <-] Hin; simpl in Hin;
    repeat (destruct Hin as [Hin|Hin]; [try discriminate Hin|]);
    try contradiction;
    injection Hin as <- <-;
    (split; [reflexivity|]); (split; [reflexivity|]);
    exists name, pattern;
    repeat (split; [assumption || reflexivity|]);
    cbn [with_sniContexts sniContexts]; apply lookup_insert_eq.
Qed.

Lemma sni_generate_on_miss_witness :
  exists ssl' tr,
    sslSNICallback
      {| enabled := true; sslContext := 1;
         sniCertificatePattern := Some (str "/etc/certificate%s.pem");
         generateMissing := true; sniContexts := ∅ |} 1
      {| err_pending := false; servername := Some (str "h");
         junk := fun _ => 0; block_ok := true; fresh_ctx := 7;
         load_first := false; load_retry := true;
         switch_ok := true; switch_err := false |}
    = Done (ssl', 7, tr) /\
    sniContexts ssl' !! str "h" = Some 7.
Proof.
  assert (Hrun : exists ssl' tr,
    sslSNICallback
      {| enabled := true; sslContext := 1;
         sniCertificatePattern := Some (str "/etc/certificate%s.pem");
         generateMissing := true; sniContexts := ∅ |} 1
      {| err_pending := false; servername := Some (str "h");
         junk := fun _ => 0; block_ok := true; fresh_ctx := 7;
         load_first := false; load_retry := true;
         switch_ok := true; switch_err := false |}
    = Done (ssl', 7, tr) /\
    In (EvGenerate (str "/etc/certificate-h.pem") (str "h")) tr).
  { do 2 eexists. split; [reflexivity|]. vm_compute. auto 10. }
  destruct Hrun as (ssl' & tr & Hrun & Hin). exists ssl', tr.
  split; [exact Hrun|].
  destruct (sni_generate_on_miss _ _ _ _ _ _ _ _ Hrun Hin)
    as (_ & _ & name & pattern & _ & _ & _ & _ & _ & H).
  exact H.
Defined.

(** X6: the callback keeps every context other than the default one under
    one key only, as long as [SSL_CTX_new] returns a context that is not
    cached. *)
Theorem sni_callback_keeps_ownership
        (ssl ssl' : SSLSupport) (bound bound' : Z) (e : Env)
        (tr : list event) :
  owned_once ssl ->
  (forall k, sniContexts ssl !! k <> Some (fresh_ctx e)) ->
  sslSNICallback ssl bound e = Done (ssl', bound', tr) ->
  owned_once ssl' /\ sslContext ssl' = sslContext ssl.
Proof.
  intros Ho Hfresh H. apply sslSNICallback_done in H.
  destruct H as [(-> & _) | (name & key & Hs & Hn & Hk & [Hhit | Hmiss])].
  - auto.
  - destruct Hhit as (c & _ & _ & -> & _). auto.
  - destruct Hmiss as (_ & _ & pattern & c & tr' & _ & Hc & -> & _).
    split; [|reflexivity].
    intros k1 k2 c0. cbn [with_sniContexts sniContexts sslContext].
    destruct (decide (k1 = key)) as [->|H1], (decide (k2 = key)) as [->|H2];
      rewrite ?lookup_insert_eq, ?lookup_insert_ne by congruence.
    + reflexivity.
    + intros [= <-] H2' Hd. exfalso.
      destruct (load_failed ssl e); [congruence|].
      subst c. exact (Hfresh _ H2').
    + intros H1' [= <-] Hd. exfalso.
      destruct (load_failed ssl e); [congruence|].
      subst c. exact (Hfresh _ H1').
    + apply Ho.
Qed.

Lemma sni_callback_keeps_ownership_witness :
  exists ssl' tr,
    sslSNICallback example_ssl 1 (example_env "a" 7 true)
    = Done (ssl', 7, tr) /\ owned_once ssl'.
Proof.
  do 2 eexists. split; [reflexivity|].
  eapply (sni_callback_keeps_ownership example_ssl _ 1 7
            (example_env "a" 7 true)).
  - intros k1 k2 c H. unfold example_ssl in H. cbn [sniContexts] in H.
    rewrite lookup_empty in H. discriminate.
  - intros k H. unfold example_ssl in H. cbn [sniContexts] in H.
    rewrite lookup_empty in H. discriminate.
  - reflexivity.
Defined.

Lemma destroyTrie_nodup (d : Z) (l : list (list Z * Z)) :
  NoDup l.*1 ->
  (forall k1 k2 c, (k1, c) ∈ l -> (k2, c) ∈ l -> c <> d -> k1 = k2) ->
  NoDup (flat_map (fun kv => if negb (snd kv =? d) then [snd kv] else []) l).
Proof.
  induction l as [|[k c] l IH]; intros Hnd Hinj; cbn [flat_map];
    [constructor|].
  cbn [fmap list_fmap fst] in Hnd. apply NoDup_cons in Hnd as [Hk Hnd].
  assert (Hrest : NoDup (flat_map
            (fun kv => if negb (snd kv =? d) then [snd kv] else []) l)).
  { apply IH; [assumption|]. intros k1 k2 c0 H1 H2.
    apply Hinj; now right. }
  cbn [snd]. destruct (Z.eqb_spec c d) as [->|Hc]; cbn [negb app];
    [assumption|].
  constructor; [|assumption].
  intros Hin. apply list_elem_of_In, in_flat_map in Hin.
  destruct Hin as ([k' c'] & Hin & Hc'). cbn [snd] in Hc'.
  destruct (c' =? d); cbn [negb] in Hc'; [destruct Hc'|].
  destruct Hc' as [->|[]]. apply list_elem_of_In in Hin.
  assert (k = k') as <-
    by (apply (Hinj k k' c); [now left | now right | assumption]).
  apply Hk. apply list_elem_of_fmap. exists (k, c). auto.
Qed.

(** X7: [destroySSL] hands no context to [SSL_CTX_free] twice, when no
    context other than the default one is cached under two keys. *)
Theorem destroySSL_frees_once
        (dbg err : bool) (ssl : SSLSupport) (freed : list Z) :
  owned_once ssl ->
  destroySSL dbg err (Some ssl) = Done freed -> NoDup freed.
Proof.
  intros Ho. unfold destroySSL.
  assert (Hnd : NoDup (destroyTrie (sslDestroyCachedContext ssl)
                                   (sniContexts ssl))).
  { unfold destroyTrie, sslDestroyCachedContext.
    apply destroyTrie_nodup; [apply NoDup_fst_map_to_list|].
    intros k1 k2 c H1 H2. apply elem_of_map_to_list in H1, H2.
    now apply Ho. }
  destruct (negb (sslContext ssl =? 0)).
  - destruct (err && dbg); [discriminate|]. intros [= <-].
    apply NoDup_app. split; [assumption|]. split; [|apply NoDup_singleton].
    intros c Hc Hd. apply list_elem_of_singleton in Hd. subst c.
    apply list_elem_of_In in Hc.
    exact (destroyTrie_spares_default ssl _ Hc).
  - now intros [= <-].
Qed.

Lemma destroySSL_frees_once_witness :
  NoDup [7; 1].
Proof.
  apply (destroySSL_frees_once false false
           (with_sniContexts example_ssl {[ str "a" := 7; str "b" := 1 ]})).
  - intros k1 k2 c. cbn [with_sniContexts sniContexts sslContext example_ssl].
    intros H1 H2 Hc.
    apply lookup_insert_Some in H1 as [[E1 F1]|[_ H1]];
      apply lookup_insert_Some in H2 as [[E2 F2]|[_ H2]];
      try (apply lookup_singleton_Some in H1 as [E1 F1]);
      try (apply lookup_singleton_Some in H2 as [E2 F2]);
      subst; try reflexivity; congruence.
  - vm_compute. reflexivity.
Defined.

End Callback.

(** ** The PEM decoder *)

Section Decoder.

Import PEM.

Lemma is_prefix_spec (p s : list Z) :
  is_prefix p s = true <-> exists t, s = p ++ t.
Proof.
  revert s. induction p as [|a p IH]; intros s; simpl.
  - split; eauto.
  - destruct s as [|b s].
    + split; [discriminate | intros [t Ht]; discriminate].
    + rewrite andb_true_iff, IH, Z.eqb_eq. split.
      * intros [-> [t ->]]. eauto.
      * intros [t [= -> ->]]. eauto.
Qed.

Lemma strstr_none (needle hay : list Z) :
  strstr hay needle = None -> ~ occurs needle hay.
Proof.
  induction hay as [|h hay IH]; simpl.
  - destruct (is_prefix needle []) eqn:Hp; [discriminate|].
    intros _ (pre & post & H).
    destruct pre; [|discriminate]. simpl in H.
    assert (is_prefix needle [] = true)
      by (apply is_prefix_spec; eauto). congruence.
  - destruct (is_prefix needle (h :: hay)) eqn:Hp; [discriminate|].
    destruct (strstr hay needle); [discriminate|].
    intros _ (pre & post & H). destruct pre as [|x pre].
    + simpl in H.
      assert (is_prefix needle (h :: hay) = true)
        by (apply is_prefix_spec; eauto). congruence.
    + injection H as _ H. apply IH; [reflexivity|]. exists pre, post. exact H.
Qed.

Lemma strstr_some (needle hay : list Z) (n : nat) :
  strstr hay needle = Some n ->
  exists post, drop n hay = needle ++ post /\ (n <= length hay)%nat.
Proof.
  revert n. induction hay as [|h hay IH]; intros n; simpl.
  - destruct (is_prefix needle []) eqn:Hp; [|discriminate].
    intros [= <-]. apply is_prefix_spec in Hp. destruct Hp as [t Ht].
    exists t. split; [exact Ht | lia].
  - destruct (is_prefix needle (h :: hay)) eqn:Hp.
    + intros [= <-]. apply is_prefix_spec in Hp. destruct Hp as [t Ht].
      exists t. split; [exact Ht | lia].
    + destruct (strstr hay needle) as [m|]; [|discriminate].
      intros [= <-]. destruct (IH m eq_refl) as (post & Hd & Hl).
      exists post. split; [exact Hd | lia].
Qed.

Lemma strstr_absent (needle hay : list Z) :
  ~ occurs needle hay -> strstr hay needle = None.
Proof.
  intros Hno. destruct (strstr hay needle) as [n|] eqn:Hs; [|reflexivity].
  exfalso. apply Hno. destruct (strstr_some _ _ _ Hs) as (post & Hd & _).
  exists (take n hay), post. rewrite <- Hd. symmetry. apply take_drop.
Qed.

Lemma strstr_prefix (needle rest : list Z) :
  strstr (needle ++ rest) needle = Some O.
Proof.
  assert (Hp : is_prefix needle (needle ++ rest) = true)
    by (apply is_prefix_spec; eauto).
  destruct (needle ++ rest); simpl in *; now rewrite Hp.
Qed.

(** A needle that starts with a byte the text before it does not have is
    first found after that text. *)
Lemma strstr_after (x : Z) (body needle : list Z) :
  Forall (fun c => c <> x) body ->
  strstr (body ++ x :: needle) (x :: needle) = Some (length body).
Proof.
  induction 1 as [|b body Hb _ IH].
  - cbn [app length]. rewrite <- (app_nil_r (x :: needle)) at 1.
    apply strstr_prefix.
  - cbn [app strstr is_prefix length].
    destruct (Z.eqb_spec x b); [congruence|]. cbn [andb].
    now rewrite IH.
Qed.

Lemma occurs_drop (needle hay : list Z) (n : nat) :
  occurs needle (drop n hay) -> occurs needle hay.
Proof.
  intros (pre & post & H). exists (take n hay ++ pre), post.
  rewrite <- app_assoc, <- H. symmetry. apply take_drop.
Qed.

(** The markers. *)
Lemma begin_marker_eq (record : list Z) :
  begin_marker record = str "-----BEGIN " ++ c_str record ++ str "-----".
Proof. reflexivity. Qed.

Lemma end_marker_eq (record : list Z) :
  end_marker record = str "-----END " ++ c_str record ++ str "-----".
Proof. reflexivity. Qed.

Lemma str_nonzero_app (a b c : list Z) :
  Forall (fun x => x <> 0) a -> Forall (fun x => x <> 0) b ->
  Forall (fun x => x <> 0) c -> Forall (fun x => x <> 0) (a ++ b ++ c).
Proof. intros. repeat (apply Forall_app; split); assumption. Qed.

Lemma begin_marker_nonzero (record : list Z) :
  Forall (fun x => x <> 0) (begin_marker record).
Proof.
  rewrite begin_marker_eq. apply str_nonzero_app.
  - vm_compute. repeat constructor; discriminate.
  - apply c_str_nonzero.
  - vm_compute. repeat constructor; discriminate.
Qed.

Lemma end_marker_nonzero (record : list Z) :
  Forall (fun x => x <> 0) (end_marker record).
Proof.
  rewrite end_marker_eq. apply str_nonzero_app.
  - vm_compute. repeat constructor; discriminate.
  - apply c_str_nonzero.
  - vm_compute. repeat constructor; discriminate.
Qed.

(** The branches of [classify]. *)
Ltac classify_cases :=
  unfold classify, is_b64, is_space;
  repeat match goal with
         | |- context [if ?b then _ else _] => destruct b eqn:?
         end.

Lemma classify_sextet (ch v : Z) :
  classify ch = Sextet v ->
  0 <= v <= 63 /\ is_b64 ch = true /\ ch <> 61 /\ 32 < ch.
Proof.
  classify_cases; intros H; try discriminate H; injection H as <-;
    Z.div_mod_to_equations; lia.
Qed.

Lemma classify_pad (ch : Z) : classify ch = Pad -> ch = 61.
Proof. classify_cases; intros H; try discriminate H; lia. Qed.

Lemma classify_skip (ch : Z) : classify ch = Skip <-> is_space ch = true.
Proof.
  classify_cases; split; intros H; try discriminate; try reflexivity; lia.
Qed.

Lemma classify_bad (ch : Z) :
  classify ch = Bad <-> (32 < ch /\ ch <> 61 /\ is_b64 ch = false).
Proof.
  classify_cases; split; intros H; try discriminate; try reflexivity; lia.
Qed.

Lemma classify_b64_char (v : Z) :
  0 <= v < 64 -> classify (b64_char v) = Sextet v.
Proof.
  intros H. unfold b64_char.
  repeat match goal with
         | |- context [if ?b then _ else _] => destruct b eqn:?
         end;
    unfold classify;
    repeat match goal with
           | |- context [if ?b then _ else _] =>
               destruct b eqn:?; try lia
           end;
    f_equal; Z.div_mod_to_equations; lia.
Qed.

(** After a [=], a byte that is neither [=] nor white space. *)
Lemma pad_tail_false (s : list Z) (b : Z) :
  In b s -> b <> 61 -> 32 < b -> pad_tail s = false.
Proof.
  intros Hin H1 H2. unfold pad_tail.
  destruct (forallb _ s) eqn:Hf; [|reflexivity].
  rewrite forallb_forall in Hf. specialize (Hf b Hin). lia.
Qed.

Lemma spoiled_tail (ch : Z) (s : list Z) :
  spoiled (ch :: s) -> classify ch <> Bad -> ch <> 61 -> spoiled s.
Proof.
  intros [(b & [<- | Hin] & H1 & H2 & H3) | (pre & post & b & He & Hb)] Hc Hp.
  - exfalso. apply Hc, classify_bad. auto.
  - left. eauto.
  - destruct pre as [|x pre]; injection He as -> He; [congruence|].
    right. eauto.
Qed.

Lemma spoiled_pad (s : list Z) :
  spoiled (61 :: s) -> pad_tail s = false.
Proof.
  intros [(b & [<- | Hin] & H1 & H2 & H3) | (pre & post & b & He & Hb & H1 & H2)].
  - congruence.
  - eapply pad_tail_false; eauto.
  - apply (pad_tail_false s b); auto.
    destruct pre as [|x pre]; simpl in He; inversion He; subst; auto.
    apply in_or_app. right. right. assumption.
Qed.

Lemma decode_spoiled (s : list Z) :
  forall bits count out,
    count_ok count -> spoiled s ->
    exists freed, decode s bits count out = Malformed freed.
Proof.
  induction s as [|ch s IH]; intros bits count out Hc Hs.
  - destruct Hs as [(b & [] & _) | (pre & post & b & He & _)].
    destruct pre; discriminate.
  - cbn [decode]. destruct (classify ch) as [v| | |] eqn:Hcl.
    + destruct (classify_sextet _ _ Hcl) as (Hv & _ & Hne & _).
      assert (Hs' : spoiled s)
        by (apply (spoiled_tail ch); [assumption | congruence | assumption]).
      replace (negb (v <=? 63) || negb (0 <=? count) || negb (count <=? 6))
        with false by (unfold count_ok in Hc; lia).
      destruct (8 <=? count + 6) eqn:H8; apply IH; auto;
        unfold count_ok in *; lia.
    + apply classify_pad in Hcl. subst ch.
      rewrite (spoiled_pad s Hs). eauto.
    + apply IH; [assumption|]. apply (spoiled_tail ch); [assumption|congruence|].
      apply classify_skip in Hcl. unfold is_space in Hcl. lia.
    + eauto.
Qed.

(** A text of base64 characters and skipped bytes, without [=], is
    decoded to its end. *)
Lemma decode_clean (pre : list Z) :
  Forall (fun c => c <> 61 /\ (c <= 32 \/ is_b64 c = true)) pre ->
  forall bits count out,
    count_ok count -> exists ret, decode pre bits count out = Decoded ret.
Proof.
  induction 1 as [|ch pre [Hne Hch] _ IH]; intros bits count out Hc;
    cbn [decode]; [eauto|].
  destruct (classify ch) as [v| | |] eqn:Hcl.
  - destruct (classify_sextet _ _ Hcl) as (Hv & _).
    replace (negb (v <=? 63) || negb (0 <=? count) || negb (count <=? 6))
      with false by (unfold count_ok in Hc; lia).
    destruct (8 <=? count + 6) eqn:H8; apply IH; unfold count_ok in *; lia.
  - apply classify_pad in Hcl. contradiction.
  - apply IH; assumption.
  - apply classify_bad in Hcl. destruct Hcl as (H1 & _ & H3).
    destruct Hch; [lia | congruence].
Qed.

(** A byte the decoder rejects ends the decoding: the block is freed with
    the bytes written before it. *)
Lemma decode_bad (pre post : list Z) (b : Z) :
  Forall (fun c => c <> 61) pre -> classify b = Bad ->
  forall bits count out,
    decode (pre ++ b :: post) bits count out
    = match decode pre bits count out with
      | Decoded ret => Malformed ret
      | r => r
      end.
Proof.
  intros Hpre Hb. induction Hpre as [|ch pre Hch _ IH]; intros bits count out.
  - cbn [app decode]. now rewrite Hb.
  - cbn [app decode]. destruct (classify ch) as [v| | |] eqn:Hcl.
    + destruct (_ || _); [reflexivity|].
      destruct (8 <=? count + 6); apply IH.
    + apply classify_pad in Hcl. contradiction.
    + apply IH.
    + reflexivity.
Qed.

Lemma pad_tail_skip (pre post : list Z) (b : Z) :
  b <= 32 -> pad_tail (pre ++ b :: post) = pad_tail (pre ++ post).
Proof.
  intros Hb. unfold pad_tail. rewrite !forallb_app. cbn [forallb].
  replace (32 <? b) with false by lia. now rewrite andb_false_r.
Qed.

(** A byte up to the space is passed over, wherever it stands. *)
Lemma decode_skip (pre post : list Z) (b : Z) :
  b <= 32 ->
  forall bits count out,
    decode (pre ++ b :: post) bits count out
    = decode (pre ++ post) bits count out.
Proof.
  intros Hb. induction pre as [|ch pre IH]; intros bits count out.
  - cbn [app decode].
    assert (Hcl : classify b = Skip)
      by (apply classify_skip; unfold is_space; lia).
    now rewrite Hcl.
  - cbn [app decode]. destruct (classify ch) as [v| | |] eqn:Hcl.
    + destruct (_ || _); [reflexivity|].
      destruct (8 <=? count + 6); apply IH.
    + now rewrite pad_tail_skip.
    + apply IH.
    + reflexivity.
Qed.

(** No [check] of the loop fails, and the bytes written fit the block
    that was allocated. *)
Lemma decode_fits (s : list Z) :
  forall bits count out ret,
    count_ok count -> decode s bits count out = Decoded ret ->
    8 * Z.of_nat (length ret)
    <= 8 * Z.of_nat (length out) + count + 6 * Z.of_nat (length s).
Proof.
  induction s as [|ch s IH]; intros bits count out ret Hc.
  - cbn [decode]. intros [= <-]. unfold count_ok in Hc. simpl. lia.
  - cbn [decode length]. destruct (classify ch) as [v| | |] eqn:Hcl.
    + destruct (classify_sextet _ _ Hcl) as (Hv & _).
      replace (negb (v <=? 63) || negb (0 <=? count) || negb (count <=? 6))
        with false by (unfold count_ok in Hc; lia).
      destruct (8 <=? count + 6) eqn:H8; intros Hd; apply IH in Hd;
        try (unfold count_ok in *; lia).
      rewrite length_app in Hd. simpl in Hd. lia.
    + destruct (pad_tail s); [|discriminate]. intros [= <-].
      unfold count_ok in Hc. lia.
    + intros Hd. apply IH in Hd; [lia | assumption].
    + discriminate.
Qed.

Lemma decode_checks_hold (s : list Z) :
  forall bits count out,
    count_ok count -> decode s bits count out <> CheckFailed.
Proof.
  induction s as [|ch s IH]; intros bits count out Hc; cbn [decode].
  - discriminate.
  - destruct (classify ch) as [v| | |] eqn:Hcl.
    + destruct (classify_sextet _ _ Hcl) as (Hv & _).
      replace (negb (v <=? 63) || negb (0 <=? count) || negb (count <=? 6))
        with false by (unfold count_ok in Hc; lia).
      destruct (8 <=? count + 6) eqn:H8; apply IH; unfold count_ok in *; lia.
    + destruct (pad_tail s); discriminate.
    + apply IH; assumption.
    + discriminate.
Qed.

(** White space is skipped. *)
Lemma pad_tail_strip (s : list Z) : pad_tail (strip_space s) = pad_tail s.
Proof.
  unfold pad_tail, strip_space.
  induction s as [|ch s IH]; [reflexivity|].
  rewrite filter_cons. cbn [forallb].
  destruct (decide (is_space ch = false)) as [Hsp|Hsp].
  - cbn [forallb]. now rewrite IH.
  - rewrite IH. unfold is_space in Hsp.
    replace (negb (negb (ch =? 61) && (32 <? ch))) with true by lia.
    reflexivity.
Qed.

Lemma decode_strip (s : list Z) :
  forall bits count out,
    decode (strip_space s) bits count out = decode s bits count out.
Proof.
  induction s as [|ch s IH]; intros bits count out; [reflexivity|].
  unfold strip_space in *. rewrite filter_cons.
  destruct (decide (is_space ch = false)) as [Hsp|Hsp].
  - cbn [decode]. destruct (classify ch) as [v| | |] eqn:Hcl.
    + destruct (_ || _); [reflexivity|].
      destruct (8 <=? count + 6); apply IH.
    + fold (strip_space s). now rewrite pad_tail_strip.
    + apply IH.
    + reflexivity.
  - cbn [decode].
    assert (Hcl : classify ch = Skip)
      by (apply classify_skip; destruct (is_space ch); congruence).
    rewrite Hcl. apply IH.
Qed.

(** The accumulator: six bits shifted in within 32 bits. *)
Lemma land_shiftl_small (q v : Z) :
  0 <= v < 64 -> Z.land (Z.shiftl q 6) v = 0.
Proof.
  intros Hv. apply Z.bits_inj'. intros n Hn.
  rewrite Z.land_spec, Z.bits_0.
  destruct (Z.lt_ge_cases n 6) as [Hlt|Hge].
  - now rewrite Z.shiftl_spec_low.
  - rewrite <- (Z.mod_small v (2 ^ 6)) by (change (2 ^ 6) with 64; lia).
    rewrite Z.mod_pow2_bits_high by lia. apply andb_false_r.
Qed.

Lemma push_sextet (bits v : Z) :
  0 <= v < 64 ->
  Z.lor (Z.shiftl bits 6 mod 2 ^ 32) v = bits mod 67108864 * 64 + v.
Proof.
  intros Hv. rewrite Z.shiftl_mul_pow2 by lia.
  change (2 ^ 32) with (67108864 * 2 ^ 6).
  rewrite Z.mul_mod_distr_r by lia.
  rewrite <- Z.shiftl_mul_pow2 by lia.
  rewrite <- Z.lxor_lor by (now apply land_shiftl_small).
  rewrite <- Z.add_nocarry_lxor by (now apply land_shiftl_small).
  rewrite Z.shiftl_mul_pow2 by lia. reflexivity.
Qed.

Lemma out_byte (bits count : Z) :
  0 <= count ->
  Z.land (Z.shiftr bits count) 255 = bits / 2 ^ count mod 256.
Proof.
  intros Hc. rewrite Z.shiftr_div_pow2 by assumption.
  change 255 with (Z.ones 8). now rewrite Z.land_ones by lia.
Qed.

(** One turn of the loop on a byte of the alphabet. *)
Lemma decode_sextet_first (ch v : Z) (s : list Z) (bits : Z) (out : list Z) :
  classify ch = Sextet v ->
  decode (ch :: s) bits 0 out = decode s (bits mod 67108864 * 64 + v) 6 out.
Proof.
  intros Hcl. cbn [decode]. rewrite Hcl.
  destruct (classify_sextet _ _ Hcl) as (Hv & _).
  replace (negb (v <=? 63)) with false by lia. cbn [negb orb Z.leb Z.compare].
  cbv iota. rewrite push_sextet by lia. reflexivity.
Qed.

Lemma decode_sextet_next (ch v : Z) (s : list Z) (bits count : Z)
      (out : list Z) :
  classify ch = Sextet v ->
  count = 2 \/ count = 4 \/ count = 6 ->
  decode (ch :: s) bits count out
  = decode s (bits mod 67108864 * 64 + v) (count - 2)
      (out ++ [(bits mod 67108864 * 64 + v) / 2 ^ (count - 2) mod 256]).
Proof.
  intros Hcl Hc. cbn [decode]. rewrite Hcl.
  destruct (classify_sextet _ _ Hcl) as (Hv & _).
  replace (negb (v <=? 63) || negb (0 <=? count) || negb (count <=? 6))
    with false by lia.
  replace (8 <=? count + 6) with true by lia.
  replace (count + 6 - 8) with (count - 2) by lia.
  rewrite push_sextet by lia. rewrite out_byte by lia. reflexivity.
Qed.

Lemma list_ind3 (P : list Z -> Prop) :
  P [] -> (forall a, P [a]) -> (forall a b, P [a; b]) ->
  (forall a b c l, P l -> P (a :: b :: c :: l)) ->
  forall l, P l.
Proof.
  intros H0 H1 H2 H3 l.
  enough (H : P l /\ (forall a, P (a :: l)) /\ (forall a b, P (a :: b :: l)))
    by apply H.
  induction l as [|x l (IH0 & IH1 & IH2)]; auto.
Qed.

Lemma sextet_ranges (a b c : Z) :
  is_byte a -> is_byte b -> is_byte c ->
  0 <= a / 4 < 64 /\ 0 <= a mod 4 * 16 < 64 /\
  0 <= a mod 4 * 16 + b / 16 < 64 /\ 0 <= b mod 16 * 4 < 64 /\
  0 <= b mod 16 * 4 + c / 64 < 64 /\ 0 <= c mod 64 < 64.
Proof. unfold is_byte. intros. Z.div_mod_to_equations. lia. Qed.

(** The three bytes that four sextets carry. *)
Lemma regroup_first (x s1 s2 a : Z) :
  is_byte a -> s1 = a / 4 -> 0 <= s2 < 64 -> s2 / 16 = a mod 4 ->
  ((x mod 67108864 * 64 + s1) mod 67108864 * 64 + s2) / 2 ^ (6 - 2) mod 256
  = a.
Proof.
  unfold is_byte. intros Ha -> Hs Hq. change (2 ^ (6 - 2)) with 16.
  Z.div_mod_to_equations. lia.
Qed.

Lemma regroup_second (y s2 s3 b : Z) :
  is_byte b -> 0 <= s2 < 64 -> s2 mod 16 = b / 16 ->
  0 <= s3 < 64 -> s3 / 4 = b mod 16 ->
  ((y * 64 + s2) mod 67108864 * 64 + s3) / 2 ^ (4 - 2) mod 256 = b.
Proof.
  unfold is_byte. intros Hb Hs2 Hm Hs3 Hq. change (2 ^ (4 - 2)) with 4.
  Z.div_mod_to_equations. lia.
Qed.

Lemma regroup_third (z s3 s4 c : Z) :
  is_byte c -> 0 <= s3 < 64 -> s3 mod 4 = c / 64 -> s4 = c mod 64 ->
  ((z * 64 + s3) mod 67108864 * 64 + s4) / 2 ^ (2 - 2) mod 256 = c.
Proof.
  unfold is_byte. intros Hc Hs3 Hm ->. change (2 ^ (2 - 2)) with 1.
  Z.div_mod_to_equations. lia.
Qed.

(** Decoding what the encoder wrote. *)
Lemma decode_encode (l : list Z) :
  Forall is_byte l ->
  forall bits out,
    decode (base64_encode l) bits 0 out = Decoded (out ++ l).
Proof.
  induction l as [|a|a b|a b c l IH] using list_ind3; intros Hl bits out.
  - simpl. now rewrite app_nil_r.
  - inversion_clear Hl as [|? ? Ha _].
    destruct (sextet_ranges a 0 0 Ha) as (R1 & R2 & _);
      [unfold is_byte; lia | unfold is_byte; lia|].
    cbn [base64_encode].
    rewrite (decode_sextet_first _ _ _ _ _ (classify_b64_char _ R1)).
    rewrite (decode_sextet_next _ _ _ _ _ _ (classify_b64_char _ R2))
      by auto.
    rewrite (regroup_first _ _ _ a);
      [reflexivity | assumption | reflexivity | assumption |].
    Z.div_mod_to_equations. lia.
  - inversion_clear Hl as [|? ? Ha Hl']. inversion_clear Hl' as [|? ? Hb _].
    destruct (sextet_ranges a b 0 Ha Hb) as (R1 & _ & R2 & R3 & _);
      [unfold is_byte; lia|].
    cbn [base64_encode].
    rewrite (decode_sextet_first _ _ _ _ _ (classify_b64_char _ R1)).
    rewrite (decode_sextet_next _ _ _ _ _ _ (classify_b64_char _ R2))
      by auto.
    rewrite (regroup_first _ _ _ a);
      [| assumption | reflexivity | assumption
       | unfold is_byte in *; Z.div_mod_to_equations; lia].
    change (6 - 2) with 4.
    rewrite (decode_sextet_next _ _ _ _ _ _ (classify_b64_char _ R3))
      by auto.
    rewrite (regroup_second _ _ _ b);
      [| assumption | assumption
       | unfold is_byte in *; Z.div_mod_to_equations; lia
       | assumption
       | unfold is_byte in *; Z.div_mod_to_equations; lia].
    cbn. now rewrite <- app_assoc.
  - inversion_clear Hl as [|? ? Ha Hl']. inversion_clear Hl' as [|? ? Hb Hl''].
    inversion_clear Hl'' as [|? ? Hc Hl].
    destruct (sextet_ranges a b c Ha Hb Hc) as (R1 & _ & R2 & _ & R3 & R4).
    cbn [base64_encode].
    rewrite (decode_sextet_first _ _ _ _ _ (classify_b64_char _ R1)).
    rewrite (decode_sextet_next _ _ _ _ _ _ (classify_b64_char _ R2))
      by auto.
    rewrite (regroup_first _ _ _ a);
      [| assumption | reflexivity | assumption
       | unfold is_byte in *; Z.div_mod_to_equations; lia].
    change (6 - 2) with 4.
    rewrite (decode_sextet_next _ _ _ _ _ _ (classify_b64_char _ R3))
      by auto.
    rewrite (regroup_second _ _ _ b);
      [| assumption | assumption
       | unfold is_byte in *; Z.div_mod_to_equations; lia
       | assumption
       | unfold is_byte in *; Z.div_mod_to_equations; lia].
    change (4 - 2) with 2.
    rewrite (decode_sextet_next _ _ _ _ _ _ (classify_b64_char _ R4))
      by auto.
    rewrite (regroup_third _ _ _ c);
      [| assumption | assumption
       | unfold is_byte in *; Z.div_mod_to_equations; lia
       | reflexivity].
    change (2 - 2) with 0.
    rewrite IH by assumption. now rewrite <- !app_assoc.
Qed.

(** The encoder writes bytes of the alphabet and [=]. *)
Lemma b64_char_alphabet (v : Z) : 0 <= v < 64 -> is_b64 (b64_char v) = true.
Proof.
  intros Hv. pose proof (classify_b64_char v Hv) as Hcl.
  now destruct (classify_sextet _ _ Hcl) as (_ & H & _).
Qed.

Ltac solve_alphabet :=
  repeat (apply List.Forall_cons;
          [first [left; apply b64_char_alphabet; assumption
                 | right; reflexivity]|]);
  try apply List.Forall_nil.

Lemma base64_encode_alphabet (l : list Z) :
  Forall is_byte l ->
  Forall (fun ch => is_b64 ch = true \/ ch = 61) (base64_encode l).
Proof.
  induction l as [|a|a b|a b c l IH] using list_ind3; intros Hl.
  - constructor.
  - inversion_clear Hl as [|? ? Ha _].
    destruct (sextet_ranges a 0 0 Ha) as (R1 & R2 & _);
      [unfold is_byte; lia | unfold is_byte; lia|].
    cbn [base64_encode]. solve_alphabet.
  - inversion_clear Hl as [|? ? Ha Hl']. inversion_clear Hl' as [|? ? Hb _].
    destruct (sextet_ranges a b 0 Ha Hb) as (R1 & _ & R2 & R3 & _);
      [unfold is_byte; lia|].
    cbn [base64_encode]. solve_alphabet.
  - inversion_clear Hl as [|? ? Ha Hl']. inversion_clear Hl' as [|? ? Hb Hl''].
    inversion_clear Hl'' as [|? ? Hc Hl].
    destruct (sextet_ranges a b c Ha Hb Hc) as (R1 & _ & R2 & _ & R3 & R4).
    cbn [base64_encode]. solve_alphabet. apply IH. assumption.
Qed.

Lemma base64_encode_no_space (l : list Z) :
  Forall is_byte l -> strip_space (base64_encode l) = base64_encode l.
Proof.
  intros Hl. pose proof (base64_encode_alphabet l Hl) as H.
  unfold strip_space. induction H as [|ch r Hch _ IH]; [reflexivity|].
  rewrite filter_cons.
  destruct (decide (is_space ch = false)) as [_|Hn]; [now rewrite IH|].
  exfalso. apply Hn. unfold is_space, is_b64 in *. lia.
Qed.

(** A text that holds an encoding and white space has no dash and, when
    the white space is not NUL, no NUL. *)
Lemma spaced_body_no_dash (body l : list Z) :
  Forall is_byte l -> strip_space body = base64_encode l ->
  Forall (fun c => c <> 45) body.
Proof.
  intros Hl He. apply Forall_forall. intros ch Hin.
  destruct (is_space ch) eqn:Hsp; [unfold is_space in Hsp; lia|].
  assert (Hin' : ch ∈ strip_space body).
  { unfold strip_space. apply list_elem_of_filter. split; [assumption|].
    exact Hin. }
  rewrite He in Hin'.
  pose proof (base64_encode_alphabet l Hl) as Ha.
  rewrite Forall_forall in Ha. specialize (Ha ch Hin').
  unfold is_b64 in Ha. lia.
Qed.

(** An armored block decodes to the bytes that were encoded, with any
    white space but NUL in between. *)
Lemma pem_decode_armored (record bytes body : list Z) :
  Forall is_byte bytes ->
  Forall (fun c => c <> 0) body ->
  strip_space body = base64_encode bytes ->
  sslPEMtoASN1 (armor record body) record = Decoded bytes.
Proof.
  intros Hb Hnz He. unfold sslPEMtoASN1, armor.
  rewrite c_str_fixed
    by (apply str_nonzero_app;
        [apply begin_marker_nonzero | assumption | apply end_marker_nonzero]).
  rewrite strstr_prefix. cbn [Nat.add].
  rewrite drop_app_length.
  assert (Hend : exists t, end_marker record = 45 :: t)
    by (rewrite end_marker_eq; eexists; reflexivity).
  destruct Hend as [t Ht]. rewrite Ht.
  rewrite (strstr_after 45 body t (spaced_body_no_dash _ _ Hb He)).
  rewrite take_app_length.
  pose proof (decode_strip body 0 0 []) as Hd.
  rewrite He, decode_encode in Hd by assumption. cbn [app] in Hd.
  rewrite <- Hd.
  assert (Hfit := decode_fits body 0 0 [] bytes (or_introl eq_refl)
                    (eq_sym Hd)).
  cbn [length] in Hfit.
  replace (_ <=? _) with true; [reflexivity|].
  symmetry. apply Z.leb_le. Z.div_mod_to_equations. lia.
Qed.

(** C8: a byte sequence encoded in standard base64 and put between the
    BEGIN and END markers of a label decodes to the same bytes, and the
    size returned is their number. *)
Theorem pem_roundtrip (record bytes : list Z) :
  Forall is_byte bytes ->
  sslPEMtoASN1 (armor record (base64_encode bytes)) record = Decoded bytes /\
  ret_of (sslPEMtoASN1 (armor record (base64_encode bytes)) record)
  = Some bytes /\
  size_of (sslPEMtoASN1 (armor record (base64_encode bytes)) record)
  = Z.of_nat (length bytes).
Proof.
  intros Hb.
  assert (H : sslPEMtoASN1 (armor record (base64_encode bytes)) record
              = Decoded bytes).
  { apply pem_decode_armored; [assumption | | now apply base64_encode_no_space].
    eapply Forall_impl; [apply (base64_encode_alphabet bytes Hb)|].
    intros ch Hch. unfold is_b64 in Hch. cbv beta in Hch. lia. }
  rewrite H. auto.
Qed.

Lemma pem_roundtrip_witness :
  sslPEMtoASN1 (armor (str "RSA PRIVATE KEY") (str "AAH+/w=="))
               (str "RSA PRIVATE KEY")
  = Decoded [0; 1; 254; 255].
Proof.
  apply (pem_roundtrip (str "RSA PRIVATE KEY") [0; 1; 254; 255]).
  repeat constructor; unfold is_byte; lia.
Defined.

(** A [=] ends the decoding: what follows is only checked, and the bytes
    written before it are the result. *)
Lemma decode_pad (pre post : list Z) :
  Forall (fun b => b <> 61) pre ->
  forall bits count out,
    decode (pre ++ 61 :: post) bits count out
    = match decode pre bits count out with
      | Decoded ret => if pad_tail post then Decoded ret else Malformed ret
      | r => r
      end.
Proof.
  induction 1 as [|ch pre Hch _ IH]; intros bits count out.
  - reflexivity.
  - cbn [app decode]. destruct (classify ch) as [v| | |] eqn:Hcl.
    + destruct (_ || _); [reflexivity|].
      destruct (8 <=? count + 6); apply IH.
    + apply classify_pad in Hcl. contradiction.
    + apply IH.
    + reflexivity.
Qed.

(** C6, as it is stated, fails: the byte 1 is outside the base64
    alphabet, is not [=] and is not white space, and a block that holds it
    is decoded all the same, to the payload [77]. *)
Lemma pem_control_byte_is_skipped :
  ~ (forall pem record off e body,
        strstr (c_str pem) (begin_marker record) = Some off ->
        strstr (drop (off + length (begin_marker record))%nat (c_str pem))
               (end_marker record) = Some e ->
        body = take e (drop (off + length (begin_marker record))%nat
                            (c_str pem)) ->
        (exists b, In b body /\ is_b64 b = false /\ b <> 61 /\
                   spec_whitespace b = false) ->
        ret_of (sslPEMtoASN1 pem record) = None).
Proof.
  intros H.
  specialize (H (armor (str "CERTIFICATE") [84; 1; 81; 61; 61])
                (str "CERTIFICATE") O 5%nat [84; 1; 81; 61; 61]).
  assert (Hr : ret_of (sslPEMtoASN1
                         (armor (str "CERTIFICATE") [84; 1; 81; 61; 61])
                         (str "CERTIFICATE")) = Some [77])
    by (vm_compute; reflexivity).
  rewrite Hr in H. clear Hr.
  assert (Hnone : Some [77] = None :> option (list Z)); [|discriminate Hnone].
  apply H.
  - vm_compute. reflexivity.
  - vm_compute. reflexivity.
  - vm_compute. reflexivity.
  - exists 1. split; [right; left; reflexivity|].
    split; [reflexivity|]. split; [discriminate | reflexivity].
Qed.

(** C6, amended: when the BEGIN marker of the label does not occur, or
    the END marker does not occur (at all, or after the BEGIN marker), the
    decoder returns NULL without having allocated anything.  With both
    markers found, a byte between them that is greater than the space,
    outside the base64 alphabet and not [=] ends the decoding with an
    error, and so does, after a [=], a byte that is greater than the
    space and not [=]; a [=] ends the decoding with the bytes written
    before it; a byte up to the space (white space and control bytes
    alike) is passed over.  On an error NULL is returned and the block
    allocated for the result has been freed; at the first such byte it
    holds the bytes decoded from the text before that byte. *)
Theorem pem_absent_or_malformed (pem record : list Z) :
  (~ occurs (begin_marker record) (c_str pem) ->
   sslPEMtoASN1 pem record = Absent) /\
  (~ occurs (end_marker record) (c_str pem) ->
   sslPEMtoASN1 pem record = Absent) /\
  (forall off,
     strstr (c_str pem) (begin_marker record) = Some off ->
     ~ occurs (end_marker record)
         (drop (off + length (begin_marker record))%nat (c_str pem)) ->
     sslPEMtoASN1 pem record = Absent) /\
  (forall off e body,
     strstr (c_str pem) (begin_marker record) = Some off ->
     strstr (drop (off + length (begin_marker record))%nat (c_str pem))
            (end_marker record) = Some e ->
     body = take e (drop (off + length (begin_marker record))%nat (c_str pem)) ->
     ((exists b, In b body /\ 32 < b /\ b <> 61 /\ is_b64 b = false) ->
      exists freed, sslPEMtoASN1 pem record = Malformed freed) /\
     (forall pre post b,
        body = pre ++ 61 :: post -> In b post -> b <> 61 -> 32 < b ->
        exists freed, sslPEMtoASN1 pem record = Malformed freed) /\
     (forall pre b post,
        body = pre ++ b :: post ->
        Forall (fun c => c <> 61 /\ (c <= 32 \/ is_b64 c = true)) pre ->
        (32 < b /\ b <> 61 /\ is_b64 b = false) \/
        (b = 61 /\ exists x, In x post /\ x <> 61 /\ 32 < x) ->
        exists freed,
          decode pre 0 0 [] = Decoded freed /\
          sslPEMtoASN1 pem record = Malformed freed)) /\
  (forall pre post bits count out,
     Forall (fun b => b <> 61) pre ->
     decode (pre ++ 61 :: post) bits count out
     = match decode pre bits count out with
       | Decoded ret => if pad_tail post then Decoded ret else Malformed ret
       | r => r
       end) /\
  (forall pre b post bits count out,
     b <= 32 ->
     decode (pre ++ b :: post) bits count out
     = decode (pre ++ post) bits count out).
Proof.
  split; [|split; [|split; [|split; [|split]]]];
    [| | | |intros pre post bits count out Hpre; now apply decode_pad
     |intros pre b post bits count out Hb; now apply decode_skip].
  - intros Hno. unfold sslPEMtoASN1. now rewrite strstr_absent.
  - intros Hno. unfold sslPEMtoASN1.
    destruct (strstr (c_str pem) (begin_marker record)); [|reflexivity].
    rewrite strstr_absent; [reflexivity|].
    intros Hocc. apply Hno. eapply occurs_drop. exact Hocc.
  - intros off Hb Hno. unfold sslPEMtoASN1. rewrite Hb.
    now rewrite strstr_absent.
  - intros off e body Hb He ->.
    assert (Hsp : spoiled
              (take e (drop (off + length (begin_marker record))%nat
                            (c_str pem))) ->
            exists freed, sslPEMtoASN1 pem record = Malformed freed).
    { intros Hs. unfold sslPEMtoASN1. rewrite Hb, He.
      destruct (decode_spoiled _ 0 0 [] (or_introl eq_refl) Hs)
        as (freed & ->).
      eauto. }
    split; [|split].
    + intros Hbad. apply Hsp. left. exact Hbad.
    + intros pre post b Hsplit Hin H1 H2. apply Hsp. right.
      exists pre, post, b. auto.
    + intros pre b post Hsplit Hpre Hbad.
      destruct (decode_clean pre Hpre 0 0 [] (or_introl eq_refl))
        as (freed & Hd).
      exists freed. split; [assumption|].
      assert (Hne : Forall (fun c => c <> 61) pre)
        by (eapply Forall_impl; [exact Hpre | now intros c [Hc _]]).
      unfold sslPEMtoASN1. rewrite Hb, He, Hsplit.
      destruct Hbad as [Hbad | (-> & x & Hin & Hx1 & Hx2)].
      * rewrite (decode_bad pre post b Hne (proj2 (classify_bad b) Hbad)).
        now rewrite Hd.
      * rewrite (decode_pad pre post Hne), Hd.
        now rewrite (pad_tail_false post x Hin Hx1 Hx2).
Qed.

Lemma pem_absent_or_malformed_witness :
  sslPEMtoASN1 (str "-----BEGIN CERTIFICATE-----TQ==-----END CERTIFICATE-----")
               (str "DSA PRIVATE KEY") = Absent /\
  sslPEMtoASN1 (str "-----BEGIN CERTIFICATE-----TQ==") (str "CERTIFICATE")
  = Absent /\
  (exists freed,
     decode (str "T") 0 0 [] = Decoded freed /\
     sslPEMtoASN1
       (str "-----BEGIN CERTIFICATE-----T*Q=-----END CERTIFICATE-----")
       (str "CERTIFICATE") = Malformed freed) /\
  (exists freed,
     decode (str "TQ") 0 0 [] = Decoded freed /\
     sslPEMtoASN1
       (str "-----BEGIN CERTIFICATE-----TQ=x-----END CERTIFICATE-----")
       (str "CERTIFICATE") = Malformed freed).
Proof.
  split; [|split; [|split]].
  - apply (pem_absent_or_malformed
             (str "-----BEGIN CERTIFICATE-----TQ==-----END CERTIFICATE-----")
             (str "DSA PRIVATE KEY")).
    apply strstr_none. vm_compute. reflexivity.
  - apply (pem_absent_or_malformed
             (str "-----BEGIN CERTIFICATE-----TQ==") (str "CERTIFICATE")).
    apply strstr_none. vm_compute. reflexivity.
  - refine (proj2 (proj2 (proj1 (proj2 (proj2 (proj2 (pem_absent_or_malformed
             (str "-----BEGIN CERTIFICATE-----T*Q=-----END CERTIFICATE-----")
             (str "CERTIFICATE"))))) O 4%nat (str "T*Q=") _ _ _))
             (str "T") 42 (str "Q=") _ _ _).
    + vm_compute. reflexivity.
    + vm_compute. reflexivity.
    + vm_compute. reflexivity.
    + reflexivity.
    + repeat (apply Forall_cons; split;
              [split; [discriminate | right; reflexivity]|]).
      apply Forall_nil. exact I.
    + left. split; [reflexivity|]. split; [discriminate | reflexivity].
  - refine (proj2 (proj2 (proj1 (proj2 (proj2 (proj2 (pem_absent_or_malformed
             (str "-----BEGIN CERTIFICATE-----TQ=x-----END CERTIFICATE-----")
             (str "CERTIFICATE"))))) O 4%nat (str "TQ=x") _ _ _))
             (str "TQ") 61 (str "x") _ _ _).
    + vm_compute. reflexivity.
    + vm_compute. reflexivity.
    + vm_compute. reflexivity.
    + reflexivity.
    + repeat (apply Forall_cons; split;
              [split; [discriminate | right; reflexivity]|]).
      apply Forall_nil. exact I.
    + right. split; [reflexivity|]. exists 120.
      split; [left; reflexivity|]. split; [discriminate | reflexivity].
Defined.

(** A needle that starts with a byte the text before it does not have
    is first found after that text, whatever follows the needle. *)
Lemma strstr_after_app (x : Z) (body needle rest : list Z) :
  Forall (fun c => c <> x) body ->
  strstr (body ++ (x :: needle) ++ rest) (x :: needle) = Some (length body).
Proof.
  induction 1 as [|b body Hb _ IH].
  - exact (strstr_prefix (x :: needle) rest).
  - cbn [app strstr is_prefix length].
    destruct (Z.eqb_spec x b); [congruence|]. cbn [andb].
    cbn [app] in IH. now rewrite IH.
Qed.

(** The result on a text that holds one block is the decoding of the
    block's body: what stands before the block (no dash, no NUL) and
    after it is not looked at. *)
Lemma pem_decode_block (record pre body post : list Z) :
  Forall (fun c => c <> 0 /\ c <> 45) pre ->
  Forall (fun c => c <> 0 /\ c <> 45) body ->
  sslPEMtoASN1 (pre ++ armor record body ++ post) record
  = decode body 0 0 [].
Proof.
  intros Hpre Hbody. unfold sslPEMtoASN1, armor.
  assert (Hnz : forall l, Forall (fun c => c <> 0 /\ c <> 45) l ->
                          Forall (fun c => c <> 0) l)
    by (intros l Hf; eapply Forall_impl; [exact Hf | cbv beta; tauto]).
  assert (Hnd : forall l, Forall (fun c => c <> 0 /\ c <> 45) l ->
                          Forall (fun c => c <> 45) l)
    by (intros l Hf; eapply Forall_impl; [exact Hf | cbv beta; tauto]).
  rewrite <- !app_assoc.
  rewrite (c_str_app pre) by auto.
  rewrite (c_str_app (begin_marker record)) by apply begin_marker_nonzero.
  rewrite (c_str_app body) by auto.
  rewrite (c_str_app (end_marker record)) by apply end_marker_nonzero.
  assert (Hb : exists t, begin_marker record = 45 :: t)
    by (rewrite begin_marker_eq; eexists; reflexivity).
  assert (He : exists t, end_marker record = 45 :: t)
    by (rewrite end_marker_eq; eexists; reflexivity).
  destruct Hb as [tb Hb]. destruct He as [te He].
  assert (Hs1 : forall rest,
             strstr (pre ++ begin_marker record ++ rest) (begin_marker record)
             = Some (length pre))
    by (intros rest; rewrite Hb; apply strstr_after_app; auto).
  assert (Hs2 : forall rest,
             strstr (body ++ end_marker record ++ rest) (end_marker record)
             = Some (length body))
    by (intros rest; rewrite He; apply strstr_after_app; auto).
  rewrite Hs1.
  rewrite (app_assoc pre), <- length_app, drop_app_length.
  rewrite Hs2, take_app_length.
  destruct (decode body 0 0 []) as [| |out|] eqn:Hd; try reflexivity.
  pose proof (decode_fits body 0 0 [] out (or_introl eq_refl) Hd) as Hfit.
  cbn [length] in Hfit.
  replace (_ <=? _) with true; [reflexivity|].
  symmetry. apply Z.leb_le. Z.div_mod_to_equations. lia.
Qed.

(** What the encoder writes: bytes of the alphabet, then at most two
    [=]. *)
Lemma base64_encode_split (l : list Z) :
  Forall is_byte l ->
  exists pre pads,
    base64_encode l = pre ++ pads /\
    Forall (fun ch => is_b64 ch = true) pre /\
    Forall (fun ch => ch = 61) pads.
Proof.
  induction l as [|a|a b|a b c l IH] using list_ind3; intros Hl.
  - exists [], []. repeat split; constructor.
  - inversion_clear Hl as [|? ? Ha _].
    destruct (sextet_ranges a 0 0 Ha) as (R1 & R2 & _);
      [unfold is_byte; lia | unfold is_byte; lia|].
    exists [b64_char (a / 4); b64_char (a mod 4 * 16)], [61; 61].
    split; [reflexivity|].
    split; repeat constructor; now apply b64_char_alphabet.
  - inversion_clear Hl as [|? ? Ha Hl']. inversion_clear Hl' as [|? ? Hb _].
    destruct (sextet_ranges a b 0 Ha Hb) as (R1 & _ & R2 & R3 & _);
      [unfold is_byte; lia|].
    exists [b64_char (a / 4); b64_char (a mod 4 * 16 + b / 16);
            b64_char (b mod 16 * 4)], [61].
    split; [reflexivity|].
    split; repeat constructor; now apply b64_char_alphabet.
  - inversion_clear Hl as [|? ? Ha Hl']. inversion_clear Hl' as [|? ? Hb Hl''].
    inversion_clear Hl'' as [|? ? Hc Hl].
    destruct (sextet_ranges a b c Ha Hb Hc) as (R1 & _ & R2 & _ & R3 & R4).
    destruct (IH Hl) as (pre & pads & He & Hp & Hq).
    exists (b64_char (a / 4) :: b64_char (a mod 4 * 16 + b / 16) ::
            b64_char (b mod 16 * 4 + c / 64) :: b64_char (c mod 64) :: pre),
           pads.
    split; [cbn [base64_encode app]; now rewrite He|].
    split; [|assumption].
    repeat (apply List.Forall_cons; [now apply b64_char_alphabet|]).
    assumption.
Qed.

(** Without its [=] the encoding decodes to the same bytes. *)
Lemma decode_unpadded (l : list Z) :
  Forall is_byte l ->
  Forall (fun ch => is_b64 ch = true)
         (filter (fun ch => ch <> 61) (base64_encode l)) /\
  decode (filter (fun ch => ch <> 61) (base64_encode l)) 0 0 [] = Decoded l.
Proof.
  intros Hl. destruct (base64_encode_split l Hl) as (pre & pads & He & Hp & Hq).
  assert (Hf : filter (fun ch => ch <> 61) (base64_encode l) = pre).
  { rewrite He, filter_app.
    replace (filter (fun ch => ch <> 61) pads) with (@nil Z).
    - rewrite app_nil_r. clear He. induction Hp as [|ch r Hch _ IH];
        [reflexivity|].
      rewrite filter_cons.
      destruct (decide (ch <> 61)) as [_|Hn]; [now rewrite IH|].
      exfalso. apply Hn. unfold is_b64 in Hch. lia.
    - clear He. induction Hq as [|ch r Hch _ IH]; [reflexivity|].
      rewrite filter_cons. destruct (decide (ch <> 61)); [contradiction|].
      exact IH. }
  rewrite Hf. split; [assumption|].
  pose proof (decode_encode l Hl 0 []) as Hd. rewrite He in Hd.
  cbn [app] in Hd.
  destruct Hq as [|p pads Hp61 Hq]; [now rewrite app_nil_r in Hd|].
  subst p. rewrite decode_pad in Hd.
  - destruct (decode pre 0 0 []) as [| |out|]; try discriminate.
    + destruct (pad_tail pads); [assumption | discriminate].
  - eapply Forall_impl; [exact Hp|]. intros ch Hch. cbv beta in Hch.
    unfold is_b64 in Hch. lia.
Qed.

Lemma sslPEMtoASN1_checks (pem record : list Z) :
  sslPEMtoASN1 pem record <> CheckFailed.
Proof.
  unfold sslPEMtoASN1.
  destruct (strstr _ _) as [off|]; [|discriminate].
  destruct (strstr _ _) as [e|]; [|discriminate].
  set (body := take e _).
  destruct (decode body 0 0 []) as [| |out|] eqn:Hd; try discriminate.
  - pose proof (decode_fits body 0 0 [] out (or_introl eq_refl) Hd) as Hfit.
    cbn [length] in Hfit.
    replace (_ <=? _) with true; [discriminate|].
    symmetry. apply Z.leb_le. Z.div_mod_to_equations. lia.
  - exfalso. apply (decode_checks_hold body 0 0 [] (or_introl eq_refl) Hd).
Qed.

(** X8: no [check] of the decoder fails, on any text and label: a sextet is
    at most 63, the bit count stays between 0 and 6, and the bytes
    written fit the block that was allocated for them. *)
Theorem pem_checks_never_fail (pem record : list Z) :
  sslPEMtoASN1 pem record <> CheckFailed.
Proof. apply sslPEMtoASN1_checks. Qed.

(** X9: the bytes returned are at most three quarters of what the text holds
    besides the two markers. *)
Theorem pem_size_bound (pem record ret : list Z) :
  sslPEMtoASN1 pem record = Decoded ret ->
  8 * Z.of_nat (length ret)
  <= 6 * (Z.of_nat (strlen pem)
          - Z.of_nat (length (begin_marker record))
          - Z.of_nat (length (end_marker record))).
Proof.
  unfold sslPEMtoASN1, strlen.
  destruct (strstr (c_str pem) _) as [off|] eqn:Hb; [|discriminate].
  destruct (strstr (drop _ _) _) as [e|] eqn:He; [|discriminate].
  apply strstr_some in Hb. destruct Hb as (post & Hb & _).
  apply strstr_some in He. destruct He as (post' & He & _).
  apply (f_equal length) in Hb. apply (f_equal length) in He.
  rewrite !length_drop, !length_app in *.
  set (body := take e _).
  assert (Hlen : (length body <= e)%nat)
    by (unfold body; rewrite length_take; lia).
  destruct (decode body 0 0 []) as [| |out|] eqn:Hd; try discriminate.
  pose proof (decode_fits body 0 0 [] out (or_introl eq_refl) Hd) as Hfit.
  cbn [length] in Hfit.
  assert (Hm : (0 < length (end_marker record))%nat)
    by (rewrite end_marker_eq; cbn [str app length]; simpl; lia).
  destruct (_ <=? _); [|discriminate]. intros [= <-]. lia.
Qed.

Lemma pem_size_bound_witness :
  8 * Z.of_nat (length [0; 1; 254; 255])
  <= 6 * (Z.of_nat (strlen (armor (str "EC PRIVATE KEY") (str "AAH+/w==")))
          - Z.of_nat (length (begin_marker (str "EC PRIVATE KEY")))
          - Z.of_nat (length (end_marker (str "EC PRIVATE KEY")))).
Proof.
  apply (pem_size_bound (armor (str "EC PRIVATE KEY") (str "AAH+/w=="))
                        (str "EC PRIVATE KEY") [0; 1; 254; 255]).
  vm_compute. reflexivity.
Defined.

(** X10: a block is found and decoded inside a longer text: after any text
    without a dash, before any text at all, and with white space (line
    breaks) anywhere in the base64 body. *)
Theorem pem_block_in_text (record bytes body pre post : list Z) :
  Forall is_byte bytes ->
  Forall (fun c => c <> 0 /\ c <> 45) pre ->
  Forall (fun c => c <> 0) body ->
  strip_space body = base64_encode bytes ->
  sslPEMtoASN1 (pre ++ armor record body ++ post) record = Decoded bytes.
Proof.
  intros Hb Hpre Hnz He.
  rewrite pem_decode_block; [| assumption |].
  - rewrite <- decode_strip, He. apply (decode_encode bytes Hb 0 []).
  - pose proof (spaced_body_no_dash body bytes Hb He) as Hnd.
    apply Forall_forall. intros ch Hin.
    rewrite Forall_forall in Hnz, Hnd. auto.
Qed.

Lemma pem_block_in_text_witness :
  sslPEMtoASN1 (str "subject=/CN=localhost " ++
                armor (str "CERTIFICATE") [65; 65; 10; 72; 43; 47; 119; 61;
                                           61; 10] ++
                [10; 0; 45; 45])
               (str "CERTIFICATE")
  = Decoded [0; 1; 254; 255].
Proof.
  apply (pem_block_in_text (str "CERTIFICATE") [0; 1; 254; 255]).
  - repeat constructor; unfold is_byte; lia.
  - vm_compute. repeat constructor; discriminate.
  - repeat constructor; discriminate.
  - vm_compute. reflexivity.
Defined.

(** X11: the padding is not needed: an encoding with its [=] left out decodes
    to the same bytes. *)
Theorem pem_padding_optional (record bytes : list Z) :
  Forall is_byte bytes ->
  sslPEMtoASN1
    (armor record (filter (fun ch => ch <> 61) (base64_encode bytes))) record
  = Decoded bytes.
Proof.
  intros Hb. destruct (decode_unpadded bytes Hb) as (Ha & Hd).
  pose proof (pem_decode_block record []
                (filter (fun ch => ch <> 61) (base64_encode bytes)) [])
    as H.
  cbn [app] in H. rewrite app_nil_r in H. rewrite H; [exact Hd | constructor|].
  eapply Forall_impl; [exact Ha|]. intros ch Hch. cbv beta in Hch.
  unfold is_b64 in Hch. lia.
Qed.

Lemma pem_padding_optional_witness :
  sslPEMtoASN1 (armor (str "DSA PRIVATE KEY") (str "AAH+/w"))
               (str "DSA PRIVATE KEY")
  = Decoded [0; 1; 254; 255].
Proof.
  apply (pem_padding_optional (str "DSA PRIVATE KEY") [0; 1; 254; 255]).
  repeat constructor; unfold is_byte; lia.
Defined.

End Decoder.

(** ** Sessions *)

Section Sessions.

Import Session.

Lemma bind_done {A B} (m : M A) (k : A -> M B) (w w' : World) (b : B) :
  bind m k w = (Done b, w') ->
  exists a w1, m w = (Done a, w1) /\ k a w1 = (Done b, w').
Proof.
  unfold bind. destruct (m w) as [[a| |] w1]; try discriminate. eauto.
Qed.

Ltac inv_bind H :=
  let a := fresh "a" in
  let w := fresh "w" in
  let Hm := fresh "Hm" in
  apply bind_done in H; destruct H as (a & w & Hm & H).

(** Run the calls of ssl.c and OpenSSL as far as the state is known. *)
Ltac open_session :=
  cbv beta delta [bind ret check abort fatal undefined
       ERR_clear_error ERR_peek_error SSL_get_wbio SSL_get_rbio
       SSL_set_mode SSL_set_bio SSL_set_accept_state SSL_new
       BIO_new_socket BIO_new_buffer BIO_new_with BIO_set_buffer_read_data
       sslBlockSigPipe
       ssl_at bio_at store_ssl store_bio].

Ltac open_session_in H :=
  cbv beta delta [bind ret check abort fatal undefined
       ERR_clear_error ERR_peek_error SSL_get_wbio SSL_get_rbio
       SSL_set_mode SSL_set_bio SSL_set_accept_state SSL_new
       BIO_new_socket BIO_new_buffer BIO_new_with BIO_set_buffer_read_data
       sslBlockSigPipe
       ssl_at bio_at store_ssl store_bio] in H.

Ltac run_session_in H :=
  cbv beta iota in H;
  cbn [ssls bios err_queue sigpipe_blocked sigpipe_pending allocs frees
       set_err set_sigpipe update_ssls update_bios log_alloc log_free
       ctx mode rbio wbio accept_state
       method next_bio prev_bio references
       negb andb orb fst snd] in H.

Lemma dcheck_cases (e : Env) (b : bool) (w : World) :
  dcheck e b w = (Done tt, w) \/ dcheck e b w = (Aborted, w).
Proof. unfold dcheck. destruct b, (debug e); auto. Qed.

Ltac dcheck_step H :=
  match type of H with
  | context [dcheck ?e ?b ?w] =>
      let E := fresh "E" in
      destruct (dcheck_cases e b w) as [E|E]; rewrite E in H; clear E;
      run_session_in H; [ | discriminate H]
  end.

(** When [sslUnblockSigPipe] returns, SIGPIPE is neither blocked nor
    pending, and nothing else has changed. *)
Lemma sslUnblockSigPipe_done (e : Env) (w w' : World) (signum : Z) :
  sslUnblockSigPipe e w = (Done signum, w') -> w' = set_sigpipe false false w.
Proof.
  unfold sslUnblockSigPipe, bind, check, ret.
  destruct (sigpipe_pending w) eqn:Hp.
  - destruct (sigwait_signal e =? SIGPIPE);
      cbn [sigpipe_pending set_sigpipe]; rewrite ?Hp; cbn [andb];
      destruct (sigpipe_fatal e); intros H; try discriminate H;
      now injection H as _ <-.
  - rewrite Hp. cbn [andb]. intros H. now injection H as _ <-.
Qed.

Ltac unblock_step H :=
  match type of H with
  | context [sslUnblockSigPipe ?e ?W] =>
      let s := fresh "s" in
      let wz := fresh "wz" in
      let Hu := fresh "Hu" in
      destruct (sslUnblockSigPipe e W) as [[s| |] wz] eqn:Hu;
      cbv beta iota in H;
      [apply sslUnblockSigPipe_done in Hu; subst wz
      | discriminate H | discriminate H];
      run_session_in H
  end.

Ltac run_session :=
  cbv beta iota;
  cbn [ssls bios err_queue sigpipe_blocked sigpipe_pending allocs frees
       set_err set_sigpipe update_ssls update_bios log_alloc log_free
       ctx mode rbio wbio accept_state
       method next_bio prev_bio references
       negb andb orb fst snd].

(** Releasing a NULL handle touches nothing. *)
Lemma sslFreeHndl_null (e : Env) (w : World) :
  sslFreeHndl e 0 w = (Done 0, w).
Proof. reflexivity. Qed.

Lemma sslFreeHndl_returns_null (e : Env) (h h' : Z) (w w' : World) :
  sslFreeHndl e h w = (Done h', w') -> h' = 0.
Proof.
  unfold sslFreeHndl. intros H. inv_bind H. now injection H as <- _.
Qed.

(** A promotion that returns leaves the handle NULL exactly when it
    reports failure. *)
Lemma sslPromoteToSSL_rc (e : Env) (sslContext hndl fd : Z) (buf : list Z)
      (len rc h : Z) (w w' : World) :
  sslPromoteToSSL e sslContext hndl fd buf len w = (Done (rc, h), w') ->
  hndl = 0 /\ ((rc = -1 /\ h = 0) \/ (rc = 0 /\ h <> 0)).
Proof.
  unfold sslPromoteToSSL. intros H.
  inv_bind H. inv_bind H.
  assert (hndl = 0) as ->.
  { unfold check in Hm0. destruct (Z.eqb_spec hndl 0); [assumption|].
    discriminate. }
  split; [reflexivity|].
  inv_bind H. inv_bind H. inv_bind H. inv_bind H. inv_bind H. inv_bind H.
  injection H as <- <- _.
  destruct (Z.eqb_spec a3 0) as [->|Hnz].
  - left. inv_bind Hm5. now injection Hm5 as <- _.
  - right. split; [|assumption].
    repeat (let a := fresh "a" in let w := fresh "w" in
            let Hm := fresh "Hm" in
            apply bind_done in Hm5; destruct Hm5 as (a & w & Hm & Hm5)).
    now injection Hm5 as <- _.
Qed.

(** C5: releasing a NULL handle frees nothing and changes nothing but
    the handle, which it sets to NULL again; every release that returns
    leaves the handle NULL, so that a second release is such a call; and
    so is the release of a handle whose promotion failed. *)
Theorem release_idempotent (e : Env) :
  (forall w, sslFreeHndl e 0 w = (Done 0, w)) /\
  (forall h w h' w',
     sslFreeHndl e h w = (Done h', w') ->
     h' = 0 /\ sslFreeHndl e h' w' = (Done 0, w')) /\
  (forall sslContext fd buf len w h w',
     sslPromoteToSSL e sslContext 0 fd buf len w = (Done (-1, h), w') ->
     h = 0 /\ sslFreeHndl e h w' = (Done 0, w')).
Proof.
  split; [|split].
  - intros w. apply sslFreeHndl_null.
  - intros h w h' w' H. apply sslFreeHndl_returns_null in H. subst h'.
    split; [reflexivity | apply sslFreeHndl_null].
  - intros sslContext fd buf len w h w' H.
    apply sslPromoteToSSL_rc in H. destruct H as (_ & [(_ & ->) | (H & _)]).
    + split; [reflexivity | apply sslFreeHndl_null].
    + discriminate.
Qed.

Lemma release_idempotent_witness :
  exists w', sslFreeHndl plain_env 1 promoted_world = (Done 0, w') /\
             sslFreeHndl plain_env 0 w' = (Done 0, w').
Proof.
  destruct (release_idempotent plain_env) as (_ & H & _).
  assert (Hrun : exists w',
             sslFreeHndl plain_env 1 promoted_world = (Done 0, w'))
    by (vm_compute; eexists; reflexivity).
  destruct Hrun as [w' Hrun]. exists w'.
  split; [exact Hrun | exact (proj2 (H _ _ _ _ Hrun))].
Defined.

(** C10: a promotion entered with a handle that is not NULL ends the
    process before anything is allocated; after a promotion that
    succeeded the handle is not NULL, so a second promotion of it ends the
    process, and only a release, which sets it to NULL, allows another. *)
Theorem promote_needs_null_handle :
  (forall e sslContext hndl fd buf len w,
     hndl <> 0 ->
     exists w',
       sslPromoteToSSL e sslContext hndl fd buf len w = (Aborted, w') /\
       allocs w' = allocs w /\ bios w' = bios w /\ ssls w' = ssls w) /\
  (forall e0 c0 h0 fd0 buf0 len0 w0 hndl w1,
     sslPromoteToSSL e0 c0 h0 fd0 buf0 len0 w0 = (Done (0, hndl), w1) ->
     h0 = 0 /\ hndl <> 0 /\
     (forall e sslContext fd buf len,
        exists w2, sslPromoteToSSL e sslContext hndl fd buf len w1
                   = (Aborted, w2)) /\
     (forall e h' w2, sslFreeHndl e hndl w1 = (Done h', w2) -> h' = 0)).
Proof.
  assert (Hab : forall e sslContext hndl fd buf len w,
             hndl <> 0 ->
             exists w',
               sslPromoteToSSL e sslContext hndl fd buf len w = (Aborted, w') /\
               allocs w' = allocs w /\ bios w' = bios w /\ ssls w' = ssls w).
  { intros e sslContext hndl fd buf len w Hnz.
    unfold sslPromoteToSSL, bind, sslBlockSigPipe, bind, dcheck,
      ret, check, abort.
    destruct (Z.eqb_spec hndl 0); [contradiction|].
    eexists. split; [reflexivity|]. auto. }
  split; [exact Hab|].
  intros e0 c0 h0 fd0 buf0 len0 w0 hndl w1 H.
  apply sslPromoteToSSL_rc in H.
  destruct H as (-> & [(H & _) | (_ & Hnz)]); [discriminate|].
  split; [reflexivity|]. split; [assumption|]. split.
  - intros e sslContext fd buf len.
    destruct (Hab e sslContext hndl fd buf len w1 Hnz) as (w2 & H & _). eauto.
  - intros e h' w2. apply sslFreeHndl_returns_null.
Qed.

Lemma promote_needs_null_handle_witness :
  exists w', sslPromoteToSSL plain_env 5 1 9 [] 0 empty_world = (Aborted, w')
             /\ allocs w' = [].
Proof.
  destruct (proj1 promote_needs_null_handle plain_env 5 1 9 [] 0
              empty_world) as (w' & H & Ha & _).
  - discriminate.
  - exists w'. split; [exact H | exact Ha].
Defined.

(** A chain of neither shape, with the links the test reads in place:
    the process is ended and nothing has been freed. *)
Lemma release_unknown_shape_aborts (e : Env) (h : Z) (w : World) (s : SSL)
      (r x : BIO) :
  h <> 0 -> ssls w !! h = Some s -> wbio s <> 0 -> rbio s <> 0 ->
  wbio s <> rbio s ->
  bios w !! rbio s = Some r -> bios w !! wbio s = Some x ->
  ~ pattern_A w (rbio s) (wbio s) -> ~ pattern_B w (rbio s) (wbio s) ->
  (next_bio r = next_bio x -> is_Some (bios w !! next_bio x)) ->
  sslFreeHndl e h w = (Aborted, set_err false w).
Proof.
  intros Hh Hs Hw Hr Hne Hrb Hwb HA HB Hlive.
  unfold sslFreeHndl.
  destruct (Z.eqb_spec h 0); [contradiction|].
  open_session. run_session.
  rewrite Hs. run_session.
  destruct (Z.eqb_spec (wbio s) 0); [contradiction|]. run_session.
  rewrite Hs. run_session.
  destruct (Z.eqb_spec (rbio s) 0); [contradiction|]. run_session.
  destruct (Z.eqb_spec (wbio s) (rbio s)); [contradiction|]. run_session.
  rewrite Hrb. run_session.
  destruct (Z.eqb_spec (next_bio r) (wbio s)) as [Hn|Hn].
  { exfalso. apply HA. exists r. auto. }
  run_session. rewrite Hwb. run_session.
  destruct (Z.eqb_spec (next_bio r) (next_bio x)) as [Heq|Hneq];
    [|reflexivity].
  run_session.
  destruct (Hlive Heq) as [nb Hnb]. rewrite Hnb. run_session.
  destruct (Z.eqb_spec (prev_bio nb) (wbio s)) as [Hp|Hp]; [|reflexivity].
  exfalso. apply HB. exists r, x, nb. auto.
Qed.

(** C4 fails on the code.  A chain of neither shape should end the
    process through [fatal] with nothing freed.  For a session whose
    read and write endpoints are different BIOs without a next link, the
    chain has neither shape; the test for the second shape finds the two
    next links equal and reads [prev_bio] through the NULL next link of
    the write endpoint, so the release does not reach [fatal].  With a
    next link on the read endpoint only, it does, and nothing is freed. *)
Lemma release_unlinked_endpoints_undefined :
  ~ pattern_A unlinked_world 20 30 /\ ~ pattern_B unlinked_world 20 30 /\
  sslFreeHndl plain_env 10 unlinked_world = (Undefined, unlinked_world) /\
  ~ pattern_A stray_world 20 30 /\ ~ pattern_B stray_world 20 30 /\
  sslFreeHndl plain_env 10 stray_world
  = (Aborted, set_err false stray_world).
Proof.
  split; [|split; [|split; [|split; [|split]]]].
  - intros (r & Hr & Hn). vm_compute in Hr. injection Hr as <-. discriminate.
  - intros (r & x & n & _ & Hx & _ & Hn & _). vm_compute in Hx.
    injection Hx as <-. vm_compute in Hn. discriminate.
  - vm_compute. reflexivity.
  - intros (r & Hr & Hn). vm_compute in Hr. injection Hr as <-. discriminate.
  - intros (r & x & n & Hr & Hx & He & _). vm_compute in Hr, Hx.
    injection Hr as <-. injection Hx as <-. discriminate.
  - vm_compute. reflexivity.
Qed.

Lemma new_addr_fresh (w : World) :
  new_addr w <> 0 /\ bios w !! new_addr w = None /\
  ssls w !! new_addr w = None.
Proof.
  unfold new_addr.
  pose proof (is_fresh ({[0]} ∪ dom (bios w) ∪ dom (ssls w) : gset Z)) as H.
  repeat split.
  - intros E. apply H. rewrite E. set_solver.
  - apply not_elem_of_dom. set_solver.
  - apply not_elem_of_dom. set_solver.
Qed.

(** Pushing a BIO without a next link onto another. *)
Lemma BIO_push_single (b bio : Z) (w : World) (x y : BIO) :
  b <> 0 -> bio <> 0 -> b <> bio ->
  bios w !! b = Some x -> next_bio x = 0 -> bios w !! bio = Some y ->
  BIO_push b bio w
  = (Done b,
     update_bios
       (fun m => <[bio := {| method := method y; next_bio := next_bio y;
                             prev_bio := b; references := references y |}]>
                 (<[b := {| method := method x; next_bio := bio;
                            prev_bio := prev_bio x;
                            references := references x |}]> m)) w).
Proof.
  intros Hb Hbio Hne Hx Hnx Hy. unfold BIO_push.
  destruct (Z.eqb_spec b 0); [contradiction|].
  destruct (Z.eqb_spec bio 0); [contradiction|].
  open_session. run_session. cbn [chain_end].
  open_session. run_session. rewrite Hx. run_session.
  rewrite Hnx. change (0 =? 0) with true. run_session.
  rewrite Hx. run_session.
  rewrite lookup_insert_ne by assumption. rewrite Hy. run_session.
  reflexivity.
Qed.

(** Two processes with the same fields. *)
Lemma world_eq (w w' : World) :
  bios w = bios w' -> ssls w = ssls w' -> err_queue w = err_queue w' ->
  sigpipe_blocked w = sigpipe_blocked w' ->
  sigpipe_pending w = sigpipe_pending w' ->
  allocs w = allocs w' -> frees w = frees w' -> w = w'.
Proof. destruct w, w'. cbn. intros. subst. reflexivity. Qed.

Ltac world_fields :=
  apply world_eq;
  cbn [bios ssls err_queue allocs frees sigpipe_pending sigpipe_blocked
       set_err set_sigpipe update_ssls update_bios log_alloc log_free].

(** *** What a promotion builds, and what it leaves alone *)

(** The process after a promotion that succeeded: the objects that were
    there are as they were; the session and its BIOs are new. *)
Lemma sslPromoteToSSL_shape
      (e : Env) (sslContext hndl fd : Z) (buf : list Z) (len h : Z)
      (w w1 : World) :
  bio_socket_ok e = true ->
  sslPromoteToSSL e sslContext hndl fd buf len w = (Done (0, h), w1) ->
  exists sock,
    h <> 0 /\ sock <> 0 /\ sock <> h /\
    ssls w !! h = None /\ bios w !! h = None /\
    ssls w !! sock = None /\ bios w !! sock = None /\
    ((len <= 0 /\
      w1 = {| bios := <[sock := {| method := BIO_s_socket fd; next_bio := 0;
                                   prev_bio := 0; references := 1 |}]>
                        (bios w);
              ssls := <[h := {| ctx := sslContext; mode := 1; rbio := sock;
                                wbio := sock; accept_state := true |}]>
                        (ssls w);
              err_queue := err_queue w; sigpipe_blocked := false;
              sigpipe_pending := false;
              allocs := allocs w ++ [h; sock]; frees := frees w |})
     \/
     (0 < len /\
      exists rb,
        rb <> 0 /\ rb <> sock /\ rb <> h /\
        ssls w !! rb = None /\ bios w !! rb = None /\
        w1 = {| bios := <[rb := {| method :=
                                     BIO_f_buffer (take (Z.to_nat len) buf);
                                   next_bio := sock; prev_bio := 0;
                                   references := 1 |}]>
                          (<[sock := {| method := BIO_s_socket fd;
                                        next_bio := 0; prev_bio := rb;
                                        references := 1 |}]>
                             (bios w));
                ssls := <[h := {| ctx := sslContext; mode := 1; rbio := rb;
                                  wbio := sock; accept_state := true |}]>
                          (ssls w);
                err_queue := err_queue w; sigpipe_blocked := false;
                sigpipe_pending := false;
                allocs := allocs w ++ [h; sock; rb]; frees := frees w |})).
Proof.
  intros Hsock H.
  pose proof (sslPromoteToSSL_rc _ _ _ _ _ _ _ _ _ _ H) as Hrc.
  destruct Hrc as (-> & [(Hx & _) | (_ & Hh)]); [discriminate|].
  unfold sslPromoteToSSL in H. open_session_in H. rewrite Hsock in H.
  run_session_in H.
  change (0 =? 0) with true in H. run_session_in H.
  dcheck_step H. dcheck_step H.
  destruct ((sslContext =? 0) || negb (ssl_new_ok e)) eqn:Hnew;
    run_session_in H.
  { dcheck_step H. change (0 =? 0) with true in H. run_session_in H.
    unblock_step H. discriminate H. }
  set (w0 := set_sigpipe true (sigpipe_pending w) w) in *.
  set (a := new_addr w0) in *.
  destruct (new_addr_fresh w0) as (Ha0 & Hab & Has).
  fold a in Ha0, Hab, Has. cbn [bios ssls w0 set_sigpipe] in Hab, Has.
  dcheck_step H.
  destruct (Z.eqb_spec a 0); [contradiction|]. run_session_in H.
  rewrite lookup_insert_eq in H. run_session_in H.
  match type of H with
  | context [update_ssls ?f (log_alloc a ?W)] =>
      set (wa := update_ssls f (log_alloc a W)) in *
  end.
  set (sock := new_addr wa) in *.
  destruct (new_addr_fresh wa) as (Hs0 & Hsb & Hss). fold sock in Hs0, Hsb, Hss.
  assert (Hsa : sock <> a).
  { intros E. rewrite E in Hss. subst wa. cbn [ssls update_ssls] in Hss.
    rewrite lookup_insert_eq in Hss. discriminate. }
  assert (Hss' : ssls w !! sock = None).
  { subst wa. cbn [ssls update_ssls log_alloc] in Hss.
    rewrite !lookup_insert_ne in Hss by congruence. exact Hss. }
  assert (Hsb' : bios w !! sock = None) by exact Hsb.
  destruct (0 <? len) eqn:Hlen; run_session_in H.
  - destruct (bio_buffer_ok e) eqn:Hbuf; run_session_in H.
    2:{ exfalso. unfold BIO_push in H. change (0 =? 0) with true in H.
        open_session_in H. run_session_in H.
        change (0 =? 0) with true in H. run_session_in H.
        discriminate H. }
    match type of H with
    | context [BIO_push (new_addr ?W) sock _] => set (wb := W) in *
    end.
    set (rb := new_addr wb) in *.
    destruct (new_addr_fresh wb) as (Hr0 & Hrb & Hrs).
    fold rb in Hr0, Hrb, Hrs.
    assert (Hne : rb <> sock).
    { intros E. rewrite E in Hrb. subst wb. cbn [bios log_alloc update_bios] in Hrb.
      rewrite lookup_insert_eq in Hrb. discriminate. }
    assert (Hra : rb <> a).
    { intros E. rewrite E in Hrs. subst wb wa.
      cbn [ssls update_ssls log_alloc update_bios] in Hrs.
      rewrite lookup_insert_eq in Hrs. discriminate. }
    assert (Hrs' : ssls w !! rb = None).
    { subst wb wa. cbn [ssls update_ssls log_alloc update_bios] in Hrs.
      rewrite !lookup_insert_ne in Hrs by congruence. exact Hrs. }
    assert (Hrb' : bios w !! rb = None).
    { subst wb wa. cbn [bios update_ssls log_alloc update_bios] in Hrb.
      rewrite lookup_insert_ne in Hrb by congruence. exact Hrb. }
    erewrite (BIO_push_single rb sock) in H; try assumption; cycle 1.
    { cbn [bios log_alloc update_bios]. apply lookup_insert_eq. }
    { reflexivity. }
    { subst wb. cbn [bios log_alloc update_bios].
      rewrite lookup_insert_ne by assumption. apply lookup_insert_eq. }
    run_session_in H.
    destruct (Z.eqb_spec rb 0); [contradiction|]. run_session_in H.
    assert (Hne' : sock <> rb) by congruence.
    rewrite lookup_insert_ne in H by assumption.
    rewrite lookup_insert_eq in H. run_session_in H.
    destruct (buffer_ok e); run_session_in H; [|discriminate H].
    assert (Hla : ssls wb !! a
                  = Some {| ctx := sslContext;
                            mode := Z.lor 0 SSL_MODE_ENABLE_PARTIAL_WRITE;
                            rbio := 0; wbio := 0; accept_state := false |})
      by apply lookup_insert_eq.
    rewrite Hla in H. run_session_in H.
    rewrite lookup_insert_eq in H. run_session_in H.
    dcheck_step H. unblock_step H.
    injection H as <- <-;
      (exists sock;
       split; [assumption|]; split; [assumption|]; split; [assumption|];
       split; [assumption|]; split; [assumption|]; split; [assumption|];
       split; [assumption|]; right; split; [lia|]; exists rb;
       split; [assumption|]; split; [assumption|]; split; [assumption|];
       split; [assumption|]; split; [assumption|]);
      (world_fields;
       [ unfold wb; cbn [bios update_bios log_alloc];
         apply map_eq; intros k;
         destruct (decide (k = rb)) as [->|];
         [ now rewrite !lookup_insert_eq |];
         rewrite !(lookup_insert_ne _ rb) by congruence;
         destruct (decide (k = sock)) as [->|];
         [ now rewrite !lookup_insert_eq |];
         now rewrite !lookup_insert_ne by congruence
       | unfold wb, wa; cbn [ssls update_ssls update_bios log_alloc];
         now rewrite !insert_insert_eq
       | reflexivity | reflexivity | reflexivity
       | unfold wb, wa; cbn [allocs update_ssls update_bios log_alloc];
         now rewrite <- !app_assoc
       | reflexivity ]).
  - assert (Hla : ssls (log_alloc sock
                    (update_bios
                       <[sock := {| method := BIO_s_socket fd; next_bio := 0;
                                    prev_bio := 0; references := 1 |}]> wa))
                  !! a
                  = Some {| ctx := sslContext;
                            mode := Z.lor 0 SSL_MODE_ENABLE_PARTIAL_WRITE;
                            rbio := 0; wbio := 0; accept_state := false |})
      by apply lookup_insert_eq.
    cbn [ssls log_alloc update_bios] in Hla.
    rewrite Hla in H. run_session_in H.
    rewrite lookup_insert_eq in H. run_session_in H.
    dcheck_step H. unblock_step H.
    injection H as <- <-;
      (exists sock;
       split; [assumption|]; split; [assumption|]; split; [assumption|];
       split; [assumption|]; split; [assumption|]; split; [assumption|];
       split; [assumption|]; left; split; [lia|]);
      (world_fields;
       [ reflexivity
       | unfold wa; cbn [ssls update_ssls update_bios log_alloc];
         now rewrite !insert_insert_eq
       | reflexivity | reflexivity | reflexivity
       | unfold wa; cbn [allocs update_ssls update_bios log_alloc];
         now rewrite <- !app_assoc
       | reflexivity ]).
Qed.

(** C9 fails on the code.  [BIO_new_socket] returns NULL when it cannot
    allocate its BIO, and lines 621-628 use the result unchecked.
    Without debug logging the promotion then returns 0, as for a success,
    with a session that has no socket endpoint: both its endpoints are
    NULL, no BIO exists, and the error is left in the queue.  A release
    of that session ends the process at the [check] of line 652, and with
    debug logging the promotion itself ends it, at the [dcheck] on the
    error queue. *)
Lemma promote_without_socket_succeeds :
  exists h w1 s,
    sslPromoteToSSL no_socket_env 5 0 9 [] 0 empty_world = (Done (0, h), w1) /\
    ssls w1 !! h = Some s /\ wbio s = 0 /\ rbio s = 0 /\
    accept_state s = true /\ bios w1 = ∅ /\ err_queue w1 = true /\
    (exists w2, sslFreeHndl plain_env h w1 = (Aborted, w2)) /\
    (exists w',
       sslPromoteToSSL
         {| debug := true; ssl_new_ok := true; bio_socket_ok := false;
            bio_buffer_ok := true; buffer_ok := true;
            sigwait_signal := SIGPIPE; sigpipe_fatal := true |}
         5 0 9 [] 0 empty_world = (Aborted, w')).
Proof.
  vm_compute. do 3 eexists.
  repeat (split; [reflexivity|]).
  split; eexists; reflexivity.
Qed.

(** X29: wherever [BIO_new_socket] has returned a BIO, a promotion that
    succeeds leaves what its caller expects: the session is bound to the
    context given, has partial writes enabled and is in accept state; its
    write endpoint is a socket BIO on the descriptor; with buffered bytes
    ([len > 0]) its read endpoint is another BIO, a buffer that holds
    those bytes and is linked onto the socket BIO, and without them it is
    the write endpoint itself. *)
Theorem promote_postcondition
        (e : Env) (sslContext hndl fd : Z) (buf : list Z) (len h : Z)
        (w w1 : World) :
  bio_socket_ok e = true ->
  sslPromoteToSSL e sslContext hndl fd buf len w = (Done (0, h), w1) ->
  h <> 0 /\
  exists s sock,
    ssls w1 !! h = Some s /\ ctx s = sslContext /\
    Z.land (mode s) SSL_MODE_ENABLE_PARTIAL_WRITE
    = SSL_MODE_ENABLE_PARTIAL_WRITE /\
    accept_state s = true /\
    wbio s <> 0 /\ bios w1 !! wbio s = Some sock /\
    method sock = BIO_s_socket fd /\ next_bio sock = 0 /\
    (0 < len ->
     rbio s <> wbio s /\ rbio s <> 0 /\ prev_bio sock = rbio s /\
     exists b, bios w1 !! rbio s = Some b /\
               method b = BIO_f_buffer (take (Z.to_nat len) buf) /\
               next_bio b = wbio s) /\
    (len <= 0 -> rbio s = wbio s).
Proof.
  intros Hsock H. apply (sslPromoteToSSL_shape _ _ _ _ _ _ _ _ _ Hsock) in H.
  destruct H as (sock & Hh & Hs0 & Hsh & _ & _ & _ & _ &
                 [(Hlen & ->) | (Hlen & rb & Hr0 & Hrs & Hrh & _ & _ & ->)]);
    (split; [assumption|]); cbn [ssls bios].
  - eexists. eexists. split; [apply lookup_insert_eq|].
    cbn [ctx mode rbio wbio accept_state].
    split; [reflexivity|]. split; [reflexivity|]. split; [reflexivity|].
    split; [assumption|]. split; [apply lookup_insert_eq|].
    cbn [method next_bio prev_bio].
    split; [reflexivity|]. split; [reflexivity|].
    split; [lia | reflexivity].
  - eexists. eexists. split; [apply lookup_insert_eq|].
    cbn [ctx mode rbio wbio accept_state].
    split; [reflexivity|]. split; [reflexivity|]. split; [reflexivity|].
    split; [assumption|].
    split; [rewrite lookup_insert_ne by congruence; apply lookup_insert_eq|].
    cbn [method next_bio prev_bio].
    split; [reflexivity|]. split; [reflexivity|].
    split; [|lia].
    intros _. split; [assumption|]. split; [assumption|].
    split; [reflexivity|].
    eexists. split; [apply lookup_insert_eq|]. split; reflexivity.
Qed.

Lemma promote_postcondition_witness :
  exists w1 s,
    sslPromoteToSSL plain_env 5 0 9 [22; 3; 1] 3 empty_world
    = (Done (0, 1), w1) /\
    ssls w1 !! 1 = Some s /\ accept_state s = true /\ rbio s <> wbio s.
Proof.
  assert (Hrun : exists w1,
             sslPromoteToSSL plain_env 5 0 9 [22; 3; 1] 3 empty_world
             = (Done (0, 1), w1))
    by (vm_compute; eexists; reflexivity).
  destruct Hrun as [w1 Hrun].
  destruct (promote_postcondition plain_env _ _ _ _ _ _ _ _ eq_refl Hrun)
    as (_ & s & sock & Hs & _ & _ & Hacc & _ & _ & _ & _ & Hbuf & _).
  exists w1, s. split; [exact Hrun|]. split; [exact Hs|].
  split; [exact Hacc|]. apply Hbuf. reflexivity.
Defined.

(** *** Releases that succeed *)

Ltac solve_nodup :=
  repeat (apply NoDup_cons_2;
          [ rewrite ?not_elem_of_cons; repeat split;
            first [ congruence | apply not_elem_of_nil ] | ]);
  apply NoDup_nil_2.

Ltac open_release :=
  cbv beta delta [bind ret check abort fatal undefined
       ERR_clear_error ERR_peek_error SSL_get_wbio SSL_get_rbio
       ssl_at bio_at store_ssl store_bio SSL_free BIO_free BIO_pop
       unstack_read_on_write unstack_shared_socket dcheck].

Tactic Notation "eqb_false" constr(x) constr(y) :=
  match goal with
  | |- context [x =? y] =>
      let E := fresh "E" in
      destruct (Z.eqb_spec x y) as [E|E]; [congruence || lia | clear E]
  end.

(** Freeing a chain of one BIO that has one reference. *)
Lemma BIO_free_all_single (b : Z) (w : World) (x : BIO) :
  b <> 0 -> bios w !! b = Some x -> references x = 1 -> next_bio x = 0 ->
  BIO_free_all b w = (Done tt, log_free b (update_bios (delete b) w)).
Proof.
  intros Hb Hx Hr Hn. unfold BIO_free_all.
  cbv beta delta [bind].
  destruct (size (bios w)) as [|n] eqn:Hsz.
  { exfalso. apply (map_size_ne_0_lookup_2 (bios w) b); eauto. }
  cbn [BIO_free_chain]. eqb_false b 0.
  open_release. run_session. eqb_false b 0.
  repeat (rewrite Hx; run_session).
  rewrite ?Hr, ?Hn. cbn [Z.sub Z.ltb Z.compare Z.pos_sub Z.eqb]. run_session.
  reflexivity.
Qed.

(** The ordinary release: one BIO serves both directions. *)
Lemma sslFreeHndl_single (e : Env) (h b : Z) (w : World) (s : SSL) (x : BIO) :
  h <> 0 -> ssls w !! h = Some s -> rbio s = b -> wbio s = b -> b <> 0 ->
  bios w !! b = Some x -> references x = 1 -> next_bio x = 0 ->
  sslFreeHndl e h w
  = (Done 0,
     {| bios := delete b (bios w); ssls := delete h (ssls w);
        err_queue := false; sigpipe_blocked := sigpipe_blocked w;
        sigpipe_pending := sigpipe_pending w;
        allocs := allocs w; frees := frees w ++ [b; h] |}).
Proof.
  intros Hh Hs Hr Hw Hb Hx Hrf Hn. unfold sslFreeHndl.
  eqb_false h 0. open_release.
  repeat first [ rewrite Hs | rewrite Hr | rewrite Hw | rewrite Z.eqb_refl
               | eqb_false b 0 | eqb_false h 0 | progress run_session ].
  rewrite (BIO_free_all_single b (set_err false w) x) by assumption.
  repeat first [ rewrite Hs | rewrite Hr | rewrite Hw | rewrite Z.eqb_refl
               | eqb_false b 0 | eqb_false h 0 | progress run_session ].
  f_equal. world_fields; try reflexivity.
  now rewrite <- app_assoc.
Qed.

Ltac run_release known :=
  repeat first [ known | rewrite Z.eqb_refl
               | rewrite lookup_insert_eq
               | rewrite lookup_insert_ne by congruence
               | rewrite lookup_delete_ne by congruence
               | match goal with
                 | |- context [?a =? ?b] => eqb_false a b
                 end
               | progress run_session ].

(** The first shape: the read BIO on top of the write BIO.  The two are
    unlinked and then freed one by one. *)
Lemma sslFreeHndl_read_on_write
      (e : Env) (h r x : Z) (w : World) (s : SSL) (R X : BIO) :
  h <> 0 -> ssls w !! h = Some s -> rbio s = r -> wbio s = x ->
  r <> 0 -> x <> 0 -> r <> x ->
  bios w !! r = Some R -> next_bio R = x -> prev_bio R = 0 ->
  references R = 1 ->
  bios w !! x = Some X -> next_bio X = 0 -> references X = 1 ->
  sslFreeHndl e h w
  = (Done 0,
     {| bios := delete x (delete r (bios w)); ssls := delete h (ssls w);
        err_queue := false; sigpipe_blocked := sigpipe_blocked w;
        sigpipe_pending := sigpipe_pending w;
        allocs := allocs w; frees := frees w ++ [r; x; h] |}).
Proof.
  intros Hh Hs Hr Hw Hr0 Hx0 Hne HR HRn HRp HRr HX HXn HXr.
  destruct s as [c m r' x' acc]. cbn in Hr, Hw. subst r' x'.
  destruct R as [Rm Rn Rp Rr], X as [Xm Xn Xp Xr]. cbn in *. subst.
  unfold sslFreeHndl. open_release.
  run_release ltac:(first [rewrite Hs | rewrite HR | rewrite HX]).
  erewrite (BIO_free_all_single r _
              {| method := Rm; next_bio := 0; prev_bio := 0;
                 references := 1 |});
    [| assumption | cbn [bios update_bios]; apply lookup_insert_eq
     | reflexivity | reflexivity].
  run_release ltac:(first [rewrite Hs | rewrite HR | rewrite HX]).
  erewrite (BIO_free_all_single x _
              {| method := Xm; next_bio := 0; prev_bio := 0;
                 references := 1 |});
    [| assumption
     | cbn [bios update_bios log_free];
       rewrite lookup_delete_ne by congruence;
       rewrite lookup_insert_ne by congruence; apply lookup_insert_eq
     | reflexivity | reflexivity].
  run_release ltac:(first [rewrite Hs | rewrite HR | rewrite HX]).
  f_equal. world_fields; try reflexivity.
  - rewrite delete_insert_eq, delete_insert_ne by congruence.
    now rewrite delete_insert_eq.
  - now rewrite <- !app_assoc.
Qed.

(** X13: promotion and release undo each other when [BIO_new_socket] has
    given the promotion its socket BIO: the release of a session just
    promoted frees the objects the promotion allocated, each once and in
    reverse order, and the live objects are those from before. *)
Theorem promote_then_release
        (e e' : Env) (sslContext hndl fd : Z) (buf : list Z) (len h : Z)
        (w w1 : World) :
  bio_socket_ok e = true ->
  sslPromoteToSSL e sslContext hndl fd buf len w = (Done (0, h), w1) ->
  exists w2 objs,
    sslFreeHndl e' h w1 = (Done 0, w2) /\
    bios w2 = bios w /\ ssls w2 = ssls w /\
    allocs w1 = allocs w ++ objs /\ allocs w2 = allocs w1 /\
    NoDup objs /\ frees w2 = frees w ++ rev objs.
Proof.
  intros Hsock H. apply (sslPromoteToSSL_shape _ _ _ _ _ _ _ _ _ Hsock) in H.
  destruct H as (sock & Hh & Hs0 & Hsh & Hhs & Hhb & Hss & Hsb &
                 [(Hlen & ->) | (Hlen & rb & Hr0 & Hrs & Hrh & Hrss & Hrb & ->)]).
  - eexists _, [h; sock]. split.
    + apply (sslFreeHndl_single e' h sock _
               {| ctx := sslContext; mode := 1; rbio := sock; wbio := sock;
                  accept_state := true |}
               {| method := BIO_s_socket fd; next_bio := 0; prev_bio := 0;
                  references := 1 |}); cbn [ssls bios];
        try reflexivity; try assumption; apply lookup_insert_eq.
    + cbn [bios ssls allocs frees]. repeat split.
      * now apply delete_insert_id.
      * now apply delete_insert_id.
      * solve_nodup.
  - eexists _, [h; sock; rb]. split.
    + apply (sslFreeHndl_read_on_write e' h rb sock _
               {| ctx := sslContext; mode := 1; rbio := rb; wbio := sock;
                  accept_state := true |}
               {| method := BIO_f_buffer (take (Z.to_nat len) buf);
                  next_bio := sock; prev_bio := 0; references := 1 |}
               {| method := BIO_s_socket fd; next_bio := 0; prev_bio := rb;
                  references := 1 |}); cbn [ssls bios];
        try reflexivity; try assumption;
        rewrite ?lookup_insert_eq; try reflexivity.
      rewrite lookup_insert_ne by assumption. apply lookup_insert_eq.
    + cbn [bios ssls allocs frees]. repeat split.
      * rewrite delete_insert_eq, delete_insert_ne by congruence.
        rewrite delete_insert_eq, delete_id; [now apply delete_id|].
        now rewrite lookup_delete_ne.
      * now apply delete_insert_id.
      * solve_nodup.
Qed.

Lemma promote_then_release_witness :
  exists w1 w2,
    sslPromoteToSSL plain_env 5 0 9 [22; 3; 1] 3 empty_world
    = (Done (0, 1), w1) /\
    sslFreeHndl plain_env 1 w1 = (Done 0, w2) /\
    bios w2 = ∅ /\ ssls w2 = ∅.
Proof.
  assert (Hrun : exists w1,
             sslPromoteToSSL plain_env 5 0 9 [22; 3; 1] 3 empty_world
             = (Done (0, 1), w1))
    by (vm_compute; eexists; reflexivity).
  destruct Hrun as [w1 Hrun].
  destruct (promote_then_release plain_env plain_env _ _ _ _ _ _ _ _
              eq_refl Hrun)
    as (w2 & objs & Hfree & Hb & Hs & _).
  exists w1, w2. auto.
Defined.

(** A promotion that fails has allocated nothing: the process is as
    before but for the error queue, which is empty.  It fails only when
    [SSL_new] does, and returns at all only with debug logging off (with
    it on, the [dcheck] on the new session ends the process). *)
Lemma sslPromoteToSSL_failed
        (e : Env) (sslContext hndl fd : Z) (buf : list Z) (len h : Z)
        (w w1 : World) :
  sslPromoteToSSL e sslContext hndl fd buf len w = (Done (-1, h), w1) ->
  h = 0 /\ debug e = false /\
  (sslContext = 0 \/ ssl_new_ok e = false) /\
  w1 = {| bios := bios w; ssls := ssls w; err_queue := false;
          sigpipe_blocked := false; sigpipe_pending := false;
          allocs := allocs w; frees := frees w |}.
Proof.
  intros H. pose proof (sslPromoteToSSL_rc _ _ _ _ _ _ _ _ _ _ H) as Hrc.
  destruct Hrc as (-> & [(_ & ->) | (Hx & _)]); [|discriminate].
  split; [reflexivity|].
  assert (Hnull : exists wx wy, SSL_new e sslContext wx = (Done 0, wy)).
  { pose proof H as H0. unfold sslPromoteToSSL in H0.
    do 8 (let a := fresh "a" in let w := fresh "w" in
          let Hm := fresh "Hm" in
          apply bind_done in H0; destruct H0 as (a & w & Hm & H0)).
    injection H0 as _ <- _. eauto. }
  destruct Hnull as (wx & wy & Hnull).
  destruct ((sslContext =? 0) || negb (ssl_new_ok e)) eqn:Hnew.
  2:{ exfalso. unfold SSL_new in Hnull. rewrite Hnew in Hnull.
      injection Hnull as Hnull _.
      exact (proj1 (new_addr_fresh wx) Hnull). }
  unfold sslPromoteToSSL in H. open_session_in H. run_session_in H.
  change (0 =? 0) with true in H. run_session_in H.
  dcheck_step H. dcheck_step H. rewrite Hnew in H. run_session_in H.
  change (0 =? 0) with true in H. run_session_in H.
  unfold dcheck in H. cbn [negb] in H.
  destruct (debug e); run_session_in H; [discriminate H|].
  split; [reflexivity|]. split.
  { destruct (Z.eqb_spec sslContext 0); [now left|].
    right. destruct (ssl_new_ok e); [discriminate | reflexivity]. }
  unfold ret in H. run_session_in H.
  unblock_step H. injection H as <-. world_fields; reflexivity.
Qed.

(** X14: a promotion that returns -1 has made no session: the handle is
    NULL, no object was allocated or freed, the heap is as it was, and
    the error queue is empty.  This happens only without [debug], when the
    context is NULL or [SSL_new] fails. *)
Theorem promote_failure_frame
        (e : Env) (sslContext hndl fd : Z) (buf : list Z) (len h : Z)
        (w w1 : World) :
  sslPromoteToSSL e sslContext hndl fd buf len w = (Done (-1, h), w1) ->
  h = 0 /\ debug e = false /\ (sslContext = 0 \/ ssl_new_ok e = false) /\
  bios w1 = bios w /\ ssls w1 = ssls w /\
  allocs w1 = allocs w /\ frees w1 = frees w /\ err_queue w1 = false.
Proof.
  intros H. apply sslPromoteToSSL_failed in H.
  destruct H as (Hh & Hd & Hc & ->). cbn [bios ssls allocs frees err_queue].
  repeat (split; [assumption || reflexivity|]). reflexivity.
Qed.

Lemma promote_failure_frame_witness :
  exists w1,
    sslPromoteToSSL plain_env 0 0 9 [22; 3; 1] 3 stray_world
    = (Done (-1, 0), w1) /\
    bios w1 = bios stray_world /\ err_queue w1 = false.
Proof.
  assert (Hrun : exists w1,
             sslPromoteToSSL plain_env 0 0 9 [22; 3; 1] 3 stray_world
             = (Done (-1, 0), w1))
    by (vm_compute; eexists; reflexivity).
  destruct Hrun as [w1 Hrun]. exists w1. split; [exact Hrun|].
  destruct (promote_failure_frame _ _ _ _ _ _ _ _ _ Hrun)
    as (_ & _ & _ & Hb & _ & _ & _ & He).
  split; assumption.
Defined.

(** X15: a promotion that succeeds, [BIO_new_socket] having given it the
    socket BIO, touches nothing that was there: every live BIO and
    session is as it was, nothing is freed, and the error queue is as it
    was.  What it allocates are distinct addresses, none NULL and none
    live before, all live afterwards; the new session's two endpoints are
    among them. *)
Theorem promote_success_frame
        (e : Env) (sslContext hndl fd : Z) (buf : list Z) (len h : Z)
        (w w1 : World) :
  bio_socket_ok e = true ->
  sslPromoteToSSL e sslContext hndl fd buf len w = (Done (0, h), w1) ->
  (forall b x, bios w !! b = Some x -> bios w1 !! b = Some x) /\
  (forall s x, ssls w !! s = Some x -> ssls w1 !! s = Some x) /\
  frees w1 = frees w /\ err_queue w1 = err_queue w /\
  exists objs,
    allocs w1 = allocs w ++ objs /\ NoDup objs /\
    (forall a, a ∈ objs ->
       a <> 0 /\ bios w !! a = None /\ ssls w !! a = None /\
       (is_Some (bios w1 !! a) \/ is_Some (ssls w1 !! a))) /\
    exists s, ssls w1 !! h = Some s /\ h ∈ objs /\
              rbio s ∈ objs /\ wbio s ∈ objs.
Proof.
  intros Hsock H. apply (sslPromoteToSSL_shape _ _ _ _ _ _ _ _ _ Hsock) in H.
  destruct H as (sock & Hh & Hs & Hsh & Hhs & Hhb & Hss & Hsb &
                 [(_ & ->) |
                  (_ & rb & Hr & Hrs & Hrh & Hrss & Hrb & ->)]);
    cbn [bios ssls frees err_queue allocs].
  - split; [|split; [|split; [reflexivity|split; [reflexivity|]]]].
    + intros b x Hl. rewrite lookup_insert_ne; [assumption|congruence].
    + intros s x Hl. rewrite lookup_insert_ne; [assumption|congruence].
    + exists [h; sock]. split; [reflexivity|]. split; [solve_nodup|]. split.
      * intros a Ha. apply elem_of_cons in Ha as [->|Ha].
        { repeat (split; [assumption|]). right.
          rewrite lookup_insert_eq. eauto. }
        apply elem_of_cons in Ha as [->|Ha]; [|now apply elem_of_nil in Ha].
        repeat (split; [assumption|]). left.
        rewrite lookup_insert_eq. eauto.
      * eexists. split; [apply lookup_insert_eq|]. cbn [rbio wbio].
        repeat split; set_solver.
  - split; [|split; [|split; [reflexivity|split; [reflexivity|]]]].
    + intros b x Hl. rewrite !lookup_insert_ne; [assumption|congruence..].
    + intros s x Hl. rewrite lookup_insert_ne; [assumption|congruence].
    + exists [h; sock; rb]. split; [reflexivity|]. split; [solve_nodup|].
      split.
      * intros a Ha. apply elem_of_cons in Ha as [->|Ha].
        { repeat (split; [assumption|]). right.
          rewrite lookup_insert_eq. eauto. }
        apply elem_of_cons in Ha as [->|Ha].
        { repeat (split; [assumption|]). left.
          rewrite lookup_insert_ne by congruence.
          rewrite lookup_insert_eq. eauto. }
        apply elem_of_cons in Ha as [->|Ha]; [|now apply elem_of_nil in Ha].
        repeat (split; [assumption|]). left.
        rewrite lookup_insert_eq. eauto.
      * eexists. split; [apply lookup_insert_eq|]. cbn [rbio wbio].
        repeat split; set_solver.
Qed.

Lemma promote_success_frame_witness :
  exists h w1,
    sslPromoteToSSL plain_env 5 0 9 [22; 3; 1] 3 stray_world
    = (Done (0, h), w1) /\
    bios w1 !! 20 = bios stray_world !! 20 /\
    ssls w1 !! 10 = ssls stray_world !! 10 /\ frees w1 = [].
Proof.
  assert (Hrun : exists h w1,
             sslPromoteToSSL plain_env 5 0 9 [22; 3; 1] 3 stray_world
             = (Done (0, h), w1))
    by (vm_compute; do 2 eexists; reflexivity).
  destruct Hrun as (h & w1 & Hrun). exists h, w1. split; [exact Hrun|].
  destruct (promote_success_frame plain_env _ _ _ _ _ _ _ _ eq_refl Hrun)
    as (Hb & Hs & Hf & _).
  split; [|split; [|exact Hf]].
  - apply Hb. reflexivity.
  - apply Hs. reflexivity.
Defined.

(** X16: whenever a promotion returns, with a session or without, SIGPIPE
    is neither blocked nor pending: a SIGPIPE that was pending has been
    taken by [sigwait] or delivered when the mask was lifted. *)
Theorem promote_leaves_sigpipe_open
        (e : Env) (sslContext hndl fd : Z) (buf : list Z) (len rc h : Z)
        (w w1 : World) :
  sslPromoteToSSL e sslContext hndl fd buf len w = (Done (rc, h), w1) ->
  sigpipe_blocked w1 = false /\ sigpipe_pending w1 = false.
Proof.
  intros H. unfold sslPromoteToSSL in H.
  do 8 inv_bind H. injection H as _ _ <-.
  apply sslUnblockSigPipe_done in Hm6. subst. now split.
Qed.

Lemma promote_leaves_sigpipe_open_witness :
  exists w1,
    sslPromoteToSSL plain_env 5 0 9 [] 0
      (set_sigpipe true true empty_world) = (Done (0, 1), w1) /\
    sigpipe_blocked w1 = false /\ sigpipe_pending w1 = false.
Proof.
  assert (Hrun : exists w1,
             sslPromoteToSSL plain_env 5 0 9 [] 0
               (set_sigpipe true true empty_world) = (Done (0, 1), w1))
    by (vm_compute; eexists; reflexivity).
  destruct Hrun as [w1 Hrun]. exists w1. split; [exact Hrun|].
  exact (promote_leaves_sigpipe_open _ _ _ _ _ _ _ _ _ _ Hrun).
Defined.

(** X17: a release of a session that returns has cleared the error queue and
    freed the session object last; the object is no longer live. *)
Theorem release_frees_session
        (e : Env) (h h' : Z) (w w' : World) :
  h <> 0 -> sslFreeHndl e h w = (Done h', w') ->
  ssls w' !! h = None /\ exists fr, frees w' = fr ++ [h].
Proof.
  intros Hh H. unfold sslFreeHndl in H.
  destruct (Z.eqb_spec h 0); [contradiction|]. cbn [negb] in H.
  inv_bind H. injection H as _ <-.
  do 8 inv_bind Hm.
  assert (w0 = w8) as ->.
  { unfold dcheck, ret, abort in Hm.
    destruct (negb a7); [now injection Hm|].
    destruct (debug e); [discriminate | now injection Hm]. }
  unfold ERR_peek_error in Hm7. injection Hm7 as _ <-.
  unfold SSL_free in Hm6.
  destruct (Z.eqb_spec h 0); [contradiction|].
  do 3 inv_bind Hm6.
  injection Hm6 as _ <-. cbn [ssls frees log_free update_ssls].
  split; [apply lookup_delete_eq | eauto].
Qed.

Lemma release_frees_session_witness :
  exists w', sslFreeHndl plain_env 1 promoted_world = (Done 0, w') /\
             ssls w' !! 1 = None.
Proof.
  assert (Hrun : exists w',
             sslFreeHndl plain_env 1 promoted_world = (Done 0, w'))
    by (vm_compute; eexists; reflexivity).
  destruct Hrun as [w' Hrun]. exists w'. split; [exact Hrun|].
  apply (release_frees_session plain_env 1 0 promoted_world w');
    [discriminate | exact Hrun].
Defined.

End Sessions.

(** ** Loading the library *)

Section Loading.

Import Loader.

Lemma assign_eq (v : list Z -> Z) (fn : list Z) (p : Z) :
  assign v fn p fn = p.
Proof. unfold assign. now rewrite bool_decide_eq_true_2. Qed.

Lemma assign_ne (v : list Z -> Z) (fn g : list Z) (p : Z) :
  g <> fn -> assign v fn p g = v g.
Proof. intros H. unfold assign. now rewrite bool_decide_eq_false_2. Qed.

Lemma load_symbols_found (ld : Linker) (todo : list (list Z)) :
  forall i v v',
    load_symbols ld i todo v = (v', true) ->
    (forall fn, fn ∈ todo -> v' fn <> 0) /\
    (forall fn, fn ∉ todo -> v' fn = v fn).
Proof.
  induction todo as [|fn rest IH]; intros i v v' H; cbn [load_symbols] in H.
  - injection H as <-. split; [intros fn Hin; inversion Hin | reflexivity].
  - destruct (Z.eqb_spec (loadSymbol ld i fn) 0) as [|Hp]; [discriminate|].
    destruct (IH _ _ _ H) as (Hin & Hout). split.
    + intros g Hg. destruct (decide (g ∈ rest)) as [Hr|Hr]; [auto|].
      apply elem_of_cons in Hg as [->|Hg]; [|contradiction].
      now rewrite (Hout _ Hr), assign_eq.
    + intros g Hg. apply not_elem_of_cons in Hg as [Hne Hr].
      rewrite (Hout _ Hr). now apply assign_ne.
Qed.

Lemma load_symbols_frame (ld : Linker) (todo : list (list Z)) :
  forall i v v' ok,
    load_symbols ld i todo v = (v', ok) ->
    forall fn, fn ∉ todo -> v' fn = v fn.
Proof.
  induction todo as [|fn rest IH]; intros i v v' ok H g Hg;
    cbn [load_symbols] in H.
  - now injection H as <- _.
  - apply not_elem_of_cons in Hg as [Hne Hr].
    destruct (loadSymbol ld i fn =? 0).
    + injection H as <- _. now apply assign_ne.
    + rewrite (IH _ _ _ _ H _ Hr). now apply assign_ne.
Qed.

(** Every symbol is found exactly when the loop runs to its end. *)
Lemma load_symbols_ok (ld : Linker) (todo : list (list Z)) :
  forall i v,
    snd (load_symbols ld i todo v) = true <->
    forall j fn, todo !! j = Some fn -> loadSymbol ld (i + j) fn <> 0.
Proof.
  induction todo as [|fn rest IH]; intros i v; cbn [load_symbols].
  - split; [intros _ j fn Hj; destruct j; discriminate | reflexivity].
  - destruct (Z.eqb_spec (loadSymbol ld i fn) 0) as [Hz|Hp]; cbn [snd].
    + split; [discriminate|]. intros H. exfalso.
      apply (H O fn eq_refl). now rewrite Nat.add_0_r.
    + rewrite IH. split.
      * intros H [|j] g Hj.
        { injection Hj as <-. now rewrite Nat.add_0_r. }
        replace (i + S j)%nat with (S i + j)%nat by lia. now apply H.
      * intros H j g Hj. replace (S i + j)%nat with (i + S j)%nat by lia.
        now apply H.
Qed.

Lemma clear_symbols_fold (l : list (list Z)) :
  forall (v : list Z -> Z) fn,
    foldl (fun v fn => assign v fn 0) v l fn
    = if decide (fn ∈ l) then 0 else v fn.
Proof.
  induction l as [|g l IH]; intros v fn; cbn [foldl].
  - destruct (decide (fn ∈ [])) as [Hin|]; [inversion Hin | reflexivity].
  - rewrite IH. destruct (decide (fn ∈ l)) as [Hl|Hl].
    + destruct (decide (fn ∈ g :: l)) as [|Hn]; [reflexivity|].
      exfalso. apply Hn. now right.
    + destruct (decide (fn = g)) as [->|Hne].
      * rewrite assign_eq.
        destruct (decide (g ∈ g :: l)) as [|Hn]; [reflexivity|].
        exfalso. apply Hn. now left.
      * rewrite assign_ne by congruence.
        destruct (decide (fn ∈ g :: l)) as [Hin|]; [|reflexivity].
        apply elem_of_cons in Hin as [|]; contradiction.
Qed.

Lemma library_init_listed : str "SSL_library_init" ∈ symbols.
Proof. apply list_elem_of_In. vm_compute. tauto. Qed.

(** What [loadSSL] leaves. *)
Lemma loadSSL_done (ld : Linker) (err dbg : bool) (st st' : Lib) :
  loadSSL ld err dbg st = Done st' ->
  initialized st' = initialized st /\
  (forall fn, fn ∉ symbols -> var st' fn = var st fn) /\
  ((snd (load_symbols ld 0 symbols (vars st)) = true /\
    inits st' = S (inits st) /\
    forall fn, fn ∈ symbols -> var st' fn <> 0) \/
   (snd (load_symbols ld 0 symbols (vars st)) = false /\
    inits st' = inits st /\
    forall fn, fn ∈ symbols -> var st' fn = 0)).
Proof.
  unfold loadSSL. destruct (negb _); [discriminate|].
  destruct (load_symbols ld 0 symbols (vars st)) as [v [|]] eqn:Hl;
    cbn [snd].
  - destruct (err && dbg); [discriminate|]. intros [= <-].
    cbn [initialized inits]. unfold var. cbn [vars].
    destruct (load_symbols_found _ _ _ _ _ Hl) as (Hin & Hout).
    split; [reflexivity|]. split; [assumption|].
    left. split; [reflexivity|]. split; [reflexivity|]. assumption.
  - intros [= <-]. cbn [initialized inits]. unfold var. cbn [vars].
    unfold clear_symbols. split; [reflexivity|]. split.
    + intros fn Hn. rewrite clear_symbols_fold.
      destruct (decide (fn ∈ symbols)); [contradiction|].
      now rewrite (load_symbols_frame _ _ _ _ _ _ Hl _ Hn).
    + right. split; [reflexivity|]. split; [reflexivity|].
      intros fn Hfn. rewrite clear_symbols_fold.
      now destruct (decide (fn ∈ symbols)).
Qed.

(** X18: [loadSSL] is all or nothing: when it returns, either every pointer of
    its table is set, or every one is NULL, whichever symbol was missing;
    the pointers outside the table are as they were. *)
Theorem loadSSL_all_or_nothing
        (ld : Linker) (err dbg : bool) (st st' : Lib) :
  loadSSL ld err dbg st = Done st' ->
  (Forall (fun fn => var st' fn <> 0) symbols \/
   Forall (fun fn => var st' fn = 0) symbols) /\
  (forall fn, fn ∉ symbols -> var st' fn = var st fn).
Proof.
  intros H. apply loadSSL_done in H.
  destruct H as (_ & Hout & [(_ & _ & Hall) | (_ & _ & Hall)]).
  - split; [left|assumption]. now apply Forall_forall.
  - split; [right|assumption]. now apply Forall_forall.
Qed.

Lemma loadSSL_all_or_nothing_witness :
  exists st',
    loadSSL half_linked false false unloaded = Done st' /\
    (Forall (fun fn => var st' fn <> 0) symbols \/
     Forall (fun fn => var st' fn = 0) symbols).
Proof.
  eexists. split; [reflexivity|].
  eapply (loadSSL_all_or_nothing half_linked false false unloaded).
  reflexivity.
Defined.

(** X19: the first call of [serverSupportsSSL] answers yes exactly when every
    symbol of the table can be found; [SSL_library_init] is then called
    once, and otherwise not at all. *)
Theorem serverSupportsSSL_first_call
        (ld : Linker) (err dbg : bool) (st st' : Lib) (b : bool) :
  initialized st = false ->
  var st (str "SSL_library_init") = 0 ->
  serverSupportsSSL ld err dbg st = Done (b, st') ->
  (b = true <->
   forall i fn, symbols !! i = Some fn -> loadSymbol ld i fn <> 0) /\
  inits st' = (if b then S (inits st) else inits st) /\
  initialized st' = true.
Proof.
  intros Hi Hv. unfold serverSupportsSSL. rewrite Hi.
  destruct (loadSSL _ _ _ _) as [st1| |] eqn:Hl; try discriminate.
  intros [= <- <-]. apply loadSSL_done in Hl. cbn [vars initialized inits] in Hl.
  destruct Hl as (Hinit & _ & [(Hok & Hn & Hall) | (Hok & Hn & Hall)]).
  - specialize (Hall _ library_init_listed).
    destruct (Z.eqb_spec (var st1 (str "SSL_library_init")) 0);
      [contradiction|]. cbn [negb].
    split; [|split; assumption]. split; [|reflexivity]. intros _.
    now apply (load_symbols_ok ld symbols O (vars st)).
  - rewrite (Hall _ library_init_listed). cbn [negb Z.eqb].
    split; [|split; assumption]. split; [discriminate|]. intros Hres.
    apply (load_symbols_ok ld symbols O (vars st)) in Hres. congruence.
Qed.

Lemma serverSupportsSSL_first_call_witness :
  exists st', serverSupportsSSL linked false false unloaded
              = Done (true, st') /\ inits st' = 1%nat.
Proof.
  eexists. split; [reflexivity|].
  eapply (serverSupportsSSL_first_call linked false false unloaded _ true
            eq_refl eq_refl).
  reflexivity.
Defined.

(** X20: the answer is settled by the first call: every later call returns
    it without consulting the linker and leaves the pointers as they
    are, whether or not the library has become available since. *)
Theorem serverSupportsSSL_once
        (ld : Linker) (err dbg : bool) (st st' : Lib) (b : bool) :
  serverSupportsSSL ld err dbg st = Done (b, st') ->
  forall ld' err' dbg',
    serverSupportsSSL ld' err' dbg' st' = Done (b, st').
Proof.
  unfold serverSupportsSSL at 1.
  destruct (initialized st) eqn:Hi.
  - intros [= <- <-] ld' err' dbg'. unfold serverSupportsSSL. now rewrite Hi.
  - destruct (loadSSL _ _ _ _) as [st1| |] eqn:Hl; try discriminate.
    intros [= <- <-] ld' err' dbg'. apply loadSSL_done in Hl.
    destruct Hl as (Hinit & _). cbn [initialized] in Hinit.
    unfold serverSupportsSSL. now rewrite Hinit.
Qed.

Lemma serverSupportsSSL_once_witness :
  exists st',
    serverSupportsSSL unlinked false false unloaded = Done (false, st') /\
    serverSupportsSSL linked false false st' = Done (false, st').
Proof.
  eexists. split; [reflexivity|].
  apply (serverSupportsSSL_once unlinked false false unloaded _ false).
  reflexivity.
Defined.

End Loading.

(** ** Installing a certificate *)

Section Installing.

Import SNI PEM Certificate.

Lemma strchr_found (x : Z) (pre r : list Z) :
  Forall (fun c => c <> x /\ c <> 0) pre ->
  strchr (pre ++ x :: r) x = Some (length pre).
Proof.
  induction 1 as [|c pre [Hx Hz] _ IH]; cbn [app strchr length].
  - now rewrite Z.eqb_refl.
  - destruct (Z.eqb_spec c x); [contradiction|].
    destruct (Z.eqb_spec c 0); [contradiction|]. now rewrite IH.
Qed.

Lemma strchr_none (x : Z) (l : list Z) :
  Forall (fun c => c <> x) l -> strchr l x = None.
Proof.
  induction 1 as [|c l Hc _ IH]; cbn [strchr]; [reflexivity|].
  destruct (Z.eqb_spec c x); [contradiction|].
  destruct (c =? 0); [reflexivity|]. now rewrite IH.
Qed.

Lemma strchr_some (x : Z) (l : list Z) :
  forall n, strchr l x = Some n ->
  exists pre r, l = pre ++ x :: r /\ length pre = n /\
                Forall (fun c => c <> x /\ c <> 0) pre.
Proof.
  induction l as [|c l IH]; intros n; cbn [strchr]; [discriminate|].
  destruct (Z.eqb_spec c x) as [->|Hx].
  - intros [= <-]. exists [], l. repeat split. constructor.
  - destruct (Z.eqb_spec c 0) as [|Hz]; [discriminate|].
    destruct (strchr l x) as [m|]; [|discriminate]. intros [= <-].
    destruct (IH m eq_refl) as (pre & r & -> & <- & Hpre).
    exists (c :: pre), r. repeat split. constructor; auto.
Qed.

Lemma strchr_absent (x : Z) (l : list Z) :
  x <> 0 -> strchr l x = None -> Forall (fun c => c <> x) (c_str l).
Proof.
  intros Hx. induction l as [|c l IH]; cbn [strchr c_str]; [constructor|].
  destruct (Z.eqb_spec c x) as [->|Hc]; [discriminate|].
  destruct (Z.eqb_spec c 0); [constructor|].
  destruct (strchr l x); [discriminate|]. intros _. constructor; auto.
Qed.

Lemma format_s_empty (pre post : list Z) :
  Forall (fun c => c <> 37) pre ->
  format_s (pre ++ 37 :: 115 :: post) [] = pre ++ post.
Proof.
  induction 1 as [|c pre Hc _ IH]; [reflexivity|].
  cbn [app]. cbn [format_s].
  destruct (pre ++ 37 :: 115 :: post) as [|c' r'] eqn:He.
  - destruct pre; discriminate.
  - destruct (Z.eqb_spec c 37); [contradiction|]. cbn [andb].
    now rewrite IH.
Qed.

(** A file name without [%] is taken as it is. *)
Lemma default_certificate_plain (filename : list Z) :
  Forall (fun c => c <> 37) (c_str filename) ->
  default_certificate filename = Done (c_str filename, false).
Proof.
  intros H. unfold default_certificate.
  rewrite strchr_none
    by (apply Forall_app; split; [assumption | repeat constructor; lia]).
  now rewrite c_str_app_nul by apply c_str_nonzero.
Qed.

(** A file name with one [%s]: the two bytes are cut out. *)
Lemma default_certificate_pattern (filename pre post : list Z) :
  c_str filename = pre ++ 37 :: 115 :: post ->
  Forall (fun c => c <> 37) pre -> Forall (fun c => c <> 37) post ->
  default_certificate filename = Done (pre ++ post, true).
Proof.
  intros He Hpre Hpost. unfold default_certificate. rewrite He.
  pose proof (c_str_nonzero filename) as Hnz. rewrite He in Hnz.
  apply Forall_app in Hnz as [Hnz1 Hnz2].
  apply Forall_cons in Hnz2 as [_ Hnz2]. apply Forall_cons in Hnz2 as [_ Hnz2].
  assert (Hpre' : Forall (fun c => c <> 37 /\ c <> 0) pre).
  { apply Forall_forall. intros c Hc. rewrite Forall_forall in Hpre, Hnz1.
    auto. }
  rewrite <- app_assoc. cbn [app].
  rewrite (strchr_found 37 pre _ Hpre').
  assert (Hd1 : drop (S (length pre)) (pre ++ 37 :: 115 :: post ++ [0])
                = 115 :: post ++ [0]).
  { change (pre ++ 37 :: 115 :: post ++ [0])
      with (pre ++ [37] ++ 115 :: post ++ [0]).
    rewrite app_assoc.
    replace (S (length pre)) with (length (pre ++ [37]))
      by (rewrite length_app; cbn [length]; lia).
    apply drop_app_length. }
  rewrite Hd1.
  rewrite strchr_none
    by (constructor; [lia|]; apply Forall_app; split;
        [assumption | repeat constructor; lia]).
  rewrite bool_decide_eq_false_2 by (intros [x Hx]; discriminate).
  assert (Hc : char_at (pre ++ 37 :: 115 :: post ++ [0]) (S (length pre))
               = 115).
  { unfold char_at.
    change (pre ++ 37 :: 115 :: post ++ [0])
      with (pre ++ [37] ++ 115 :: post ++ [0]).
    rewrite app_assoc.
    replace (S (length pre)) with (length (pre ++ [37]))
      by (rewrite length_app; cbn [length]; lia).
    apply nth_middle. }
  rewrite Hc. cbn [Z.eqb Pos.eqb negb].
  rewrite drop_app_length. unfold strlen.
  change (37 :: 115 :: post ++ [0]) with ((37 :: 115 :: post) ++ [0]).
  rewrite c_str_app_nul by (repeat constructor; (lia || assumption)).
  cbn [length].
  replace (S (S (length post)) - 1)%nat with (S (length post)) by lia.
  unfold memmove.
  rewrite take_app_length.
  assert (Hd2 : drop (length pre + 2) (pre ++ (37 :: 115 :: post) ++ [0])
                = post ++ [0]).
  { change (pre ++ (37 :: 115 :: post) ++ [0])
      with (pre ++ [37; 115] ++ post ++ [0]).
    rewrite app_assoc.
    replace (length pre + 2)%nat with (length (pre ++ [37; 115]))
      by (rewrite length_app; cbn [length]; lia).
    apply drop_app_length. }
  rewrite Hd2.
  replace (S (length post)) with (length (post ++ [0]))
    by (rewrite length_app; cbn [length]; lia).
  rewrite firstn_all.
  rewrite <- (app_assoc post), (app_assoc pre). cbn [app].
  rewrite c_str_app_nul by (apply Forall_app; split; assumption).
  reflexivity.
Qed.

(** A [%] that is not followed by [s], or a second [%], ends the
    process. *)
Lemma default_certificate_rejects (filename pre rest : list Z) :
  c_str filename = pre ++ 37 :: rest ->
  Forall (fun c => c <> 37) pre ->
  37 ∈ rest \/ char_at rest 0 <> 115 ->
  default_certificate filename = Aborted.
Proof.
  intros He Hpre Hbad. unfold default_certificate. rewrite He.
  pose proof (c_str_nonzero filename) as Hnz. rewrite He in Hnz.
  apply Forall_app in Hnz as [Hnz1 Hnz2].
  apply Forall_cons in Hnz2 as [_ Hnz2].
  assert (Hpre' : Forall (fun c => c <> 37 /\ c <> 0) pre).
  { apply Forall_forall. intros c Hc. rewrite Forall_forall in Hpre, Hnz1.
    auto. }
  rewrite <- app_assoc. cbn [app].
  rewrite (strchr_found 37 pre _ Hpre').
  assert (Hd1 : drop (S (length pre)) (pre ++ 37 :: rest ++ [0])
                = rest ++ [0]).
  { change (pre ++ 37 :: rest ++ [0]) with (pre ++ [37] ++ rest ++ [0]).
    rewrite app_assoc.
    replace (S (length pre)) with (length (pre ++ [37]))
      by (rewrite length_app; cbn [length]; lia).
    apply drop_app_length. }
  rewrite Hd1.
  destruct (strchr (rest ++ [0]) 37) as [n|] eqn:Hs.
  { rewrite bool_decide_eq_true_2 by eauto. reflexivity. }
  rewrite bool_decide_eq_false_2 by (intros [x Hx]; discriminate).
  apply strchr_absent in Hs; [|lia].
  rewrite c_str_app_nul in Hs by assumption.
  destruct Hbad as [Hin|Hch].
  { exfalso. rewrite Forall_forall in Hs. now apply (Hs 37 Hin). }
  assert (Hc : char_at (pre ++ 37 :: rest ++ [0]) (S (length pre))
               = char_at rest 0).
  { unfold char_at.
    change (pre ++ 37 :: rest ++ [0]) with (pre ++ [37] ++ rest ++ [0]).
    rewrite app_assoc.
    replace (S (length pre)) with (length (pre ++ [37%Z]) + 0)%nat
      by (rewrite length_app; cbn [length]; lia).
    rewrite app_nth2_plus. now destruct rest. }
  rewrite Hc. destruct (Z.eqb_spec (char_at rest 0) 115); [contradiction|].
  reflexivity.
Qed.

(** Every way [default_certificate] returns. *)
Lemma default_certificate_done (filename dc : list Z) (b : bool) :
  default_certificate filename = Done (dc, b) ->
  (b = false /\ dc = c_str filename /\
   Forall (fun c => c <> 37) (c_str filename)) \/
  (b = true /\
   exists pre post,
     c_str filename = pre ++ 37 :: 115 :: post /\
     Forall (fun c => c <> 37) pre /\ Forall (fun c => c <> 37) post /\
     dc = pre ++ post).
Proof.
  intros H.
  destruct (strchr (c_str filename ++ [0]) 37) as [p|] eqn:Hs.
  - right. apply strchr_some in Hs.
    destruct Hs as (pre & r & He & _ & Hpre).
    assert (Hpre' : Forall (fun c => c <> 37) pre)
      by (eapply Forall_impl; [exact Hpre | cbv beta; tauto]).
    assert (Hr : exists rest, r = rest ++ [0] /\
                              c_str filename = pre ++ 37 :: rest).
    { destruct (exists_last (l := r)) as (rest & z & ->).
      - intros ->. change (pre ++ [37]) with (pre ++ [37]) in He.
        apply app_inj_tail in He as [_ He]. discriminate.
      - exists rest. change (pre ++ 37 :: rest ++ [z])
          with (pre ++ (37 :: rest) ++ [z]) in He.
        rewrite app_assoc in He. apply app_inj_tail in He as [He <-].
        auto. }
    destruct Hr as (rest & -> & Hf).
    destruct (decide (37 ∈ rest \/ char_at rest 0 <> 115)) as [Hbad|Hok].
    { rewrite (default_certificate_rejects _ _ _ Hf Hpre' Hbad) in H.
      discriminate. }
    assert (Hno : 37 ∉ rest) by tauto.
    assert (Hhd : char_at rest 0 = 115)
      by (destruct (decide (char_at rest 0 = 115)); tauto).
    destruct rest as [|c post]; [discriminate|]. cbn in Hhd. subst c.
    assert (Hpost : Forall (fun c => c <> 37) post).
    { apply Forall_forall. intros c Hc ->. apply Hno. now right. }
    rewrite (default_certificate_pattern _ _ _ Hf Hpre' Hpost) in H.
    injection H as <- <-. split; [reflexivity|]. eauto 10.
  - left. apply strchr_absent in Hs; [|lia].
    rewrite c_str_app_nul in Hs by apply c_str_nonzero.
    rewrite (default_certificate_plain _ Hs) in H. injection H as <- <-.
    auto.
Qed.

(** X21: the default certificate of a file name that is a pattern is the file
    the pattern gives for the empty string; a file name without [%] is
    used as it is; and a [%] that is not followed by [s], or a second
    [%], ends the process. *)
Theorem default_certificate_cases (filename : list Z) :
  (Forall (fun c => c <> 37) (c_str filename) ->
   default_certificate filename = Done (c_str filename, false)) /\
  (forall pre post,
     c_str filename = pre ++ 37 :: 115 :: post ->
     Forall (fun c => c <> 37) pre -> Forall (fun c => c <> 37) post ->
     default_certificate filename
     = Done (format_s (c_str filename) [], true) /\
     format_s (c_str filename) [] = pre ++ post) /\
  (forall pre rest,
     c_str filename = pre ++ 37 :: rest ->
     Forall (fun c => c <> 37) pre ->
     37 ∈ rest \/ char_at rest 0 <> 115 ->
     default_certificate filename = Aborted).
Proof.
  split; [apply default_certificate_plain|]. split.
  - intros pre post He Hpre Hpost.
    rewrite (default_certificate_pattern _ _ _ He Hpre Hpost).
    rewrite He, format_s_empty by assumption. auto.
  - apply default_certificate_rejects.
Qed.

Lemma default_certificate_cases_witness :
  default_certificate (str "/etc/cert.pem") = Done (str "/etc/cert.pem", false)
  /\ default_certificate (str "/etc/cert%s.pem")
     = Done (str "/etc/cert.pem", true)
  /\ default_certificate (str "/etc/%s/%s.pem") = Aborted
  /\ default_certificate (str "/etc/cert%d.pem") = Aborted.
Proof.
  split; [|split; [|split]].
  - apply (default_certificate_cases (str "/etc/cert.pem")).
    vm_compute. repeat constructor; discriminate.
  - refine (proj1 (proj1 (proj2 (default_certificate_cases
              (str "/etc/cert%s.pem"))) (str "/etc/cert") (str ".pem")
              eq_refl _ _)); vm_compute; repeat constructor; discriminate.
  - refine (proj2 (proj2 (default_certificate_cases (str "/etc/%s/%s.pem")))
              (str "/etc/") (str "s/%s.pem") eq_refl _ _).
    + vm_compute. repeat constructor; discriminate.
    + left. apply list_elem_of_In. vm_compute. tauto.
  - refine (proj2 (proj2 (default_certificate_cases (str "/etc/cert%d.pem")))
              (str "/etc/cert") (str "d.pem") eq_refl _ _).
    + vm_compute. repeat constructor; discriminate.
    + right. discriminate.
Defined.

(** Every way [sslSetCertificate] returns. *)
Lemma sslSetCertificate_done
      (e : SetupEnv) (ssl ssl' : SSLSupport) (filename : list Z)
      (autoGenerateMissing : Z) (reg : bool) (tr : list event) :
  sslSetCertificate e ssl filename autoGenerateMissing = Done (ssl', reg, tr) ->
  supports e = true /\ new_ctx e <> 0 /\
  (reg = true -> callback_ok e = true) /\
  ssl' = {| enabled := enabled ssl; sslContext := new_ctx e;
            sniCertificatePattern :=
              if reg then Some (c_str filename)
              else sniCertificatePattern ssl;
            generateMissing := negb (autoGenerateMissing =? 0);
            sniContexts := sniContexts ssl |} /\
  exists dc,
    default_certificate filename = Done (dc, reg) /\
    ((load_ok e 0 = true /\
      tr = [EvCtxNew (new_ctx e); EvLoad (new_ctx e) dc]) \/
     (autoGenerateMissing <> 0 /\ load_ok e 0 = false /\
      load_ok e 1 = true /\
      exists hostname,
        host e = Some hostname /\ canonical e <> LookupNull /\
        tr = [EvCtxNew (new_ctx e); EvLoad (new_ctx e) dc;
              EvGenerate dc
                (match canonical e with
                 | LookupEntry h_name => c_str h_name
                 | _ => c_str hostname
                 end);
              EvLoad (new_ctx e) dc])).
Proof.
  unfold sslSetCertificate.
  destruct (supports e); [|discriminate]. cbn [negb].
  destruct (default_certificate filename) as [[dc b]| |] eqn:Hdc;
    try discriminate.
  destruct (Z.eqb_spec (new_ctx e) 0) as [|Hctx]; [discriminate|].
  intros H.
  assert (Hfin : forall tr0,
    (if b && negb (callback_ok e) then Aborted
     else if pending_err e && verbose e then Aborted
     else Done
            ({| enabled := enabled ssl; sslContext := new_ctx e;
                sniCertificatePattern :=
                  if b then Some (c_str filename)
                  else sniCertificatePattern ssl;
                generateMissing := negb (autoGenerateMissing =? 0);
                sniContexts := sniContexts ssl |}, b, tr0))
    = Done (ssl', reg, tr) ->
    b = reg /\ tr0 = tr /\ (reg = true -> callback_ok e = true) /\
    ssl' = {| enabled := enabled ssl; sslContext := new_ctx e;
              sniCertificatePattern :=
                if reg then Some (c_str filename)
                else sniCertificatePattern ssl;
              generateMissing := negb (autoGenerateMissing =? 0);
              sniContexts := sniContexts ssl |}).
  { intros tr0. destruct (b && negb (callback_ok e)) eqn:Hcb; [discriminate|].
    destruct (pending_err e && verbose e); [discriminate|].
    intros [= <- <- <-]. repeat split.
    intros ->. now destruct (callback_ok e). }
  destruct (Z.eqb_spec autoGenerateMissing 0) as [Ha|Ha]; cbn [negb] in H.
  - destruct (load_ok e 0) eqn:H0; [|discriminate].
    apply Hfin in H. destruct H as (<- & <- & Hcb & ->).
    repeat (split; [assumption || reflexivity|]).
    exists dc. split; [reflexivity|]. now left.
  - destruct (load_ok e 0) eqn:H0.
    + apply Hfin in H. destruct H as (<- & <- & Hcb & ->).
      repeat (split; [assumption || reflexivity|]).
      exists dc. split; [reflexivity|]. now left.
    + destruct (host e) as [hostname|]; [|discriminate].
      destruct (canonical e) as [| |h_name] eqn:Hcan; try discriminate;
        destruct (load_ok e 1) eqn:H1; try discriminate;
        apply Hfin in H; destruct H as (<- & <- & Hcb & ->);
        repeat (split; [assumption || reflexivity|]);
        exists dc; (split; [reflexivity|]); right;
        repeat (split; [assumption || reflexivity|]);
        exists hostname; repeat split; discriminate.
Qed.

(** X22: [sslSetCertificate] leaves a support object the callback can work
    on: its default context is the new one and is not NULL, the cache
    is as it was, certificates are generated when asked for, and the
    callback is registered, with the file name as its pattern, exactly
    when the file name has a [%]. *)
Theorem set_certificate_configures
        (e : SetupEnv) (ssl ssl' : SSLSupport) (filename : list Z)
        (autoGenerateMissing : Z) (reg : bool) (tr : list event) :
  sslSetCertificate e ssl filename autoGenerateMissing = Done (ssl', reg, tr) ->
  sslContext ssl' = new_ctx e /\ new_ctx e <> 0 /\
  sniContexts ssl' = sniContexts ssl /\
  generateMissing ssl' = negb (autoGenerateMissing =? 0) /\
  (reg = true <-> 37 ∈ c_str filename) /\
  sniCertificatePattern ssl'
  = (if reg then Some (c_str filename) else sniCertificatePattern ssl) /\
  ((forall k c, sniContexts ssl !! k = Some c -> c <> 0) -> configured ssl').
Proof.
  intros H. apply sslSetCertificate_done in H.
  destruct H as (_ & Hctx & _ & -> & dc & Hdc & _).
  cbn [sslContext sniContexts generateMissing sniCertificatePattern].
  repeat (split; [assumption || reflexivity|]). split.
  - apply default_certificate_done in Hdc.
    destruct Hdc as [(-> & _ & Hno) | (-> & pre & post & He & _)].
    + split; [discriminate|]. intros Hin. exfalso.
      rewrite Forall_forall in Hno. now apply (Hno 37 Hin).
    + split; [intros _|reflexivity]. rewrite He.
      apply elem_of_app. right. now left.
  - split; [reflexivity|]. intros Hv. split; assumption.
Qed.

Lemma set_certificate_configures_witness :
  exists ssl' tr,
    sslSetCertificate example_setup (initSSL true)
                      (str "/etc/certificate%s.pem") 0
    = Done (ssl', true, tr) /\
    sniCertificatePattern ssl' = Some (str "/etc/certificate%s.pem").
Proof.
  assert (Hrun : exists ssl' tr,
             sslSetCertificate example_setup (initSSL true)
                               (str "/etc/certificate%s.pem") 0
             = Done (ssl', true, tr))
    by (vm_compute; do 2 eexists; reflexivity).
  destruct Hrun as (ssl' & tr & Hrun). exists ssl', tr.
  split; [exact Hrun|].
  destruct (set_certificate_configures _ _ _ _ _ _ _ Hrun)
    as (_ & _ & _ & _ & _ & H & _).
  exact H.
Defined.

(** X23: after [sslSetCertificate] on a new support object with a pattern,
    the callback finds what it needs: the object has a default context,
    owns no context twice, and a callback on it does not abort unless
    an error is pending, the block for the name or [SSL_CTX_new] fails,
    or [SSL_set_SSL_CTX] fails or leaves an error in the queue. *)
Theorem callback_ready_after_setup
        (e : SetupEnv) (supported : bool) (ssl' : SSLSupport)
        (filename : list Z) (autoGenerateMissing : Z) (tr : list event) :
  sslSetCertificate e (initSSL supported) filename autoGenerateMissing
  = Done (ssl', true, tr) ->
  configured ssl' /\ owned_once ssl' /\
  forall bound e',
    err_pending e' = false -> block_ok e' = true -> fresh_ctx e' <> 0 ->
    switch_ok e' = true -> switch_err e' = false ->
    sslSNICallback ssl' bound e' <> Aborted.
Proof.
  intros H. apply sslSetCertificate_done in H.
  destruct H as (_ & Hctx & _ & -> & _).
  split; [|split].
  - split; [assumption|]. intros k c Hl. cbn in Hl.
    rewrite lookup_empty in Hl. discriminate.
  - intros k1 k2 c Hl. cbn in Hl. rewrite lookup_empty in Hl. discriminate.
  - intros bound e' He Hb Hf Hso Hse Hab.
    apply sslSNICallback_aborted in Hab.
    destruct Hab as [Hab | (name & key & _ & _ & _ &
                            [Hab | [(_ & [Hab | Hab]) | (_ & [Hab | Hab])]])].
    + congruence.
    + congruence.
    + contradiction.
    + discriminate.
    + congruence.
    + congruence.
Qed.

Lemma callback_ready_after_setup_witness :
  exists ssl' tr,
    sslSetCertificate example_setup (initSSL true)
                      (str "/etc/certificate%s.pem") 1
    = Done (ssl', true, tr) /\
    sslSNICallback ssl' 1 (example_env "a" 7 true) <> Aborted.
Proof.
  assert (Hrun : exists ssl' tr,
             sslSetCertificate example_setup (initSSL true)
                               (str "/etc/certificate%s.pem") 1
             = Done (ssl', true, tr))
    by (vm_compute; do 2 eexists; reflexivity).
  destruct Hrun as (ssl' & tr & Hrun). exists ssl', tr.
  split; [exact Hrun|].
  destruct (callback_ready_after_setup _ _ _ _ _ _ Hrun) as (_ & _ & H).
  apply H; [reflexivity | reflexivity | discriminate | reflexivity
           | reflexivity].
Defined.

(** X24: [sslSetCertificate] generates a certificate only when it is asked to
    and the file cannot be loaded at first; it is generated in the default
    file, for the canonical name of the host or else the host name, and
    the file is then loaded again.  When the function returns, the last
    attempt to load the file has succeeded: a file that cannot be loaded
    ends the process. *)
Theorem set_certificate_generation
        (e : SetupEnv) (ssl ssl' : SSLSupport) (filename : list Z)
        (autoGenerateMissing : Z) (reg : bool) (tr : list event) :
  sslSetCertificate e ssl filename autoGenerateMissing = Done (ssl', reg, tr) ->
  (load_ok e 0 = true \/ (autoGenerateMissing <> 0 /\ load_ok e 1 = true)) /\
  forall path cn,
    In (EvGenerate path cn) tr ->
    autoGenerateMissing <> 0 /\ load_ok e 0 = false /\
    default_certificate filename = Done (path, reg) /\
    exists hostname,
      host e = Some hostname /\
      cn = match canonical e with
           | LookupEntry h_name => c_str h_name
           | _ => c_str hostname
           end.
Proof.
  intros H. apply sslSetCertificate_done in H.
  destruct H as (_ & _ & _ & _ & dc & Hdc &
                 [(H0 & ->) | (Ha & H0 & H1 & hostname & Hh & _ & ->)]).
  - split; [now left|]. intros path cn Hin. simpl in Hin.
    intuition discriminate.
  - split; [now right|]. intros path cn Hin. simpl in Hin.
    destruct Hin as [Hin|[Hin|[Hin|[Hin|[]]]]]; try discriminate.
    injection Hin as <- <-. eauto 10.
Qed.

Lemma set_certificate_generation_witness :
  exists ssl' tr,
    sslSetCertificate
      {| supports := true; new_ctx := 1;
         load_ok := fun n => negb (n =? 0)%nat; host := Some (str "box");
         canonical := LookupEntry (str "box.example.org");
         callback_ok := true; pending_err := false; verbose := false |}
      (initSSL true) (str "/etc/certificate%s.pem") 1
    = Done (ssl', true, tr) /\
    default_certificate (str "/etc/certificate%s.pem")
    = Done (str "/etc/certificate.pem", true).
Proof.
  assert (Hrun : exists ssl' tr,
    sslSetCertificate
      {| supports := true; new_ctx := 1;
         load_ok := fun n => negb (n =? 0)%nat; host := Some (str "box");
         canonical := LookupEntry (str "box.example.org");
         callback_ok := true; pending_err := false; verbose := false |}
      (initSSL true) (str "/etc/certificate%s.pem") 1
    = Done (ssl', true, tr) /\
    In (EvGenerate (str "/etc/certificate.pem") (str "box.example.org")) tr).
  { do 2 eexists. split; [reflexivity|]. vm_compute. auto 10. }
  destruct Hrun as (ssl' & tr & Hrun & Hin). exists ssl', tr.
  split; [exact Hrun|].
  destruct (set_certificate_generation _ _ _ _ _ _ _ Hrun) as (_ & H).
  destruct (H _ _ Hin) as (_ & _ & Hdc & _). exact Hdc.
Defined.

(** *** Reading the file *)

Lemma store_app (done_ tail d : list Z) :
  store (done_ ++ tail) (length done_) d
  = done_ ++ d ++ drop (length d) tail.
Proof.
  unfold store. now rewrite take_app_length, drop_app_add.
Qed.

Lemma store_wipe (buf : list Z) :
  store buf O (repeat 0 (length buf)) = repeat 0 (length buf).
Proof.
  unfold store. cbn [take app Nat.add]. rewrite repeat_length.
  now rewrite drop_all, app_nil_r.
Qed.

Lemma malloc_unwritten (n k : nat) (garbage : nat -> nat -> Z) :
  Forall (unwritten garbage) (malloc n (garbage k)).
Proof.
  unfold malloc. apply Forall_forall. intros c Hc.
  apply list_elem_of_fmap in Hc as (j & -> & _). now exists k, j.
Qed.

Lemma malloc_length (n : nat) (g : nat -> Z) : length (malloc n g) = n.
Proof. unfold malloc. now rewrite length_map, length_seq. Qed.

Ltac zbool :=
  symmetry;
  first [apply Z.ltb_lt | apply Z.leb_le | apply Z.eqb_eq
        | apply Z.ltb_ge | apply Z.leb_gt | apply Z.eqb_neq];
  lia.

(** The loop on a descriptor that delivers all that is asked for: it
    ends with the bytes that were pending after those read before. *)
Lemma read_loop_regular (garbage : nat -> nat -> Z)
      (bu : nat -> Z) (fa : nat -> bool) :
  (forall k, fa k = false) -> (forall k, size_modulus <= bu k) ->
  forall fuel rest k done_ tail freed,
    (length rest < fuel)%nat ->
    (1 < length tail)%nat ->
    Z.of_nat (length tail) <= inc + 1 ->
    Z.of_nat (length done_) + Z.of_nat (length rest) + 2 * inc + 2
    < size_modulus ->
    Forall (unwritten garbage) tail ->
    Forall (Forall (fun c => c = 0)) freed ->
    exists tail' freed',
      read_loop fuel {| pending := rest; burst := bu; fails := fa |}
                garbage k (done_ ++ tail)
                (Z.of_nat (length done_ + length tail))
                (Z.of_nat (length done_)) freed
      = Some (Done (done_ ++ rest ++ 0 :: tail', freed')) /\
      Forall (unwritten garbage) tail' /\
      Forall (Forall (fun c => c = 0)) freed'.
Proof.
  intros Hfa Hbu. unfold size_modulus in *.
  induction fuel as [|fuel IH];
    intros rest k done_ tail freed Hfuel Ht1 Ht2 Hbound Hjunk Hfreed;
    [lia|].
  unfold inc in *. cbn [read_loop]. unfold size_modulus, inc.
  set (len := Z.of_nat (length done_)).
  set (bufSize := Z.of_nat (length done_ + length tail)).
  assert (Hlen : len = Z.of_nat (length done_)) by reflexivity.
  assert (Hbs : bufSize = len + Z.of_nat (length tail))
    by (unfold bufSize, len; lia).
  clearbody len bufSize.
  rewrite (Z.mod_small (bufSize - 1)) by lia.
  replace (len <? bufSize - 1) with true by zbool. cbn [negb].
  rewrite (Z.mod_small (bufSize - len - 1)) by lia.
  unfold read. cbn [fails burst pending]. rewrite Hfa.
  rewrite Z.min_l by (specialize (Hbu k); lia).
  replace (Z.to_nat (bufSize - len - 1)) with (length tail - 1)%nat by lia.
  replace (Z.to_nat len) with (length done_) by lia.
  set (d := take (length tail - 1) rest).
  assert (Hd : (length d <= length tail - 1)%nat)
    by (unfold d; rewrite length_take; lia).
  rewrite store_app.
  destruct (Nat.lt_ge_cases (length rest) (length tail - 1)) as [Hshort|Hfull].
  - assert (Hdr : d = rest) by (unfold d; apply take_ge; lia).
    rewrite Hdr.
    rewrite (Z.mod_small (Z.of_nat (length rest))) by lia.
    replace (Z.of_nat (length rest) =? bufSize - len - 1) with false
      by zbool.
    cbn [negb].
    assert (Hlen' : (if 0 <? Z.of_nat (length rest)
                     then (len + Z.of_nat (length rest)) mod 2 ^ 64
                     else len)
                    = Z.of_nat (length (done_ ++ rest))).
    { rewrite length_app. destruct (0 <? Z.of_nat (length rest)) eqn:H0.
      - rewrite Z.mod_small by lia. lia.
      - lia. }
    rewrite Hlen'. clear Hlen'.
    replace (Z.of_nat (length (done_ ++ rest)) <? bufSize) with true
      by (symmetry; apply Z.ltb_lt; rewrite length_app; lia).
    cbn [negb]. rewrite Nat2Z.id.
    exists (drop (S (length rest)) tail), freed.
    split; [|split; [now apply Forall_drop | assumption]].
    do 3 f_equal. rewrite (app_assoc done_ rest).
    rewrite insert_app_r_alt by lia. rewrite Nat.sub_diag.
    rewrite <- app_assoc. do 2 f_equal.
    destruct (drop (length rest) tail) as [|x t] eqn:Hdrop.
    + apply (f_equal length) in Hdrop. rewrite length_drop in Hdrop.
      cbn [length] in Hdrop. lia.
    + cbn [insert list_insert]. f_equal.
      replace (S (length rest)) with (length rest + 1)%nat by lia.
      rewrite <- drop_drop, Hdrop. reflexivity.
  - assert (Hdl : length d = (length tail - 1)%nat)
      by (unfold d; rewrite length_take; lia).
    rewrite Hdl.
    rewrite (Z.mod_small (Z.of_nat (length tail - 1))) by lia.
    replace (Z.of_nat (length tail - 1) =? bufSize - len - 1) with true
      by zbool.
    cbn [negb].
    replace (0 <? Z.of_nat (length tail - 1)) with true by zbool.
    rewrite (Z.mod_small (len + Z.of_nat (length tail - 1))) by lia.
    rewrite (Z.mod_small (bufSize + 16384)) by lia.
    replace (len + Z.of_nat (length tail - 1) <=? bufSize + 16384) with true
      by zbool.
    cbn [negb].
    replace (Z.to_nat (len + Z.of_nat (length tail - 1)))
      with (length (done_ ++ d)) by (rewrite length_app; lia).
    rewrite (app_assoc done_ d), take_app_length.
    assert (Hold : store ((done_ ++ d) ++ drop (length tail - 1) tail) 0
                     (repeat 0 (Z.to_nat bufSize))
                   = repeat 0 (Z.to_nat bufSize)).
    { replace (Z.to_nat bufSize)
        with (length ((done_ ++ d) ++ drop (length tail - 1) tail))
        by (rewrite !length_app, length_drop; lia).
      apply store_wipe. }
    rewrite Hold.
    set (fresh := malloc (Z.to_nat (bufSize + 16384)) (garbage (S k))).
    assert (Hfresh : fresh = take (length (done_ ++ d)) fresh
                             ++ drop (length (done_ ++ d)) fresh)
      by (symmetry; apply take_drop).
    assert (Hnew : store fresh 0 (done_ ++ d)
                   = (done_ ++ d) ++ drop (length (done_ ++ d)) fresh)
      by (unfold store; cbn [take app Nat.add]; reflexivity).
    rewrite Hnew.
    set (tail1 := drop (length (done_ ++ d)) fresh).
    assert (Hfl : length fresh = Z.to_nat (bufSize + 16384))
      by apply malloc_length.
    assert (Ht1l : Z.of_nat (length tail1) = 16385).
    { unfold tail1. rewrite length_drop, Hfl, length_app. lia. }
    replace (bufSize + 16384)
      with (Z.of_nat (length (done_ ++ d) + length tail1))
      by (rewrite length_app in *; lia).
    replace (len + Z.of_nat (length tail - 1))
      with (Z.of_nat (length (done_ ++ d)))
      by (rewrite length_app; lia).
    destruct (IH (drop (length tail - 1) rest) (S k) (done_ ++ d) tail1
                 (freed ++ [repeat 0 (Z.to_nat bufSize)]))
      as (tail' & freed' & Hrun & Hj & Hf).
    + rewrite length_drop. lia.
    + lia.
    + lia.
    + rewrite length_app, length_drop. lia.
    + unfold tail1. apply Forall_drop. apply malloc_unwritten.
    + apply Forall_app. split; [assumption|]. constructor; [|constructor].
      apply Forall_forall. intros c Hc.
      apply list_elem_of_In, repeat_spec in Hc. exact Hc.
    + exists tail', freed'. split; [|split; assumption].
      rewrite Hrun. do 3 f_equal. rewrite <- app_assoc. f_equal.
      rewrite app_assoc. f_equal. unfold d. apply take_drop.
Qed.

Lemma c_str_cut (a b : list Z) : c_str (a ++ 0 :: b) = c_str a.
Proof.
  induction a as [|c a IH]; [reflexivity|]. cbn [app c_str].
  destruct (c =? 0); [reflexivity | now rewrite IH].
Qed.

Lemma malloc_inc_length (g : nat -> Z) :
  Z.of_nat (length (malloc (Z.to_nat inc) g)) = inc.
Proof. rewrite malloc_length. unfold inc. lia. Qed.

Lemma read_loop_from_start
      (content : list Z) (garbage : nat -> nat -> Z) (block : list Z) :
  Z.of_nat (length content) + 2 * inc + 2 < size_modulus ->
  Z.of_nat (length block) = inc ->
  Forall (unwritten garbage) block ->
  exists tail freed,
    read_loop (S (length content)) (regular_file content) garbage O block
              inc 0 []
    = Some (Done (content ++ 0 :: tail, freed)) /\
    Forall (unwritten garbage) tail /\
    Forall (Forall (fun c => c = 0)) freed.
Proof.
  intros Hbound Hl Hj.
  pose proof (read_loop_regular garbage (fun _ => size_modulus)
                (fun _ => false) (fun _ => eq_refl) (fun _ => Z.le_refl _)
                (S (length content)) content O [] block []) as H.
  cbn [app length Nat.add] in H. rewrite Hl in H.
  apply H.
  - lia.
  - unfold inc in Hl. lia.
  - lia.
  - lia.
  - assumption.
  - constructor.
Qed.

(** X25: from a regular file the whole content is read, however long: the
    block returned holds the content, then a NUL, then bytes that were
    never written, so the string returned is the content up to its first
    NUL; and every block freed on the way holds zeros only. *)
Theorem read_regular_file (content : list Z) (garbage : nat -> nat -> Z) :
  Z.of_nat (length content) + 2 * inc + 2 < size_modulus ->
  exists buf freed,
    sslSecureReadASCIIFileToMem (S (length content)) (regular_file content)
                                garbage
    = Some (Done (buf, freed)) /\
    (exists tail, buf = content ++ 0 :: tail /\
                  Forall (unwritten garbage) tail) /\
    c_str buf = c_str content /\
    Forall (Forall (fun c => c = 0)) freed.
Proof.
  intros Hbound. unfold sslSecureReadASCIIFileToMem.
  destruct (read_loop_from_start content garbage
              (malloc (Z.to_nat inc) (garbage O)) Hbound
              (malloc_inc_length _) (malloc_unwritten _ _ _))
    as (tail & freed & Hrun & Hj & Hf).
  exists (content ++ 0 :: tail), freed. split; [exact Hrun|].
  split; [eauto|]. split; [apply c_str_cut | assumption].
Qed.

Lemma read_regular_file_witness :
  exists buf freed,
    sslSecureReadASCIIFileToMem 6 (regular_file (str "hello")) (fun _ _ => 7)
    = Some (Done (buf, freed)) /\
    c_str buf = str "hello".
Proof.
  destruct (read_regular_file (str "hello") (fun _ _ => 7))
    as (buf & freed & Hrun & _ & Hs & _).
  - vm_compute. reflexivity.
  - exists buf, freed. split; [exact Hrun | exact Hs].
Defined.

(** X26: the loop ends at the first [read] that gives fewer bytes than there
    is room for: what such a first [read] delivers is all that is
    returned, whatever is still to come, and a [read] that fails is taken
    for the end of the file. *)
Theorem read_ends_at_short_read
        (fd : Fd) (garbage : nat -> nat -> Z) (fuel : nat) :
  fails fd O = true \/ burst fd O < inc - 1 ->
  exists buf,
    sslSecureReadASCIIFileToMem (S fuel) fd garbage = Some (Done (buf, [])) /\
    c_str buf
    = c_str (if fails fd O then []
             else take (Z.to_nat (burst fd O)) (pending fd)).
Proof.
  intros Hshort. unfold sslSecureReadASCIIFileToMem. cbn [read_loop].
  change ((inc - 1) mod size_modulus) with 16383.
  change (0 <? 16383) with true. cbn [negb].
  change ((inc - 0 - 1) mod size_modulus) with 16383.
  pose proof (malloc_inc_length (garbage O)) as Hl. unfold inc in Hl at 2.
  generalize dependent (malloc (Z.to_nat inc) (garbage O)).
  intros block Hl.
  unfold read. destruct (fails fd O) eqn:Hf.
  - change (-1 mod size_modulus =? 16383) with false.
    change (0 <? -1) with false. change (0 <? inc) with true.
    cbn [negb Z.to_nat]. unfold store. cbn [take drop app length Nat.add].
    destruct block as [|x t]; [discriminate|].
    eexists. split; reflexivity.
  - destruct Hshort as [|Hshort]; [discriminate|].
    unfold inc in Hshort.
    rewrite Z.min_r by lia.
    set (d := take (Z.to_nat (burst fd O)) (pending fd)).
    assert (Hd : Z.of_nat (length d) < 16383)
      by (unfold d; rewrite length_take; lia).
    rewrite Z.mod_small by (unfold size_modulus; lia).
    replace (Z.of_nat (length d) =? 16383) with false by zbool.
    cbn [negb].
    assert (Hlen : (if 0 <? Z.of_nat (length d)
                    then (0 + Z.of_nat (length d)) mod size_modulus else 0)
                   = Z.of_nat (length d)).
    { destruct (0 <? Z.of_nat (length d)) eqn:H0; [|lia].
      rewrite Z.mod_small by (unfold size_modulus; lia). lia. }
    rewrite Hlen. clear Hlen.
    replace (Z.of_nat (length d) <? inc) with true by (unfold inc; zbool).
    cbn [negb Z.to_nat]. rewrite Nat2Z.id.
    unfold store. change (Z.to_nat 0) with O. cbn [take app Nat.add].
    eexists. split; [reflexivity|]. rewrite take_0. cbn [app].
    rewrite insert_app_r_alt by lia. rewrite Nat.sub_diag.
    destruct (drop (length d) block) as [|x t] eqn:Hdrop.
    + apply (f_equal length) in Hdrop. rewrite length_drop in Hdrop.
      cbn [length] in Hdrop. lia.
    + cbn [insert list_insert]. apply c_str_cut.
Qed.

Lemma read_ends_at_short_read_witness :
  exists buf,
    sslSecureReadASCIIFileToMem 1
      {| pending := str "-----BEGIN CERTIFICATE-----"; burst := fun _ => 5;
         fails := fun _ => false |} (fun _ _ => 7)
    = Some (Done (buf, [])) /\
    c_str buf = str "-----".
Proof.
  apply (read_ends_at_short_read
           {| pending := str "-----BEGIN CERTIFICATE-----";
              burst := fun _ => 5; fails := fun _ => false |}
           (fun _ _ => 7) O).
  right. reflexivity.
Defined.

(** *** Installing from a file descriptor *)

Lemma memset_decoded (r : result) :
  memset_defined (ret_of r) (size_of r) = true -> exists ret, r = Decoded ret.
Proof.
  destruct r as [|f|ret|]; cbn [ret_of size_of memset_defined];
    try discriminate.
  eauto.
Qed.

Lemma positive_size (r : result) :
  (0 <? size_of r) = true -> exists key, r = Decoded key /\ key <> [].
Proof.
  destruct r as [|f|key|]; cbn [size_of]; try discriminate.
  intros H. exists key. split; [reflexivity|]. intros ->. discriminate.
Qed.

Lemma checked_blocks {A : Type} (c r d k : result) (x y : A) :
  c <> CheckFailed -> r <> CheckFailed -> d <> CheckFailed ->
  k <> CheckFailed ->
  match c, r, d, k with
  | CheckFailed, _, _, _ | _, CheckFailed, _, _
  | _, _, CheckFailed, _ | _, _, _, CheckFailed => x
  | _, _, _, _ => y
  end = y.
Proof. destruct c, r, d, k; intros; congruence. Qed.

(** Every way [install_certificate] returns. *)
Lemma install_certificate_done
      (e : FdEnv) (ssl ssl' : SSLSupport) (data : list Z) :
  install_certificate e ssl data = Done ssl' ->
  (exists cert, sslPEMtoASN1 data (str "CERTIFICATE") = Decoded cert /\
                cert <> []) /\
  (exists label key,
     label ∈ [str "RSA PRIVATE KEY"; str "DSA PRIVATE KEY";
              str "EC PRIVATE KEY"] /\
     sslPEMtoASN1 data label = Decoded key /\ key <> []) /\
  ssl' = {| enabled := enabled ssl; sslContext := fd_new_ctx e;
            sniCertificatePattern := sniCertificatePattern ssl;
            generateMissing := false; sniContexts := sniContexts ssl |}.
Proof.
  unfold install_certificate. destruct (close_ok e); [|discriminate].
  cbn [negb]. rewrite checked_blocks by apply sslPEMtoASN1_checks.
  destruct (_ || _) eqn:Hcond; [discriminate|].
  destruct (fd_pending_err e && fd_verbose e); [discriminate|].
  repeat (apply orb_false_iff in Hcond as [Hcond ?]).
  destruct (memset_defined (Some data) _); [|discriminate].
  destruct (memset_defined (ret_of (sslPEMtoASN1 data (str "CERTIFICATE"))) _)
    eqn:Hc; [|discriminate].
  cbn [andb].
  destruct (wipe_key_defined _ && wipe_key_defined _ && wipe_key_defined _); [|discriminate].
  intros [= <-].
  apply memset_decoded in Hc as [cert Hcert].
  split; [|split; [|reflexivity]].
  - exists cert. split; [assumption|]. intros ->. rewrite Hcert in Hcond.
    discriminate.
  - match goal with H : negb _ = false |- _ =>
      apply negb_false_iff in H;
      apply orb_true_iff in H as [H|Hec];
      [apply orb_true_iff in H as [Hrsa|Hdsa]|] end.
    + apply positive_size in Hrsa as (key & ? & ?).
      exists (str "RSA PRIVATE KEY"), key. split; [set_solver|]. auto.
    + apply positive_size in Hdsa as (key & ? & ?).
      exists (str "DSA PRIVATE KEY"), key. split; [set_solver|]. auto.
    + apply positive_size in Hec as (key & ? & ?).
      exists (str "EC PRIVATE KEY"), key. split; [set_solver|]. auto.
Qed.

(** X27: [sslSetCertificateFd] returns only with a certificate and a private
    key in the file: the CERTIFICATE block is there and decodes to at
    least one byte, and so does a key block of one of the three types.
    The object it leaves has the new context as its default, generates
    no certificates, and keeps its pattern and its cache. *)
Theorem certificate_fd_needs_certificate_and_key
        (e : FdEnv) (ssl ssl' : SSLSupport) (fdnum : Z) (fuel : nat)
        (fd : Fd) (garbage : nat -> nat -> Z) :
  sslSetCertificateFd e ssl fdnum fuel fd garbage = Some (Done ssl') ->
  exists data freed0,
    sslSecureReadASCIIFileToMem fuel fd garbage = Some (Done (data, freed0)) /\
    (exists cert, sslPEMtoASN1 data (str "CERTIFICATE") = Decoded cert /\
                  cert <> []) /\
    (exists label key,
       label ∈ [str "RSA PRIVATE KEY"; str "DSA PRIVATE KEY";
                str "EC PRIVATE KEY"] /\
       sslPEMtoASN1 data label = Decoded key /\ key <> []) /\
    0 <= fdnum /\ fd_new_ctx e <> 0 /\
    sslContext ssl' = fd_new_ctx e /\ generateMissing ssl' = false /\
    sniCertificatePattern ssl' = sniCertificatePattern ssl /\
    sniContexts ssl' = sniContexts ssl.
Proof.
  unfold sslSetCertificateFd. destruct (fd_supports e); [|discriminate].
  cbn [negb]. destruct (Z.leb_spec 0 fdnum) as [Hfd|]; [|discriminate].
  cbn [negb]. destruct (Z.eqb_spec (fd_new_ctx e) 0) as [|Hctx];
    [discriminate|].
  destruct (sslSecureReadASCIIFileToMem fuel fd garbage)
    as [[[data freed0]| |]|]; try discriminate.
  destruct (install_certificate e ssl data) as [s| |] eqn:Hi;
    try discriminate.
  intros [= <-]. apply install_certificate_done in Hi.
  destruct Hi as (Hc & Hk & ->).
  exists data, freed0. repeat (split; [assumption || reflexivity|]).
  reflexivity.
Qed.

Lemma certificate_fd_needs_certificate_and_key_witness :
  exists ssl',
    sslSetCertificateFd example_fd_env (initSSL true) 3
      (S (length example_pem)) (regular_file example_pem) (fun _ _ => 7)
    = Some (Done ssl') /\
    sslContext ssl' = 1 /\ generateMissing ssl' = false.
Proof.
  assert (Hrun : exists ssl',
    sslSetCertificateFd example_fd_env (initSSL true) 3
      (S (length example_pem)) (regular_file example_pem) (fun _ _ => 7)
    = Some (Done ssl'))
    by (vm_compute; eexists; reflexivity).
  destruct Hrun as (ssl' & Hrun). exists ssl'.
  split; [exact Hrun|].
  destruct (certificate_fd_needs_certificate_and_key _ _ _ _ _ _ _ Hrun)
    as (_ & _ & _ & _ & _ & _ & _ & Hc & Hg & _).
  split; assumption.
Defined.

End Installing.
